(** * History backend "mem": a shallow embedding of
      src/modules/history_backend_mem.c

    The C module keeps, per object (channel), a doubly linked list of log
    lines together with two cached fields ([num_lines], [oldest_t]) and two
    limits ([max_lines], [max_time]).  The objects live in a hash table of
    1019 chains.  A timer sweeps the table in slices, and, when the
    [persist] option is on, logs are written to and read from encrypted
    database files.

    Conventions of the embedding:
    - [int], [long] and [time_t] values are integers of [Z].  Signed
      arithmetic is written without wrap-around: signed overflow has no
      defined behaviour in C, so the model speaks about the runs in which it
      does not occur.  Conversions to [uint32_t]/[uint64_t] (the database
      writers) are written out with [mod].
    - A linked list ([head] .. [tail], [prev]/[next]) is a Rocq [list] in
      head-to-tail order; a pointer to a line of a log is its position.
    - A pointer to a [HistoryLogObject] is the pair (bucket, position in the
      chain).
    - [abort()] and a NULL dereference end a run with [Fault].
    - Functions of the host (unrealircd.h) and of the C library that are not
      part of the module are variables of the section, or are modelled in
      the simplest way that fits their documented contract. *)

From Stdlib Require Import ZArith Lia Ascii String List Bool.
From stdpp Require Import base option list gmap strings.

Local Open Scope string_scope.
Local Open Scope list_scope.
Local Open Scope Z_scope.

(** ** Outcomes of a run *)

Inductive fault : Type :=
| Aborted      (* abort() *)
| NullDeref    (* dereference of a NULL pointer *)
| Nameless     (* the code goes on, with a value the model has no term for:
                  a message tag without a name in a stored line; see
                  [nameless_tag] *)
| OutOfFuel.   (* a loop of the model used up its fuel; see the lemmas on
                  fuel: the loops of the C code end before that *)

Inductive outcome (A : Type) : Type :=
| Ok (a : A)
| Fault (f : fault).
Arguments Ok {A} a.
Arguments Fault {A} f.

#[global] Instance outcome_ret : MRet outcome := fun A a => Ok a.
#[global] Instance outcome_bind : MBind outcome := fun A B k m =>
  match m with
  | Ok a => k a
  | Fault f => Fault f
  end.

(** ** C strings *)

Definition tolower (c : ascii) : ascii :=
  let n := nat_of_ascii c in
  if (Nat.leb 65 n && Nat.leb n 90)%bool then ascii_of_nat (n + 32) else c.

Fixpoint strtolower (s : string) : string :=
  match s with
  | EmptyString => EmptyString
  | String c s' => String (tolower c) (strtolower s')
  end.

(** [strcasecmp(a, b) == 0] *)
Definition strcasecmp_eq (a b : string) : bool :=
  String.eqb (strtolower a) (strtolower b).

(** [strcmp(a, b) == 0] *)
Definition strcmp_eq (a b : string) : bool := String.eqb a b.

(** What [strlcpy(dst, src, size)] and [snprintf(dst, size, "%s", src)]
    leave in [dst]: at most [size - 1] characters of [src]. *)
Definition strlcpy (size : nat) (src : string) : string :=
  substring 0 (size - 1) src.

Fixpoint string_rev_aux (s acc : string) : string :=
  match s with
  | EmptyString => acc
  | String c s' => string_rev_aux s' (String c acc)
  end.

(** Modelled from the spec: [filename_has_suffix(fname, suffix)] of the
    host, true when [fname] ends in [suffix] (the per-object files are
    those with suffix [.db]). *)
Definition filename_has_suffix (fname suffix : string) : bool :=
  String.prefix (string_rev_aux suffix "") (string_rev_aux fname "").

(** Decimal output of [printf("%0<width>d", n)]. *)
Fixpoint dec_digits (fuel : nat) (n : N) (acc : string) : string :=
  match fuel with
  | O => acc
  | S fuel' =>
      let d := String (ascii_of_N (48 + N.modulo n 10)) acc in
      if N.ltb n 10 then d else dec_digits fuel' (N.div n 10) d
  end.

Fixpoint zeros (k : nat) : string :=
  match k with
  | O => ""
  | S k' => String "0" (zeros k')
  end.

Definition printf_0d (width : nat) (n : Z) : string :=
  let mag := Z.to_N (Z.abs n) in
  let ds := dec_digits (S (N.size_nat mag)) mag "" in
  if Z.ltb n 0
  then "-" +:+ zeros (width - 1 - String.length ds) +:+ ds
  else zeros (width - String.length ds) +:+ ds.

(** ** Data of the host: message tags, log lines, filters, results *)

Record MessageTag : Type := {
  mt_name : string;
  mt_value : option string   (* the value may be NULL *)
}.

(** [HistoryLogLine]: [prev]/[next] are the neighbours in the list that
    holds the line. *)
Record HistoryLogLine : Type := {
  hl_t : Z;
  hl_mtags : list MessageTag;
  hl_line : string
}.

Record HistoryFilter : Type := {
  last_lines : Z;
  last_seconds : Z
}.

(** [HistoryResult]: [log] .. [log_tail] as a list. *)
Record HistoryResult : Type := {
  hr_object : string;
  hr_log : list HistoryLogLine
}.

Record timeval : Type := { tv_sec : Z; tv_usec : Z }.

Record tm : Type := {
  tm_year : Z; tm_mon : Z; tm_mday : Z;
  tm_hour : Z; tm_min : Z; tm_sec : Z
}.

(** ** Data of the module *)

Record cfgstruct : Type := {
  persist : bool;
  directory : option string;
  masterdb : option string;
  db_secret : option string;
  prehash : option string;
  posthash : option string
}.

Record HistoryLogObject : Type := {
  h_lines : list HistoryLogLine;  (* head .. tail *)
  num_lines : Z;
  oldest_t : Z;
  max_lines : Z;
  max_time : Z;
  dirty : bool;
  h_name : string
}.

Definition set_lines (v : list HistoryLogLine) (h : HistoryLogObject) :=
  {| h_lines := v; num_lines := num_lines h; oldest_t := oldest_t h;
     max_lines := max_lines h; max_time := max_time h; dirty := dirty h;
     h_name := h_name h |}.
Definition set_num_lines (v : Z) (h : HistoryLogObject) :=
  {| h_lines := h_lines h; num_lines := v; oldest_t := oldest_t h;
     max_lines := max_lines h; max_time := max_time h; dirty := dirty h;
     h_name := h_name h |}.
Definition set_oldest_t (v : Z) (h : HistoryLogObject) :=
  {| h_lines := h_lines h; num_lines := num_lines h; oldest_t := v;
     max_lines := max_lines h; max_time := max_time h; dirty := dirty h;
     h_name := h_name h |}.
Definition set_max_lines (v : Z) (h : HistoryLogObject) :=
  {| h_lines := h_lines h; num_lines := num_lines h; oldest_t := oldest_t h;
     max_lines := v; max_time := max_time h; dirty := dirty h;
     h_name := h_name h |}.
Definition set_max_time (v : Z) (h : HistoryLogObject) :=
  {| h_lines := h_lines h; num_lines := num_lines h; oldest_t := oldest_t h;
     max_lines := max_lines h; max_time := v; dirty := dirty h;
     h_name := h_name h |}.
Definition set_dirty (v : bool) (h : HistoryLogObject) :=
  {| h_lines := h_lines h; num_lines := num_lines h; oldest_t := oldest_t h;
     max_lines := max_lines h; max_time := max_time h; dirty := v;
     h_name := h_name h |}.

Definition HISTORY_BACKEND_MEM_HASH_TABLE_SIZE : Z := 1019.
Definition HISTORY_SPREAD : Z := 60.
Definition HISTORY_MAX_OFF_SECS : Z := 300.

Definition HISTORYDB_MAGIC_FILE_START : Z := 0xFEFEFEFE.
Definition HISTORYDB_MAGIC_FILE_END : Z := 0xEFEFEFEF.
Definition HISTORYDB_MAGIC_ENTRY_START : Z := 0xFFFFFFFF.
Definition HISTORYDB_MAGIC_ENTRY_END : Z := 0xEEEEEEEE.

(** ** The database primitive and the disk

    Modelled from the spec: the encrypted blob reader/writer (unrealdb) is
    an opaque handle with typed reads and writes of 32-bit integers, 64-bit
    integers and length-prefixed strings with a distinguishable null value,
    plus open, close and an error code.  A file is the secret it was written
    with and the sequence of typed items it holds. *)

(** Modelled from the spec: one typed item of a database file. *)
Inductive dbitem : Type :=
| DbInt32 (v : Z)
| DbInt64 (v : Z)
| DbStr (s : option string).

(** Modelled from the spec: a database file, the secret it was written
    with and its items in order. *)
Record dbfile : Type := {
  db_key : option string;
  db_items : list dbitem
}.

(** The disk: regular files by path, and the directories that exist. *)
Record filesystem : Type := {
  fs_files : gmap string dbfile;
  fs_dirs : gset string
}.

(** Modelled from the spec: the error codes of the primitive that the
    module tells apart. *)
Inductive unrealdb_error : Type :=
| UNREALDB_ERROR_FILENOTFOUND
| UNREALDB_ERROR_OTHER.

(** Modelled from the spec: a handle opened for reading holds what is left
    to read; a handle opened for writing the path and what was written so
    far. *)
Record UnrealDB : Type := {
  udb_path : string;
  udb_key : option string;
  udb_items : list dbitem
}.

(** Messages to the operators and to the configuration log, one constructor
    per call site. *)
Inductive notice : Type :=
| Realops_add_no_limit (object : string)
| Warn_no_database (fname : option string)
| Warn_master_open_failed (fname : option string)
| Error_master_read (fname : option string)
| Error_master_write (fname : option string)
| Warn_open_failed (fname : string)
| Warn_read_error (fname : string)
| Warn_wrong_magic (fname : string) (magic expected : Z)
| Warn_old_format (fname : string) (version : Z)
| Warn_new_format (fname : string) (version : Z)
| Warn_not_ours (fname : string)
| Warn_no_channel (object : string)
| Error_write_tmp (tmpfname : string)
| Error_rename (tmpfname realfname : string)
| Error_secret_without_persist
| Error_persist_without_secret
| Error_test_db (errstr : string)
| Error_no_directory (dir : option string).

(** The global variables of the module, the static cursor of
    [history_mem_clean], and the part of the outside world the module acts
    on. *)
Record world : Type := {
  cfg : cfgstruct;
  test : cfgstruct;
  history_hash_table : list (list HistoryLogObject);
  hashnum : Z;
  already_loaded : bool;
  disk : filesystem;
  notices : list notice;   (* oldest first *)
  rng : nat                (* calls to gen_random_alnum so far *)
}.

Definition set_cfg (v : cfgstruct) (w : world) : world :=
  {| cfg := v; test := test w; history_hash_table := history_hash_table w;
     hashnum := hashnum w; already_loaded := already_loaded w;
     disk := disk w; notices := notices w; rng := rng w |}.
Definition set_test (v : cfgstruct) (w : world) : world :=
  {| cfg := cfg w; test := v; history_hash_table := history_hash_table w;
     hashnum := hashnum w; already_loaded := already_loaded w;
     disk := disk w; notices := notices w; rng := rng w |}.
Definition set_table (v : list (list HistoryLogObject)) (w : world) : world :=
  {| cfg := cfg w; test := test w; history_hash_table := v;
     hashnum := hashnum w; already_loaded := already_loaded w;
     disk := disk w; notices := notices w; rng := rng w |}.
Definition set_hashnum (v : Z) (w : world) : world :=
  {| cfg := cfg w; test := test w; history_hash_table := history_hash_table w;
     hashnum := v; already_loaded := already_loaded w;
     disk := disk w; notices := notices w; rng := rng w |}.
Definition set_already_loaded (v : bool) (w : world) : world :=
  {| cfg := cfg w; test := test w; history_hash_table := history_hash_table w;
     hashnum := hashnum w; already_loaded := v;
     disk := disk w; notices := notices w; rng := rng w |}.
Definition set_disk (v : filesystem) (w : world) : world :=
  {| cfg := cfg w; test := test w; history_hash_table := history_hash_table w;
     hashnum := hashnum w; already_loaded := already_loaded w;
     disk := v; notices := notices w; rng := rng w |}.
Definition notify (n : notice) (w : world) : world :=
  {| cfg := cfg w; test := test w; history_hash_table := history_hash_table w;
     hashnum := hashnum w; already_loaded := already_loaded w;
     disk := disk w; notices := notices w ++ [n]; rng := rng w |}.
Definition set_rng (v : nat) (w : world) : world :=
  {| cfg := cfg w; test := test w; history_hash_table := history_hash_table w;
     hashnum := hashnum w; already_loaded := already_loaded w;
     disk := disk w; notices := notices w; rng := v |}.

(** A pointer to a [HistoryLogObject]: bucket and position in its chain. *)
Definition hptr : Type := (nat * nat)%type.

Definition chain_of (tbl : list (list HistoryLogObject)) (i : nat)
  : list HistoryLogObject :=
  default [] (tbl !! i).

Definition deref (tbl : list (list HistoryLogObject)) (p : hptr)
  : option HistoryLogObject :=
  chain_of tbl p.1 !! p.2.

Definition hstore (tbl : list (list HistoryLogObject)) (p : hptr)
  (h : HistoryLogObject) : list (list HistoryLogObject) :=
  <[p.1 := <[p.2 := h]> (chain_of tbl p.1)]> tbl.

(** Modelled from the spec: [find_mtag(mtags, token)] of the host, the
    first tag with that name. *)
Definition find_mtag (mtags : list MessageTag) (token : string)
  : option MessageTag :=
  List.find (fun m => strcmp_eq (mt_name m) token) mtags.

(** Modelled from the spec: [duplicate_mtag(m)] of the host, a fresh tag
    with copies of name and value. *)
Definition duplicate_mtag (m : MessageTag) : MessageTag :=
  {| mt_name := mt_name m; mt_value := mt_value m |}.

(** A [ConfigEntry], as far as the module reads it; [ce_filename] is
    [ce->ce_fileptr->cf_filename]. *)
Record ConfigEntry : Type := {
  ce_varname : option string;
  ce_vardata : option string;
  ce_filename : string;
  ce_varlinenum : Z
}.

(** What [hbm_config_test] reports through [config_error]. *)
Inductive config_message : Type :=
| Missing_parameter (file : string) (line : Z)
| Bad_db_secret (file : string) (line : Z) (err : string).

(** What the configuration hooks take from the host:
    [CONFIG_SET_HISTORY_CHANNEL], [config_checkval(value, CFG_YESNO)] as a
    truth value, and [unrealdb_test_secret(name)], which returns an error
    string or NULL. *)
Record config_host : Type := {
  CONFIG_SET_HISTORY_CHANNEL : Z;
  config_checkval_yesno : option string -> bool;
  unrealdb_test_secret : option string -> option string
}.

Section HistoryBackendMem.

(** *** What the module takes from the host and from the build *)

Variable DEBUGMODE : bool.
Variable WIN32 : bool.
Variables NICKLEN CHANNELLEN : nat.
(** [siphash_nocase(object, siphashkey_history_backend_mem)] *)
Variable siphash_nocase : string -> Z.
(** [server_time_to_unix_time(value)] *)
Variable server_time_to_unix_time : option string -> Z.
(** [gmtime(&sec)] *)
Variable gmtime : Z -> tm.
(** [sha256hash(hash, data, len)], as the string left in [hash] *)
Variable sha256hash : string -> string.
(** [find_channel(name, NULL) != NULL] and [has_channel_mode(channel, 'P')] *)
Variable find_channel : string -> bool.
Variable has_channel_mode_P : string -> bool.
(** [unrealdb_test_db(fname, secret)]: an error string, or NULL *)
Variable unrealdb_test_db : filesystem -> string -> option string -> option string.
(** whether [mkdir(path)] can create the directory *)
Variable mkdir_allowed : string -> bool.
(** [gen_random_alnum(buf, n)] at the k-th call *)
Variable gen_random_alnum : nat -> nat -> string.
(** [convert_to_absolute_path(&dir, PERMDATADIR)] *)
Variable convert_to_absolute_path : string -> string.

Definition OBJECTLEN : nat :=
  if Nat.ltb CHANNELLEN NICKLEN then NICKLEN else CHANNELLEN.

Definition HISTORY_CLEAN_PER_LOOP : Z :=
  if DEBUGMODE then HISTORY_BACKEND_MEM_HASH_TABLE_SIZE
  else HISTORY_BACKEND_MEM_HASH_TABLE_SIZE / HISTORY_SPREAD.

Definition HISTORY_TIMER_EVERY : Z :=
  if DEBUGMODE then 5 else HISTORY_MAX_OFF_SECS / HISTORY_SPREAD.

(** *** The object store *)

Definition hbm_hash (object : string) : nat :=
  Z.to_nat (siphash_nocase object mod HISTORY_BACKEND_MEM_HASH_TABLE_SIZE).

Definition same_object (object : string) (h : HistoryLogObject) : Prop :=
  strcasecmp_eq object (h_name h) = true.

#[local] Instance same_object_dec object h : Decision (same_object object h).
Proof. unfold same_object. apply _. Defined.

Definition hbm_find_object (tbl : list (list HistoryLogObject))
  (object : string) : option (hptr * HistoryLogObject) :=
  let hashv := hbm_hash object in
  match list_find (same_object object) (chain_of tbl hashv) with
  | Some (k, h) => Some ((hashv, k), h)
  | None => None
  end.

Definition new_object (object : string) : HistoryLogObject :=
  {| h_lines := []; num_lines := 0; oldest_t := 0; max_lines := 0;
     max_time := 0; dirty := false;
     h_name := strlcpy (OBJECTLEN + 1) object |}.

Definition hbm_find_or_add_object (tbl : list (list HistoryLogObject))
  (object : string)
  : hptr * HistoryLogObject * list (list HistoryLogObject) :=
  let hashv := hbm_hash object in
  match list_find (same_object object) (chain_of tbl hashv) with
  | Some (k, h) => ((hashv, k), h, tbl)
  | None =>
      (* Create new one; AddListItem puts it at the head of the chain *)
      let h := new_object object in
      ((hashv, 0%nat), h, <[hashv := h :: chain_of tbl hashv]> tbl)
  end.

(** *** Lines *)

Definition server_time_now (tv : timeval) : string :=
  let d := gmtime (tv_sec tv) in
  printf_0d 4 (tm_year d + 1900) +:+ "-" +:+ printf_0d 2 (tm_mon d + 1) +:+ "-"
  +:+ printf_0d 2 (tm_mday d) +:+ "T" +:+ printf_0d 2 (tm_hour d) +:+ ":"
  +:+ printf_0d 2 (tm_min d) +:+ ":" +:+ printf_0d 2 (tm_sec d) +:+ "."
  +:+ printf_0d 3 (Z.quot (tv_usec tv) 1000) +:+ "Z".

(** [hbm_duplicate_mtags(l, m)] on a line [l] that has no tags yet: the
    tags and the [t] it leaves in [l].  [tv] is what [gettimeofday]
    returns. *)
Definition hbm_duplicate_mtags (tv : timeval) (m : list MessageTag)
  : list MessageTag * Z :=
  let dup := map duplicate_mtag m in
  match find_mtag dup "time" with
  | Some n => (dup, server_time_to_unix_time (mt_value n))
  | None =>
      let n := {| mt_name := "time"; mt_value := Some (server_time_now tv) |} in
      (n :: dup, server_time_to_unix_time (mt_value n))
  end.

Definition new_log_line (tv : timeval) (mtags : list MessageTag)
  (line : string) : HistoryLogLine :=
  let '(tags, t) := hbm_duplicate_mtags tv mtags in
  {| hl_t := t; hl_mtags := tags; hl_line := line |}.

(** Add a line to a history object *)
Definition hbm_history_add_line (tv : timeval) (h : HistoryLogObject)
  (mtags : list MessageTag) (line : string) : HistoryLogObject :=
  let l := new_log_line tv mtags line in
  let h := set_lines (h_lines h ++ [l]) h in
  let h := set_dirty true h in
  let h := set_num_lines (num_lines h + 1) h in
  if (hl_t l <? oldest_t h) || (oldest_t h =? 0)
  then set_oldest_t (hl_t l) h else h.

(** Delete the line at position [i] from a history object.  The caller
    passes a line of the object; [oldest_t] is left alone. *)
Definition hbm_history_del_line (h : HistoryLogObject) (i : nat)
  : HistoryLogObject :=
  let h := set_lines (delete i (h_lines h)) h in
  let h := set_dirty true h in
  set_num_lines (num_lines h - 1) h.

(** Add history entry.  [hbm_history_del_line(h, h->head)] dereferences
    [h->head]. *)
Definition hbm_history_add (tv : timeval) (object : string)
  (mtags : list MessageTag) (line : string) (w : world)
  : outcome (Z * world) :=
  let '(p, h, tbl) := hbm_find_or_add_object (history_hash_table w) object in
  '(h, w) ←
    (if max_lines h =? 0 then
       let w := notify (Realops_add_no_limit (h_name h)) w in
       if DEBUGMODE then Fault Aborted
       else Ok (set_max_time 86400 (set_max_lines 50 h), w)
     else Ok (h, w));
  h ←
    (if num_lines h >=? max_lines h then
       match h_lines h with
       | [] => Fault NullDeref
       | _ :: _ => Ok (hbm_history_del_line h 0)
       end
     else Ok h);
  let h := hbm_history_add_line tv h mtags line in
  Ok (0, set_table (hstore tbl p h) w).

Definition duplicate_log_line (tv : timeval) (l : HistoryLogLine)
  : HistoryLogLine :=
  new_log_line tv (hl_mtags l) (hl_line l).

(** The first walk of [hbm_history_request]. *)
Fixpoint count_sendable (redline : Z) (ls : list HistoryLogLine) (n : Z) : Z :=
  match ls with
  | [] => n
  | l :: ls' =>
      count_sendable redline ls' (if hl_t l >=? redline then n + 1 else n)
  end.

(** The second walk: [cnt] is incremented only on lines that pass the red
    line ([&&] does not evaluate its right side otherwise). *)
Fixpoint collect_lines (tv : timeval) (redline lines_to_skip : Z)
  (ls : list HistoryLogLine) (cnt : Z) (acc : list HistoryLogLine)
  : list HistoryLogLine :=
  match ls with
  | [] => acc
  | l :: ls' =>
      if hl_t l >=? redline then
        let cnt := cnt + 1 in
        if cnt >? lines_to_skip
        then collect_lines tv redline lines_to_skip ls' cnt
               (acc ++ [duplicate_log_line tv l])
        else collect_lines tv redline lines_to_skip ls' cnt acc
      else collect_lines tv redline lines_to_skip ls' cnt acc
  end.

(** Where a result of [int] arithmetic leaves the 32 bits of an [int], it
    wraps around as two's complement arithmetic does. *)
Definition int_wrap (z : Z) : Z := (z + 2 ^ 31) mod 2 ^ 32 - 2 ^ 31.

Definition request_redline (now : Z) (h : HistoryLogObject)
  (filter : option HistoryFilter) : Z :=
  match filter with
  | Some f =>
      if negb (last_seconds f =? 0) && (last_seconds f <? max_time h)
      then now - last_seconds f
      else now - max_time h
  | None => now - max_time h
  end.

(** [hbm_history_request]; [now] is [TStime()], [None] is NULL. *)
Definition hbm_history_request (now : Z) (tv : timeval) (object : string)
  (filter : option HistoryFilter) (w : world) : option HistoryResult :=
  match hbm_find_object (history_hash_table w) object with
  | None => None (* nothing found *)
  | Some (_, h) =>
      let redline := request_redline now h filter in
      let lines_sendable := count_sendable redline (h_lines h) 0 in
      let lines_to_skip :=
        match filter with
        | Some f =>
            if lines_sendable >? last_lines f
            then
              (* [int] arithmetic: [lines_sendable] being a count of lines,
                 the difference leaves the range of [int] only for a
                 negative [last_lines] *)
              if last_lines f <? 0
              then int_wrap (lines_sendable - last_lines f)
              else lines_sendable - last_lines f
            else 0
        | None => 0
        end in
      Some {| hr_object := object;
              hr_log := collect_lines tv redline lines_to_skip (h_lines h) 0 [] |}
  end.

(** The two loops of [hbm_history_cleanup].  [i] is the position of [l] in
    the current list of [h], [todo] the lines from [l] on. *)
Fixpoint cleanup_time_loop (redline : Z) (h : HistoryLogObject) (i : nat)
  (todo : list HistoryLogLine) : HistoryLogObject :=
  match todo with
  | [] => h
  | l :: l_next =>
      if hl_t l <? redline then
        cleanup_time_loop redline (hbm_history_del_line h i) i l_next
      else
        let h :=
          if (oldest_t h =? 0) || (hl_t l <? oldest_t h)
          then set_oldest_t (hl_t l) h else h in
        cleanup_time_loop redline h (S i) l_next
  end.

Fixpoint cleanup_lines_loop (h : HistoryLogObject) (i : nat)
  (todo : list HistoryLogLine) : HistoryLogObject :=
  match todo with
  | [] => h
  | l :: l_next =>
      if num_lines h >? max_lines h then
        cleanup_lines_loop (hbm_history_del_line h i) i l_next
      else
        let h :=
          if (oldest_t h =? 0) || (hl_t l <? oldest_t h)
          then set_oldest_t (hl_t l) h else h in
        cleanup_lines_loop h (S i) l_next
  end.

(** Clean up expired entries *)
Definition hbm_history_cleanup (now : Z) (h : HistoryLogObject)
  : HistoryLogObject :=
  let redline := now - max_time h in
  let h :=
    if oldest_t h <? redline
    then let h := set_oldest_t 0 h in
         cleanup_time_loop redline h 0 (h_lines h)
    else h in
  if num_lines h >? max_lines h
  then let h := set_oldest_t 0 h in
       cleanup_lines_loop h 0 (h_lines h)
  else h.


(** *** The disk and the database primitive *)

(** [unlink(path)] of the C library: the file is gone afterwards. *)
Definition unlink (path : string) (fs : filesystem) : filesystem :=
  {| fs_files := delete path (fs_files fs); fs_dirs := fs_dirs fs |}.

(** The directory part of a path: what precedes its last ['/'].  [None]
    for a path without ['/'], which lies in the working directory; the
    empty string is the root. *)
Fixpoint dirname (path : string) : option string :=
  match path with
  | EmptyString => None
  | String c rest =>
      match dirname rest with
      | Some d => Some (String c d)
      | None => if Ascii.eqb c "/" then Some EmptyString else None
      end
  end.

(** The directory a path lies in exists: it is a directory of the disk, the
    root or the working directory. *)
Definition parent_exists (path : string) (fs : filesystem) : bool :=
  match dirname path with
  | Some d => String.eqb d "" || bool_decide (d ∈ fs_dirs fs)
  | None => true
  end.

(** [rename(old, new)] of the C library: fails when [old] is not a file,
    when [new] is a directory and when the directory [new] lies in does not
    exist; replaces [new] otherwise.  The directory [old] lies in exists, as
    [old] does. *)
Definition rename (old new : string) (fs : filesystem)
  : option filesystem :=
  match fs_files fs !! old with
  | Some f =>
      if decide (new ∈ fs_dirs fs) then None
      else if bool_decide (dirname new = dirname old) || parent_exists new fs
      then Some {| fs_files := <[new := f]> (delete old (fs_files fs));
                   fs_dirs := fs_dirs fs |}
      else None
  | None => None
  end.

Definition file_exists (path : string) (fs : filesystem) : bool :=
  bool_decide (path ∈ fs_dirs fs) || bool_decide (is_Some (fs_files fs !! path)).

(** [mkdir(path, 0700)] of the C library: creates the directory when the
    host allows it ([mkdir_allowed]: permissions and the like), the
    directory it lies in exists and nothing has that name yet; fails, and
    leaves the disk as it is, otherwise.  The result is ignored by the
    module. *)
Definition mkdir (path : string) (fs : filesystem) : filesystem :=
  if mkdir_allowed path && parent_exists path fs && negb (file_exists path fs)
  then {| fs_files := fs_files fs; fs_dirs := {[path]} ∪ fs_dirs fs |}
  else fs.

(** The names of the regular files directly in [dir]. *)
Fixpoint has_slash (s : string) : bool :=
  match s with
  | EmptyString => false
  | String c s' => Ascii.eqb c "/" || has_slash s'
  end.

Definition entry_name (dir path : string) : option string :=
  let pre := dir +:+ "/" in
  if String.prefix pre path then
    let name := substring (String.length pre) (String.length path) path in
    if has_slash name then None else Some name
  else None.

(** [opendir]/[readdir] of the C library, regular files only. *)
Definition readdir (dir : string) (fs : filesystem) : list string :=
  omap (entry_name dir) (elements (dom (fs_files fs))).

(** Modelled from the spec: [unrealdb_open(fname, UNREALDB_MODE_READ,
    secret)]; a missing file and a file that does not open with the secret
    give different errors. *)
Definition unrealdb_open_read (fname : string) (secret : option string)
  (fs : filesystem) : UnrealDB + unrealdb_error :=
  match fs_files fs !! fname with
  | None => inr UNREALDB_ERROR_FILENOTFOUND
  | Some f =>
      if decide (db_key f = secret)
      then inl {| udb_path := fname; udb_key := secret;
                  udb_items := db_items f |}
      else inr UNREALDB_ERROR_OTHER
  end.

(** Modelled from the spec: [unrealdb_open(fname, UNREALDB_MODE_WRITE,
    secret)] creates or empties the file; it fails on a directory. *)
Definition unrealdb_open_write (fname : string) (secret : option string)
  (fs : filesystem) : option (UnrealDB * filesystem) :=
  if decide (fname ∈ fs_dirs fs) then None
  else Some ({| udb_path := fname; udb_key := secret; udb_items := [] |},
             {| fs_files := <[fname := {| db_key := secret; db_items := [] |}]>
                              (fs_files fs);
                fs_dirs := fs_dirs fs |}).

(** Modelled from the spec: [unrealdb_close] of a handle opened for
    writing leaves the written items in the file. *)
Definition unrealdb_close_write (db : UnrealDB) (fs : filesystem)
  : filesystem :=
  {| fs_files := <[udb_path db := {| db_key := udb_key db;
                                     db_items := udb_items db |}]>
                   (fs_files fs);
     fs_dirs := fs_dirs fs |}.

Definition udb_rest (db : UnrealDB) (rest : list dbitem) : UnrealDB :=
  {| udb_path := udb_path db; udb_key := udb_key db; udb_items := rest |}.

(** Modelled from the spec: the typed reads fail when the next item is
    missing or of another type. *)
Definition unrealdb_read_int32 (db : UnrealDB) : option (Z * UnrealDB) :=
  match udb_items db with
  | DbInt32 v :: rest => Some (v, udb_rest db rest)
  | _ => None
  end.

(** Modelled from the spec: see [unrealdb_read_int32]. *)
Definition unrealdb_read_int64 (db : UnrealDB) : option (Z * UnrealDB) :=
  match udb_items db with
  | DbInt64 v :: rest => Some (v, udb_rest db rest)
  | _ => None
  end.

(** Modelled from the spec: a string item is a string or the null value. *)
Definition unrealdb_read_str (db : UnrealDB)
  : option (option string * UnrealDB) :=
  match udb_items db with
  | DbStr s :: rest => Some (s, udb_rest db rest)
  | _ => None
  end.

Definition udb_put (db : UnrealDB) (x : dbitem) : UnrealDB :=
  udb_rest db (udb_items db ++ [x]).

(** Modelled from the spec: [unrealdb_write_int32]; the argument is
    converted to [uint32_t]. *)
Definition unrealdb_write_int32 (db : UnrealDB) (v : Z) : option UnrealDB :=
  Some (udb_put db (DbInt32 (v mod 2 ^ 32))).

(** Modelled from the spec: [unrealdb_write_int64]; the argument is
    converted to [uint64_t]. *)
Definition unrealdb_write_int64 (db : UnrealDB) (v : Z) : option UnrealDB :=
  Some (udb_put db (DbInt64 (v mod 2 ^ 64))).

(** Modelled from the spec: [unrealdb_write_str]; a NULL pointer is
    written as the null value. *)
Definition unrealdb_write_str (db : UnrealDB) (s : option string)
  : option UnrealDB :=
  Some (udb_put db (DbStr s)).

(** What [printf("%s", p)] prints for a pointer that may be NULL. *)
Definition cstr (p : option string) : string := default "(null)" p.


(** *** Persistence: file names, writing and deleting *)

Definition hbm_history_filename (h : HistoryLogObject) (w : world)
  : outcome string :=
  match prehash (cfg w), posthash (cfg w) with
  | Some pre, Some post =>
      let oname := strlcpy (OBJECTLEN + 1) (strtolower (h_name h)) in
      let hashdata := strlcpy 512 (pre +:+ " " +:+ oname +:+ " " +:+ post) in
      let hash := sha256hash hashdata in
      Ok (strlcpy 512 (cstr (directory (cfg w)) +:+ "/" +:+ hash +:+ ".db"))
  | _, _ => Fault Aborted (* impossible *)
  end.

Definition W_SAFE (r : option UnrealDB) (k : UnrealDB -> option UnrealDB)
  : option UnrealDB :=
  match r with
  | Some db => k db
  | None => None
  end.

Fixpoint write_mtags (db : UnrealDB) (ms : list MessageTag)
  : option UnrealDB :=
  match ms with
  | [] => Some db
  | m :: ms' =>
      W_SAFE (unrealdb_write_str db (Some (mt_name m))) (fun db =>
      W_SAFE (unrealdb_write_str db (mt_value m)) (* can be NULL *) (fun db =>
      write_mtags db ms'))
  end.

Fixpoint write_lines (db : UnrealDB) (ls : list HistoryLogLine)
  : option UnrealDB :=
  match ls with
  | [] => Some db
  | l :: ls' =>
      W_SAFE (unrealdb_write_int32 db HISTORYDB_MAGIC_ENTRY_START) (fun db =>
      W_SAFE (unrealdb_write_int64 db (hl_t l)) (fun db =>
      W_SAFE (write_mtags db (hl_mtags l)) (fun db =>
      W_SAFE (unrealdb_write_str db None) (fun db =>
      W_SAFE (unrealdb_write_str db None) (fun db =>
      W_SAFE (unrealdb_write_str db (Some (hl_line l))) (fun db =>
      W_SAFE (unrealdb_write_int32 db HISTORYDB_MAGIC_ENTRY_END) (fun db =>
      write_lines db ls')))))))
  end.

Definition write_db_contents (db : UnrealDB) (h : HistoryLogObject)
  (w : world) : option UnrealDB :=
  W_SAFE (unrealdb_write_int32 db HISTORYDB_MAGIC_FILE_START) (fun db =>
  W_SAFE (unrealdb_write_int32 db 5000) (* VERSION *) (fun db =>
  W_SAFE (unrealdb_write_str db (prehash (cfg w))) (fun db =>
  W_SAFE (unrealdb_write_str db (posthash (cfg w))) (fun db =>
  W_SAFE (unrealdb_write_str db (Some (h_name h))) (fun db =>
  W_SAFE (unrealdb_write_int64 db (max_lines h)) (fun db =>
  W_SAFE (unrealdb_write_int64 db (max_time h)) (fun db =>
  W_SAFE (write_lines db (h_lines h)) (fun db =>
  unrealdb_write_int32 db HISTORYDB_MAGIC_FILE_END)))))))).

(** [hbm_write_db(h)]: the return value, [h] afterwards, and the world.  A
    failed [W_SAFE] leaves the temporary file as it was opened. *)
Definition hbm_write_db (h : HistoryLogObject) (w : world)
  : outcome (Z * HistoryLogObject * world) :=
  match db_secret (cfg w) with
  | None => Fault Aborted
  | Some _ =>
      if negb (find_channel (h_name h)) || negb (has_channel_mode_P (h_name h))
      then Ok (1, h, w) (* Don't save this channel, pretend success *)
      else
        realfname ← hbm_history_filename h w;
        let tmpfname := strlcpy 512 (realfname +:+ ".tmp") in
        match unrealdb_open_write tmpfname (db_secret (cfg w)) (disk w) with
        | None => Ok (0, h, notify (Error_write_tmp tmpfname) w)
        | Some (db, fs) =>
            let w := set_disk fs w in
            match write_db_contents db h w with
            | None => Ok (0, h, notify (Error_write_tmp tmpfname) w)
            | Some db =>
                let w := set_disk (unrealdb_close_write db (disk w)) w in
                let w := if WIN32 then set_disk (unlink realfname (disk w)) w
                         else w in
                match rename tmpfname realfname (disk w) with
                | None => Ok (0, h, notify (Error_rename tmpfname realfname) w)
                | Some fs =>
                    (* everything was successful, clear the dirty flag *)
                    Ok (1, set_dirty false h, set_disk fs w)
                end
            end
        end
  end.

Definition hbm_delete_db (h : HistoryLogObject) (w : world) : outcome world :=
  if negb (persist (cfg w)) || negb (bool_decide (is_Some (prehash (cfg w))))
     || negb (bool_decide (is_Some (posthash (cfg w))))
  then (if DEBUGMODE then Fault Aborted else Ok w)
  else
    fname ← hbm_history_filename h w;
    Ok (set_disk (unlink fname (disk w)) w).

(** [DelListItem] takes the object out of the chain that holds it. *)
Definition hbm_delete_object_hlo (p : hptr) (h : HistoryLogObject)
  (w : world) : outcome world :=
  w ← (if persist (cfg w) then hbm_delete_db h w else Ok w);
  let tbl := history_hash_table w in
  Ok (set_table (<[p.1 := delete p.2 (chain_of tbl p.1)]> tbl) w).

(** [hbm_modechar_del(channel, modechar)] with [chname] the channel name. *)
Definition hbm_modechar_del (chname : string) (modechar : ascii) (w : world)
  : outcome (Z * world) :=
  if negb (persist (cfg w)) then Ok (0, w)
  else if Ascii.eqb modechar "P" then
    match hbm_find_object (history_hash_table w) chname with
    | Some (p, h) =>
        w ← hbm_delete_db h w;
        Ok (0, set_table (hstore (history_hash_table w) p (set_dirty true h)) w)
    | None => Ok (0, w)
    end
  else Ok (0, w).

Definition hbm_history_destroy (object : string) (w : world)
  : outcome (Z * world) :=
  match hbm_find_object (history_hash_table w) object with
  | None => Ok (0, w)
  | Some (p, h) =>
      w ← hbm_delete_object_hlo p h w;
      Ok (1, w)
  end.

(** Set new limit on history object *)
Definition hbm_history_set_limit (now : Z) (object : string)
  (max_lines_ max_time_ : Z) (w : world) : Z * world :=
  let '(p, h, tbl) := hbm_find_or_add_object (history_hash_table w) object in
  let h := set_max_lines max_lines_ h in
  let h := set_max_time max_time_ h in
  let h := hbm_history_cleanup now h in (* impose new restrictions *)
  (1, set_table (hstore tbl p h) w).

(** *** Persistence: reading *)

Definition R_SAFE {A : Type} (fname : string) (w : world)
  (r : option (A * UnrealDB)) (k : A -> UnrealDB -> outcome (Z * world))
  : outcome (Z * world) :=
  match r with
  | Some (x, db) => k x db
  | None => Ok (0, notify (Warn_read_error fname) w)
  end.

(** The tags read from a file as [MessageTag]s, when each of them has a
    name. *)
Fixpoint to_mtags (raw : list (option string * option string))
  : option (list MessageTag) :=
  match raw with
  | [] => Some []
  | (Some n, v) :: raw' =>
      match to_mtags raw' with
      | Some ms => Some ({| mt_name := n; mt_value := v |} :: ms)
      | None => None
      end
  | (None, _) :: _ => None
  end.

(** What becomes of a line one of whose tags, as read from the file, has a
    NULL name.  [find_mtag] in [hbm_duplicate_mtags] passes the names to
    [strcmp] one after the other, up to the first tag named ["time"]: a
    NULL name it meets on the way is dereferenced.  A NULL name behind that
    tag is never looked at: the line is stored with it and the code goes
    on.  [MessageTag], the tag as the callers of the module pass it, has no
    NULL name, and the model follows the code no further. *)
Fixpoint nameless_tag (raw : list (option string * option string)) : fault :=
  match raw with
  | (Some n, _) :: raw' =>
      if strcmp_eq n "time" then Nameless else nameless_tag raw'
  | _ => NullDeref
  end.

Fixpoint read_mtags_loop (fuel : nat) (fname : string) (w : world)
  (db : UnrealDB) (mtags : list (option string * option string))
  (k : list (option string * option string) -> UnrealDB -> outcome (Z * world))
  : outcome (Z * world) :=
  match fuel with
  | O => Fault OutOfFuel
  | S fuel' =>
      R_SAFE fname w (unrealdb_read_str db) (fun mtag_name db =>
      R_SAFE fname w (unrealdb_read_str db) (fun mtag_value db =>
      match mtag_name, mtag_value with
      | None, None => k mtags db (* done reading mtags for this line *)
      | _, _ =>
          read_mtags_loop fuel' fname w db
            (mtags ++ [(mtag_name, mtag_value)]) k
      end))
  end.

Fixpoint read_entries_loop (fuel : nat) (tv : timeval) (fname : string)
  (object : string) (p : hptr) (w : world) (db : UnrealDB)
  : outcome (Z * world) :=
  match fuel with
  | O => Fault OutOfFuel
  | S fuel' =>
      R_SAFE fname w (unrealdb_read_int32 db) (fun magic db =>
      if magic =? HISTORYDB_MAGIC_FILE_END then
        (* end gracefully; h->dirty = 0 *)
        let tbl := history_hash_table w in
        match deref tbl p with
        | Some h => Ok (1, set_table (hstore tbl p (set_dirty false h)) w)
        | None => Fault NullDeref
        end
      else if negb (magic =? HISTORYDB_MAGIC_ENTRY_START) then
        Ok (0, notify (Warn_wrong_magic fname magic
                         HISTORYDB_MAGIC_ENTRY_START) w)
      else
        R_SAFE fname w (unrealdb_read_int64 db) (fun line_ts db =>
        read_mtags_loop (S (length (udb_items db))) fname w db []
          (fun mtags db =>
        R_SAFE fname w (unrealdb_read_str db) (fun line db =>
        R_SAFE fname w (unrealdb_read_int32 db) (fun magic db =>
        if negb (magic =? HISTORYDB_MAGIC_ENTRY_END) then
          Ok (0, notify (Warn_wrong_magic fname magic
                           HISTORYDB_MAGIC_ENTRY_END) w)
        else
          match to_mtags mtags, line with
          | Some mtags, Some line =>
              match hbm_history_add tv object mtags line w with
              | Ok (_, w) => read_entries_loop fuel' tv fname object p w db
              | Fault f => Fault f
              end
          | None, Some _ => Fault (nameless_tag mtags)
          | _, None => Fault NullDeref (* [strlen(line)] *)
          end)))))
  end.

(** Read a channel history db file; [tv] is the clock seen by the
    [hbm_history_add] calls. *)
Definition hbm_read_db (tv : timeval) (fname : string) (w : world)
  : outcome (Z * world) :=
  match unrealdb_open_read fname (db_secret (cfg w)) (disk w) with
  | inr _ => Ok (0, notify (Warn_open_failed fname) w)
  | inl db =>
      R_SAFE fname w (unrealdb_read_int32 db) (fun magic db =>
      if negb (magic =? HISTORYDB_MAGIC_FILE_START) then
        Ok (0, notify (Warn_wrong_magic fname magic
                         HISTORYDB_MAGIC_FILE_START) w)
      else
        (* Now do a version check *)
        R_SAFE fname w (unrealdb_read_int32 db) (fun version db =>
        if version <? 4999 then Ok (0, notify (Warn_old_format fname version) w)
        else if version >? 5000
        then Ok (0, notify (Warn_new_format fname version) w)
        else
          R_SAFE fname w (unrealdb_read_str db) (fun prehash_ db =>
          R_SAFE fname w (unrealdb_read_str db) (fun posthash_ db =>
          let not_ours := Ok (0, notify (Warn_not_ours fname) w) in
          match prehash_, posthash_ with
          | Some pre, Some post =>
              match prehash (cfg w) with
              | None => Fault NullDeref
              | Some cpre =>
                  if negb (strcmp_eq pre cpre) then not_ours
                  else
                    match posthash (cfg w) with
                    | None => Fault NullDeref
                    | Some cpost =>
                        if negb (strcmp_eq post cpost) then not_ours
                        else
        R_SAFE fname w (unrealdb_read_str db) (fun object db =>
        R_SAFE fname w (unrealdb_read_int64 db) (fun max_lines_ db =>
        R_SAFE fname w (unrealdb_read_int64 db) (fun max_time_ db =>
        match object with
        | None => Fault NullDeref
        | Some object =>
            match hbm_find_object (history_hash_table w) object with
            | None =>
                let w := notify (Warn_no_channel object) w in
                Ok (1, set_disk (unlink fname (disk w)) w) (* No problem *)
            | Some (p, _) =>
                read_entries_loop (S (length (udb_items db))) tv fname
                  object p w db
            end
        end)))
                    end
              end
          | _, _ => not_ours
          end))))
  end.

(** The common section of the loop of [hbm_read_dbs], for one directory
    entry. *)
Definition read_dbs_entry (tv : timeval) (fname : string) (w : world)
  : outcome world :=
  let dir := cstr (directory (cfg w)) in
  let buf := strlcpy 512 (dir +:+ "/" +:+ fname) in
  if filename_has_suffix fname ".db" && negb (strcmp_eq fname "master.db")
  then
    '(r, w) ← hbm_read_db tv buf w;
    if r =? 0 then
      (* On error, we move the file to the 'bad' subdirectory *)
      let buf2 := strlcpy 512 (dir +:+ "/bad") in
      let w := set_disk (mkdir buf2 (disk w)) w in
      let buf2 := strlcpy 512 (dir +:+ "/bad/" +:+ fname) in
      let w := set_disk (unlink buf2 (disk w)) w in
      match rename buf buf2 (disk w) with
      | Some fs => Ok (set_disk fs w)
      | None => Ok w
      end
    else Ok w
  else Ok w.

Fixpoint read_dbs_loop (tv : timeval) (entries : list string) (w : world)
  : outcome world :=
  match entries with
  | [] => Ok w
  | fname :: rest =>
      w ← read_dbs_entry tv fname w;
      read_dbs_loop tv rest w
  end.

(** Read all database files (except master.db, which is already loaded).
    The entries are those present when the directory is opened. *)
Definition hbm_read_dbs (tv : timeval) (w : world) : outcome world :=
  match directory (cfg w) with
  | Some dir =>
      if decide (dir ∈ fs_dirs (disk w))
      then read_dbs_loop tv (readdir dir (disk w)) w
      else Ok w
  | None => Ok w
  end.

Definition history_mem_init (tv : timeval) (w : world) : outcome world :=
  if negb (already_loaded w) then
    let w := set_already_loaded true w in
    if persist (cfg w) then hbm_read_dbs tv w else Ok w
  else Ok w.


(** *** Configuration and the master file *)

Definition set_hashes (pre post : option string) (c : cfgstruct) : cfgstruct :=
  {| persist := persist c; directory := directory c; masterdb := masterdb c;
     db_secret := db_secret c; prehash := pre; posthash := post |}.

(** Set cfg->masterdb based on cfg->directory, for convenience *)
Definition hbm_set_masterdb_filename (c : cfgstruct) : cfgstruct :=
  {| persist := persist c; directory := directory c;
     masterdb := match directory c with
                 | Some d => Some (strlcpy 512 (d +:+ "/master.db"))
                 | None => None
                 end;
     db_secret := db_secret c; prehash := prehash c; posthash := posthash c |}.

Definition setcfg (c : cfgstruct) : cfgstruct :=
  hbm_set_masterdb_filename
    {| persist := persist c;
       directory := Some (convert_to_absolute_path "history");
       masterdb := masterdb c; db_secret := db_secret c;
       prehash := prehash c; posthash := posthash c |}.

Definition freecfg (c : cfgstruct) : cfgstruct :=
  {| persist := persist c; directory := None; masterdb := masterdb c;
     db_secret := None; prehash := None; posthash := None |}.

(** Write the master.db file. *)
Definition hbm_write_masterdb (w : world) : outcome (Z * world) :=
  match db_secret (test w) with
  | None => Fault Aborted
  | Some _ =>
      let failed := Ok (0, notify (Error_master_write (masterdb (test w))) w) in
      match masterdb (test w) with
      | None => failed
      | Some fname =>
          match unrealdb_open_write fname (db_secret (test w)) (disk w) with
          | None => failed
          | Some (db, fs) =>
              let w := set_disk fs w in
              let w :=
                match prehash (cfg w) with
                | Some _ => w
                | None =>
                    set_rng (S (rng w))
                      (set_cfg (set_hashes (Some (gen_random_alnum (rng w) 128))
                                  (posthash (cfg w)) (cfg w)) w)
                end in
              let w :=
                match posthash (cfg w) with
                | Some _ => w
                | None =>
                    set_rng (S (rng w))
                      (set_cfg (set_hashes (prehash (cfg w))
                                  (Some (gen_random_alnum (rng w) 128)) (cfg w)) w)
                end in
              let mdb_version := 5000 in
              match
                W_SAFE (unrealdb_write_int32 db mdb_version) (fun db =>
                W_SAFE (unrealdb_write_str db (prehash (cfg w))) (fun db =>
                unrealdb_write_str db (posthash (cfg w))))
              with
              | None =>
                  Ok (0, notify (Error_master_write (masterdb (test w))) w)
              | Some db =>
                  Ok (1, set_disk (unrealdb_close_write db (disk w)) w)
              end
          end
      end
  end.

(** Read the master.db file, this is done at the INIT stage so we can still
    reject the configuration / boot attempt. *)
Definition hbm_read_masterdb (w : world) : outcome (Z * world) :=
  let opened :=
    match masterdb (test w) with
    | Some fname => unrealdb_open_read fname (db_secret (test w)) (disk w)
    | None => inr UNREALDB_ERROR_OTHER
    end in
  match opened with
  | inr UNREALDB_ERROR_FILENOTFOUND =>
      (* Database does not exist. Could be first boot *)
      let w := notify (Warn_no_database (masterdb (cfg w))) w in
      '(r, w) ← hbm_write_masterdb w;
      if r =? 0 then Ok (0, w) (* fatal error *) else Ok (1, w)
  | inr _ => Ok (0, notify (Warn_master_open_failed (masterdb (cfg w))) w)
  | inl db =>
      let w := set_cfg (set_hashes None None (cfg w)) w in
      let read_error := notify (Error_master_read (masterdb (cfg w))) in
      match unrealdb_read_int32 db with
      | None => Ok (0, read_error w)
      | Some (mdb_version, db) =>
          match unrealdb_read_str db with
          | None => Ok (0, read_error w)
          | Some (pre, db) =>
              let w := set_cfg (set_hashes pre None (cfg w)) w in
              match unrealdb_read_str db with
              | None => Ok (0, read_error w)
              | Some (post, db) =>
                  Ok (1, set_cfg (set_hashes pre post (cfg w)) w)
              end
          end
      end
  end.

(** Post-configuration test on set::history::channel: the return value,
    [*errs], and the world. *)
Definition hbm_config_posttest (w : world) : outcome (Z * Z * world) :=
  let t := test w in
  '(errors, w) ←
    (if bool_decide (is_Some (db_secret t)) && negb (persist t) then
       Ok (1, notify Error_secret_without_persist w)
     else if negb (bool_decide (is_Some (db_secret t))) && persist t then
       Ok (1, notify Error_persist_without_secret w)
     else if bool_decide (is_Some (db_secret t)) && persist t then
       (* Configuration is good, now check if the password is correct *)
       match masterdb t ≫= (fun m => unrealdb_test_db (disk w) m (db_secret t)) with
       | Some errstr => Ok (1, notify (Error_test_db errstr) w)
       | None =>
           (* Ensure directory exists and is writable *)
           let w :=
             match directory t with
             | Some d => set_disk (mkdir d (disk w)) w
             | None => w
             end in
           if negb (match directory t with
                    | Some d => file_exists d (disk w)
                    | None => false
                    end)
           then Ok (1, notify (Error_no_directory (directory t)) w)
           else
             '(r, w) ← hbm_read_masterdb w;
             Ok (if r =? 0 then 1 else 0, w)
       end
     else Ok (0, w));
  let w := set_test (setcfg (freecfg (test w))) w in
  Ok (if errors =? 0 then 1 else -1, errors, w).

(** *** The configuration hooks *)

Definition set_persist (v : bool) (c : cfgstruct) : cfgstruct :=
  {| persist := v; directory := directory c; masterdb := masterdb c;
     db_secret := db_secret c; prehash := prehash c; posthash := posthash c |}.

Definition set_directory (v : option string) (c : cfgstruct) : cfgstruct :=
  {| persist := persist c; directory := v; masterdb := masterdb c;
     db_secret := db_secret c; prehash := prehash c; posthash := posthash c |}.

Definition set_db_secret (v : option string) (c : cfgstruct) : cfgstruct :=
  {| persist := persist c; directory := directory c; masterdb := masterdb c;
     db_secret := v; prehash := prehash c; posthash := posthash c |}.

(** Test the set::history::channel configuration: the return value, [*errs]
    afterwards ([errs] is its value before; it is written only when the
    entry is one of ours), the errors reported, and the world.  [None] is
    a NULL [ce]. *)
Definition hbm_config_test (host : config_host) (type : Z)
  (ce : option ConfigEntry) (errs : Z) (w : world)
  : Z * Z * list config_message * world :=
  if negb (type =? CONFIG_SET_HISTORY_CHANNEL host) then (0, errs, [], w)
  else
    match ce with
    | None => (0, errs, [], w)
    | Some ce =>
        match ce_varname ce with
        | None => (0, errs, [], w)
        | Some name =>
            let missing :=
              (-1, 1, [Missing_parameter (ce_filename ce) (ce_varlinenum ce)],
               w) in
            if strcmp_eq name "persist" then
              match ce_vardata ce with
              | None => missing
              | Some _ =>
                  (1, 0, [],
                   set_test (set_persist
                               (config_checkval_yesno host (ce_vardata ce))
                               (test w)) w)
              end
            else if strcmp_eq name "db-secret" then
              let w' := set_test (set_db_secret (ce_vardata ce) (test w)) w in
              match unrealdb_test_secret host (ce_vardata ce) with
              | Some err =>
                  (-1, 1,
                   [Bad_db_secret (ce_filename ce) (ce_varlinenum ce) err],
                   w')
              | None => (1, 0, [], w')
              end
            else if strcmp_eq name "directory" then
              match ce_vardata ce with
              | None => missing
              | Some d =>
                  (1, 0, [],
                   set_test (hbm_set_masterdb_filename
                               (set_directory (Some d) (test w))) w)
              end
            else (0, errs, [], w) (* unknown option to us *)
        end
    end.

(** Configure ourselves based on the set::history::channel settings.  The
    directory is made absolute; a NULL value is left as it is. *)
Definition hbm_config_run (host : config_host) (type : Z)
  (ce : option ConfigEntry) (w : world) : Z * world :=
  if negb (type =? CONFIG_SET_HISTORY_CHANNEL host) then (0, w)
  else
    match ce with
    | None => (0, w)
    | Some ce =>
        match ce_varname ce with
        | None => (0, w)
        | Some name =>
            if strcmp_eq name "persist" then
              (1, set_cfg (set_persist
                             (config_checkval_yesno host (ce_vardata ce))
                             (cfg w)) w)
            else if strcmp_eq name "directory" then
              (1, set_cfg (hbm_set_masterdb_filename
                             (set_directory
                                (convert_to_absolute_path <$> ce_vardata ce)
                                (cfg w))) w)
            else if strcmp_eq name "db-secret" then
              (1, set_cfg (set_db_secret (ce_vardata ce) (cfg w)) w)
            else (0, w) (* unknown option to us *)
        end
    end.

Definition hbm_rehash (w : world) : Z * world :=
  (0, set_cfg (setcfg (freecfg (cfg w))) w).

Definition hbm_rehash_complete (w : world) : Z * world := (0, w).

(** [history_storage_capability_parameter(client)]: what it leaves in its
    static buffer of 128 bytes. *)
Definition history_storage_capability_parameter (w : world) : string :=
  if persist (cfg w) then strlcpy 128 "memory,disk=encrypted"
  else strlcpy 128 "memory".

(** [MOD_UNLOAD]: both configurations are freed. *)
Definition MOD_UNLOAD (w : world) : world :=
  set_cfg (freecfg (cfg w)) (set_test (freecfg (test w)) w).

(** The entries of a set::history::channel block, as the host feeds them to
    the test hook and, later, to the run hook. *)
Definition config_test_all (host : config_host) (es : list ConfigEntry)
  (w : world) : world :=
  fold_left
    (fun w ce =>
       (hbm_config_test host (CONFIG_SET_HISTORY_CHANNEL host) (Some ce) 0 w).2)
    es w.

Definition config_run_all (host : config_host) (es : list ConfigEntry)
  (w : world) : world :=
  fold_left
    (fun w ce =>
       (hbm_config_run host (CONFIG_SET_HISTORY_CHANNEL host) (Some ce) w).2)
    es w.

(** *** The expiry timer *)

(** The [for] loop over one chain in [history_mem_clean]. *)
Fixpoint clean_chain (now : Z) (chain : list HistoryLogObject) (w : world)
  : outcome (list HistoryLogObject * world) :=
  match chain with
  | [] => Ok ([], w)
  | h :: rest =>
      let h := hbm_history_cleanup now h in
      '(h, w) ←
        (if persist (cfg w) && dirty h then
           '(_, h, w) ← hbm_write_db h w; Ok (h, w)
         else Ok (h, w));
      '(rest, w) ← clean_chain now rest w;
      Ok (h :: rest, w)
  end.

(** The body of the [do] loop: the [for] loop over the chain at [hashnum],
    then [hashnum++] with its wrap. *)
Definition clean_bucket (now : Z) (w : world) : outcome world :=
  let i := Z.to_nat (hashnum w) in
  '(chain, w) ← clean_chain now (chain_of (history_hash_table w) i) w;
  Ok (set_table (<[i := chain]> (history_hash_table w)) w).

Definition next_hashnum (w : world) : world :=
  let w := set_hashnum (hashnum w + 1) w in
  if hashnum w >=? HISTORY_BACKEND_MEM_HASH_TABLE_SIZE
  then set_hashnum 0 w else w.

(** The [do { } while (loopcnt++ < HISTORY_CLEAN_PER_LOOP)] loop.  [swept]
    records the buckets visited so far; it is not part of the C state. *)
Fixpoint clean_loop (fuel : nat) (now : Z) (loopcnt : Z) (swept : list Z)
  (w : world) : outcome (list Z * world) :=
  match fuel with
  | O => Fault OutOfFuel
  | S fuel' =>
      let swept := swept ++ [hashnum w] in
      w ← clean_bucket now w;
      let w := next_hashnum w in
      if loopcnt <? HISTORY_CLEAN_PER_LOOP
      then clean_loop fuel' now (loopcnt + 1) swept w
      else Ok (swept, w)
  end.

(** Periodically clean the history: the buckets swept by this call, and the
    world. *)
Definition history_mem_clean (now : Z) (w : world)
  : outcome (list Z * world) :=
  clean_loop (S (Z.to_nat HISTORY_CLEAN_PER_LOOP)) now 0 [] w.

(** *** Runs of the public operations *)

Inductive op : Type :=
| OpAdd (tv : timeval) (object : string) (mtags : list MessageTag)
    (line : string)
| OpSetLimit (now : Z) (object : string) (max_lines_ max_time_ : Z)
| OpDestroy (object : string)
| OpTick (now : Z).

Definition exec (o : op) (w : world) : outcome (list Z * world) :=
  match o with
  | OpAdd tv object mtags line =>
      '(_, w) ← hbm_history_add tv object mtags line w; Ok ([], w)
  | OpSetLimit now object ml mt =>
      Ok ([], (hbm_history_set_limit now object ml mt w).2)
  | OpDestroy object =>
      '(_, w) ← hbm_history_destroy object w; Ok ([], w)
  | OpTick now => history_mem_clean now w
  end.

(** A run, with the buckets swept by its ticks in order. *)
Fixpoint run (ops : list op) (w : world) : outcome (list Z * world) :=
  match ops with
  | [] => Ok ([], w)
  | o :: ops' =>
      '(s1, w) ← exec o w;
      '(s2, w) ← run ops' w;
      Ok (s1 ++ s2, w)
  end.

(** The state after [MOD_TEST] and [MOD_INIT] on an empty disk. *)
Definition empty_cfg : cfgstruct :=
  {| persist := false; directory := None; masterdb := None;
     db_secret := None; prehash := None; posthash := None |}.

Definition initial_world : world :=
  {| cfg := setcfg empty_cfg; test := setcfg empty_cfg;
     history_hash_table :=
       replicate (Z.to_nat HISTORY_BACKEND_MEM_HASH_TABLE_SIZE) [];
     hashnum := 0; already_loaded := false;
     disk := {| fs_files := ∅; fs_dirs := ∅ |};
     notices := []; rng := 0 |}.


(** *** Invariants of the store *)

(** A line carries a "time" tag and its [t] is that tag's value converted,
    as [hbm_duplicate_mtags] leaves it. *)
Definition line_timed (l : HistoryLogLine) : Prop :=
  exists n, find_mtag (hl_mtags l) "time" = Some n
            /\ hl_t l = server_time_to_unix_time (mt_value n).

Definition lines_timed (h : HistoryLogObject) : Prop :=
  Forall line_timed (h_lines h).

(** [num_lines] is the number of lines linked between head and tail. *)
Definition counted (h : HistoryLogObject) : Prop :=
  num_lines h = Z.of_nat (length (h_lines h)).

Definition within_limit (h : HistoryLogObject) : Prop :=
  num_lines h <= max_lines h.

Definition all_logs (P : HistoryLogObject -> Prop)
  (tbl : list (list HistoryLogObject)) : Prop :=
  Forall (Forall P) tbl.

Definition table_sized (tbl : list (list HistoryLogObject)) : Prop :=
  length tbl = Z.to_nat HISTORY_BACKEND_MEM_HASH_TABLE_SIZE.

(** Every object sits in the chain its name hashes to. *)
Definition hashed_in_place (tbl : list (list HistoryLogObject)) : Prop :=
  forall i chain h, tbl !! i = Some chain -> h ∈ chain ->
    hbm_hash (h_name h) = i.

(** The hash does not see the case of letters. *)
Definition nocase_hash : Prop :=
  forall a b, strtolower a = strtolower b -> siphash_nocase a = siphash_nocase b.

(** The lines of a log that are not older than the red line. *)
Definition age_window (redline : Z) (ls : list HistoryLogLine)
  : list HistoryLogLine :=
  List.filter (fun l => hl_t l >=? redline) ls.

(** A log in good order: counted, within its limit, every line timed. *)
Definition log_ok (h : HistoryLogObject) : Prop :=
  counted h /\ within_limit h /\ lines_timed h.

(** With [persist] on, the secret and the two salts are there (as
    [hbm_config_posttest] and [hbm_read_masterdb] leave them). *)
Definition cfg_ok (c : cfgstruct) : Prop :=
  persist c = true ->
  is_Some (db_secret c) /\ is_Some (prehash c) /\ is_Some (posthash c).

Definition world_ok (w : world) : Prop :=
  table_sized (history_hash_table w)
  /\ all_logs log_ok (history_hash_table w)
  /\ cfg_ok (cfg w)
  /\ 0 <= hashnum w < HISTORY_BACKEND_MEM_HASH_TABLE_SIZE.

(** The buckets visited by [n] rounds of the timer loop from cursor [c]. *)
Definition swept_from (c n : Z) : list Z :=
  (fun j => (c + j) mod HISTORY_BACKEND_MEM_HASH_TABLE_SIZE) <$> seqZ 0 n.

(** The object has a log and its limit has been set. *)
Definition limits_set (w : world) (object : string) : Prop :=
  exists p h, hbm_find_object (history_hash_table w) object = Some (p, h)
              /\ 1 <= max_lines h.

(** What a run asks of each operation: [add] on logs whose limits have been
    set, [set_limit] with a limit of at least one line. *)
Definition op_pre (w : world) (o : op) : Prop :=
  match o with
  | OpAdd _ object _ _ => limits_set w object
  | OpSetLimit _ _ ml _ => 1 <= ml
  | OpDestroy _ => True
  | OpTick _ => True
  end.

Inductive admissible : world -> list op -> Prop :=
| admissible_nil w : admissible w []
| admissible_cons w o ops :
    op_pre w o ->
    (forall s w', exec o w = Ok (s, w') -> admissible w' ops) ->
    admissible w (o :: ops).

Definition is_tick (o : op) : bool :=
  match o with
  | OpTick _ => true
  | _ => false
  end.

(** The lines a sweep by age keeps. *)
Definition kept_by_age (redline : Z) (ls : list HistoryLogLine)
  : list HistoryLogLine :=
  List.filter (fun l => negb (hl_t l <? redline)) ls.

(** The second world differs from the first in the disk and the notices
    only. *)
Definition env_only (w w' : world) : Prop :=
  cfg w' = cfg w /\ test w' = test w
  /\ history_hash_table w' = history_hash_table w
  /\ hashnum w' = hashnum w.

(** *** A sample host and sample data

    Concrete choices for what the host provides, used to run the model on
    explicit inputs. *)

Fixpoint parse_dec (s : string) (acc : Z) : Z :=
  match s with
  | EmptyString => acc
  | String c s' => parse_dec s' (10 * acc + (Z.of_nat (nat_of_ascii c) - 48))
  end.

(** Time tags that hold the seconds in decimal. *)
Definition sample_unix_time (v : option string) : Z :=
  match v with
  | Some s => parse_dec s 0
  | None => 0
  end.

Fixpoint string_sum (s : string) : Z :=
  match s with
  | EmptyString => 0
  | String c s' => Z.of_nat (nat_of_ascii c) + string_sum s'
  end.

Definition sample_siphash (s : string) : Z := string_sum (strtolower s).

Definition sample_gmtime (_ : Z) : tm :=
  {| tm_year := 121; tm_mon := 3; tm_mday := 5;
     tm_hour := 1; tm_min := 2; tm_sec := 3 |}.

Definition sample_tv : timeval := {| tv_sec := 1617584523; tv_usec := 7000 |}.

Definition sample_sha256 (s : string) : string := s.
Definition sample_channels (_ : string) : bool := true.
Definition sample_test_db (_ : filesystem) (_ : string) (_ : option string)
  : option string := None.
Definition sample_mkdir (_ : string) : bool := true.
Definition sample_random (k _ : nat) : string :=
  if Nat.even k then "salt-a" else "salt-b".
Definition sample_abspath (s : string) : string := "/data/" +:+ s.

Definition time_tag (v : string) : MessageTag :=
  {| mt_name := "time"; mt_value := Some v |}.

Definition sample_cfg : cfgstruct :=
  {| persist := true;
     directory := Some "/data/history";
     masterdb := Some "/data/history/master.db";
     db_secret := Some "secret";
     prehash := Some "PRE";
     posthash := Some "POST" |}.

Definition empty_table : list (list HistoryLogObject) :=
  replicate (Z.to_nat HISTORY_BACKEND_MEM_HASH_TABLE_SIZE) [].

(** A per-object file written under another master file. *)
Definition foreign_file : dbfile :=
  {| db_key := Some "secret";
     db_items := [DbInt32 HISTORYDB_MAGIC_FILE_START; DbInt32 5000;
                  DbStr (Some "OLDPRE"); DbStr (Some "OLDPOST");
                  DbStr (Some "#a"); DbInt64 10; DbInt64 3600;
                  DbInt32 HISTORYDB_MAGIC_FILE_END] |}.

Definition foreign_world : world :=
  {| cfg := sample_cfg; test := sample_cfg;
     history_hash_table := empty_table;
     hashnum := 0; already_loaded := false;
     disk := {| fs_files := {[ "/data/history/abc.db" := foreign_file ]};
                fs_dirs := {[ "/data/history" ]} |};
     notices := []; rng := 0 |}.

(** A master file whose version field is 1. *)
Definition old_master_file : dbfile :=
  {| db_key := Some "secret";
     db_items := [DbInt32 1; DbStr (Some "PRE"); DbStr (Some "POST")] |}.

Definition old_master_world : world :=
  {| cfg := {| persist := false; directory := Some "/data/history";
               masterdb := Some "/data/history/master.db";
               db_secret := None; prehash := None; posthash := None |};
     test := {| persist := true; directory := Some "/data/history";
                masterdb := Some "/data/history/master.db";
                db_secret := Some "secret"; prehash := None;
                posthash := None |};
     history_hash_table := empty_table;
     hashnum := 0; already_loaded := false;
     disk := {| fs_files := {[ "/data/history/master.db" := old_master_file ]};
                fs_dirs := {[ "/data/history" ]} |};
     notices := []; rng := 0 |}.

(** A log of three lines, in a world with persistence on. *)
Definition sample_line (t : Z) (stamp text : string) : HistoryLogLine :=
  {| hl_t := t; hl_mtags := [time_tag stamp]; hl_line := text |}.

Definition sample_log : HistoryLogObject :=
  {| h_lines := [sample_line 990 "990" "a"; sample_line 995 "995" "b";
                 sample_line 999 "999" "c"];
     num_lines := 3; oldest_t := 990; max_lines := 10; max_time := 3600;
     dirty := true; h_name := "#a" |}.

(** ["#a"] hashes to bucket 132 under [sample_siphash]. *)
Definition sample_world : world :=
  {| cfg := sample_cfg; test := sample_cfg;
     history_hash_table := <[132%nat := [sample_log]]> empty_table;
     hashnum := 0; already_loaded := true;
     disk := {| fs_files := ∅; fs_dirs := {[ "/data/history" ]} |};
     notices := []; rng := 0 |}.

(** The same object after a restart: its log is empty, limits as before. *)
Definition restart_world : world :=
  {| cfg := sample_cfg; test := sample_cfg;
     history_hash_table :=
       <[132%nat := [set_num_lines 0 (set_lines [] (set_dirty false sample_log))]]>
         empty_table;
     hashnum := 0; already_loaded := false;
     disk := {| fs_files := ∅; fs_dirs := {[ "/data/history" ]} |};
     notices := []; rng := 0 |}.

(** Three lines added to a log limited to two. *)
Definition eviction_ops : list op :=
  [OpSetLimit 200 "#a" 2 3600;
   OpAdd sample_tv "#a" [time_tag "100"] "x1";
   OpAdd sample_tv "#a" [time_tag "101"] "x2";
   OpAdd sample_tv "#a" [time_tag "102"] "x3"].

(** One line, five seconds old at time 1000. *)
Definition one_line_ops : list op :=
  [OpSetLimit 1000 "#a" 10 3600;
   OpAdd sample_tv "#a" [time_tag "995"] "hello"].

(** The second world has the configuration of the first and all its
    notices. *)
Definition extends (w w' : world) : Prop :=
  cfg w' = cfg w /\ (forall n, n ∈ notices w -> n ∈ notices w').

(** What holds of the world a call returns, when it returns. *)
Definition returns_in (Q : world -> Prop) (o : outcome (Z * world)) : Prop :=
  forall r w', o = Ok (r, w') -> Q w'.

(** The paths [hbm_read_dbs] builds for a directory entry. *)
Definition db_path (w : world) (fname : string) : string :=
  strlcpy 512 (cstr (directory (cfg w)) +:+ "/" +:+ fname).

Definition bad_dir (w : world) : string :=
  strlcpy 512 (cstr (directory (cfg w)) +:+ "/bad").

Definition bad_path (w : world) (fname : string) : string :=
  strlcpy 512 (cstr (directory (cfg w)) +:+ "/bad/" +:+ fname).

(** The items [hbm_write_db] writes: for a tag, for a line, for a log. *)
Definition encode_mtag (m : MessageTag) : list dbitem :=
  [DbStr (Some (mt_name m)); DbStr (mt_value m)].

Definition encode_line (l : HistoryLogLine) : list dbitem :=
  DbInt32 HISTORYDB_MAGIC_ENTRY_START :: DbInt64 (hl_t l mod 2 ^ 64)
  :: (hl_mtags l ≫= encode_mtag)
  ++ [DbStr None; DbStr None; DbStr (Some (hl_line l));
      DbInt32 HISTORYDB_MAGIC_ENTRY_END].

Definition encode_log (pre post : option string) (h : HistoryLogObject)
  : list dbitem :=
  [DbInt32 HISTORYDB_MAGIC_FILE_START; DbInt32 5000; DbStr pre; DbStr post;
   DbStr (Some (h_name h)); DbInt64 (max_lines h mod 2 ^ 64);
   DbInt64 (max_time h mod 2 ^ 64)]
  ++ (h_lines h ≫= encode_line) ++ [DbInt32 HISTORYDB_MAGIC_FILE_END].

(** The tags as [hbm_read_db] holds them before [hbm_history_add]. *)
Definition raw_mtags (ms : list MessageTag)
  : list (option string * option string) :=
  (fun m => (Some (mt_name m), mt_value m)) <$> ms.

(** The object belongs in chain [i]. *)
Definition in_place (i : nat) (h : HistoryLogObject) : Prop :=
  hbm_hash (h_name h) = i.

(** The name an operation is about, when it has one, fits [h->name]. *)
Definition op_short (o : op) : Prop :=
  match o with
  | OpAdd _ object _ _ | OpSetLimit _ object _ _ | OpDestroy object =>
      (String.length object <= OBJECTLEN)%nat
  | OpTick _ => True
  end.


(** No two logs of a chain have names that are equal up to the case of
    letters. *)
Definition distinct_names (tbl : list (list HistoryLogObject)) : Prop :=
  forall i chain, tbl !! i = Some chain ->
    NoDup (strtolower <$> (h_name <$> chain)).


(** [o] is the smallest time of the lines [ls], and 0 when there are none. *)
Definition min_of (o : Z) (ls : list HistoryLogLine) : Prop :=
  (ls = [] /\ o = 0)
  \/ (0 < o /\ (exists l, l ∈ ls /\ hl_t l = o)
      /\ Forall (fun l => o <= hl_t l) ls).

(** The cached [oldest_t] is exact. *)
Definition oldest_exact (h : HistoryLogObject) : Prop :=
  min_of (oldest_t h) (h_lines h).

(** The cached [oldest_t] is a lower bound: the times of the lines are
    positive and none is below [oldest_t], which is 0 only for a log
    without lines. *)
Definition oldest_low (h : HistoryLogObject) : Prop :=
  0 <= oldest_t h
  /\ (oldest_t h = 0 -> h_lines h = [])
  /\ Forall (fun l => 0 < hl_t l /\ oldest_t h <= hl_t l) (h_lines h).

(** No line of the log is older than the red line. *)
Definition fresh (redline : Z) (h : HistoryLogObject) : Prop :=
  Forall (fun l => redline <= hl_t l) (h_lines h).

(** The line an [add] stores has a positive time. *)
Definition op_timed (o : op) : Prop :=
  match o with
  | OpAdd tv _ mtags line => 0 < hl_t (new_log_line tv mtags line)
  | _ => True
  end.


(** A counted log whose cached oldest time is a lower bound. *)
Definition log_low (h : HistoryLogObject) : Prop :=
  counted h /\ oldest_low h.

(** The lines of the log the name has, if it has one. *)
Definition lines_of (tbl : list (list HistoryLogObject)) (object : string)
  : list HistoryLogLine :=
  match hbm_find_object tbl object with
  | Some (_, h) => h_lines h
  | None => []
  end.


(** [hbm_write_db] does not save the log: its channel is gone or is not
    [+P]. *)
Definition not_saved (h : HistoryLogObject) : Prop :=
  find_channel (h_name h) && has_channel_mode_P (h_name h) = false.


(** The master file [hbm_write_masterdb] writes for two salts. *)
Definition master_file (sec : option string) (pre post : option string)
  : dbfile :=
  {| db_key := sec; db_items := [DbInt32 5000; DbStr pre; DbStr post] |}.

(** The second world differs from the first in the disk, the notices, the
    two salts and the count of random draws only. *)
Definition salts_only (w w' : world) : Prop :=
  test w' = test w
  /\ history_hash_table w' = history_hash_table w
  /\ hashnum w' = hashnum w
  /\ already_loaded w' = already_loaded w
  /\ persist (cfg w') = persist (cfg w)
  /\ directory (cfg w') = directory (cfg w)
  /\ masterdb (cfg w') = masterdb (cfg w)
  /\ db_secret (cfg w') = db_secret (cfg w).


(** A warning of [hbm_read_db] about the file it reads. *)
Definition warns_about (fname : string) (n : notice) : Prop :=
  match n with
  | Warn_open_failed f | Warn_read_error f | Warn_not_ours f
  | Warn_wrong_magic f _ _ | Warn_old_format f _ | Warn_new_format f _ =>
      f = fname
  | _ => False
  end.

(** The second world differs from the first in the table, the disk and the
    notices only. *)
Definition same_control (w w' : world) : Prop :=
  cfg w' = cfg w /\ test w' = test w /\ hashnum w' = hashnum w
  /\ already_loaded w' = already_loaded w /\ rng w' = rng w.

(** What [hbm_read_db] on [fname] can return from [w0]: 0 with the disk
    untouched and a warning about the file as the last notice, or 1 with
    the disk untouched or with the file removed and no log changed. *)
Definition read_result (w0 : world) (fname : string)
  (o : outcome (Z * world)) : Prop :=
  forall r w', o = Ok (r, w') ->
    same_control w0 w'
    /\ (r = 0 /\ disk w' = disk w0
        /\ (exists n, last (notices w') = Some n /\ warns_about fname n)
        \/ r = 1
           /\ (disk w' = disk w0
               \/ disk w' = unlink fname (disk w0)
                  /\ history_hash_table w' = history_hash_table w0)).

(** [hbm_read_dbs] passes the directory entry by: it has no suffix [.db],
    or it is the master file. *)
Definition passed_by (fname : string) : Prop :=
  filename_has_suffix fname ".db" && negb (strcmp_eq fname "master.db") = false.

(** A second log, for a name in the next bucket, beside [sample_log]. *)
Definition sample_log_b : HistoryLogObject :=
  {| h_lines := [sample_line 997 "997" "z"];
     num_lines := 1; oldest_t := 997; max_lines := 5; max_time := 600;
     dirty := false; h_name := "#b" |}.

Definition two_log_world : world :=
  set_table (<[133%nat := [sample_log_b]]> (history_hash_table sample_world))
    sample_world.

(** The file of [sample_log] is on the disk, beside the file of another
    name. *)
Definition saved_file : dbfile :=
  {| db_key := Some "secret";
     db_items := encode_log (Some "PRE") (Some "POST") sample_log |}.

Definition saved_world : world :=
  set_disk {| fs_files := {[ "/data/history/PRE #a POST.db" := saved_file;
                             "/data/history/abc.db" := foreign_file ]};
              fs_dirs := {[ "/data/history" ]} |}
    sample_world.

(** A directory sits where the file of [sample_log] belongs. *)
Definition blocked_world : world :=
  set_disk {| fs_files := ∅;
              fs_dirs := {[ "/data/history";
                            "/data/history/PRE #a POST.db" ]} |}
    sample_world.

(** First boot: the tested configuration has a secret, the disk has no
    master file. *)
Definition first_boot_world : world :=
  set_disk {| fs_files := ∅; fs_dirs := {[ "/data/history" ]} |}
    old_master_world.

(** A file for a channel that has no log. *)
Definition orphan_file : dbfile :=
  {| db_key := Some "secret";
     db_items := [DbInt32 HISTORYDB_MAGIC_FILE_START; DbInt32 5000;
                  DbStr (Some "PRE"); DbStr (Some "POST");
                  DbStr (Some "#gone"); DbInt64 10; DbInt64 3600;
                  DbInt32 HISTORYDB_MAGIC_FILE_END] |}.

Definition orphan_world : world :=
  set_disk {| fs_files := {[ "/data/history/abc.db" := orphan_file ]};
              fs_dirs := {[ "/data/history" ]} |}
    foreign_world.

(** A directory that holds the master file and one file of a log. *)
Definition scan_world : world :=
  set_disk {| fs_files := {[ "/data/history/abc.db" := foreign_file;
                             "/data/history/master.db" := old_master_file ]};
              fs_dirs := {[ "/data/history" ]} |}
    foreign_world.

(** A host whose [config_checkval] takes ["yes"] for true and which accepts
    every secret. *)
Definition sample_config_host : config_host :=
  {| CONFIG_SET_HISTORY_CHANNEL := 12;
     config_checkval_yesno := fun v => bool_decide (v = Some "yes");
     unrealdb_test_secret := fun _ => None |}.

(** A block that gives a secret and nothing else. *)
Definition secret_only_block : list ConfigEntry :=
  [{| ce_varname := Some "db-secret"; ce_vardata := Some "secret";
      ce_filename := "unrealircd.conf"; ce_varlinenum := 7 |}].

(** The difference [lines_sendable - last_lines] of a request fits an
    [int]: it can leave its range only for a negative [last_lines]. *)
Definition skip_fits (now : Z) (h : HistoryLogObject)
  (filter : option HistoryFilter) : Prop :=
  match filter with
  | Some f =>
      last_lines f < 0 ->
      Z.of_nat (length (age_window (request_redline now h filter) (h_lines h)))
      - last_lines f < 2 ^ 31
  | None => True
  end.

(** * Properties *)

(** ** Lines and their copies *)

Lemma duplicate_mtag_id m : duplicate_mtag m = m.
Proof. by destruct m. Qed.

Lemma map_duplicate_mtag ms : map duplicate_mtag ms = ms.
Proof.
  induction ms as [|m ms IH]; [done|].
  simpl. by rewrite duplicate_mtag_id, IH.
Qed.

Lemma new_log_line_timed tv mtags line :
  line_timed (new_log_line tv mtags line).
Proof.
  unfold new_log_line, hbm_duplicate_mtags, line_timed.
  destruct (find_mtag (map duplicate_mtag mtags) "time") as [n|] eqn:E; simpl.
  - exists n. by rewrite E.
  - eexists. split; [reflexivity|done].
Qed.

Lemma new_log_line_same tv l :
  line_timed l -> new_log_line tv (hl_mtags l) (hl_line l) = l.
Proof.
  intros (n & Hn & Ht).
  unfold new_log_line, hbm_duplicate_mtags.
  rewrite map_duplicate_mtag, Hn. destruct l; simpl in *. by rewrite Ht.
Qed.

Lemma duplicate_log_line_same tv l :
  line_timed l -> duplicate_log_line tv l = l.
Proof. apply new_log_line_same. Qed.

Lemma map_duplicate_log_line tv ls :
  Forall line_timed ls -> map (duplicate_log_line tv) ls = ls.
Proof.
  induction 1 as [|l ls Hl _ IH]; [done|].
  simpl. by rewrite duplicate_log_line_same, IH.
Qed.

(** ** The two walks of a request *)

Lemma count_sendable_spec redline ls n :
  count_sendable redline ls n
  = n + Z.of_nat (length (age_window redline ls)).
Proof.
  revert n. induction ls as [|l ls IH]; intros n; simpl.
  - lia.
  - rewrite IH. destruct (hl_t l >=? redline); simpl; lia.
Qed.

Lemma collect_lines_spec tv redline skip ls cnt acc :
  collect_lines tv redline skip ls cnt acc
  = acc ++ map (duplicate_log_line tv)
             (drop (Z.to_nat (skip - cnt)) (age_window redline ls)).
Proof.
  revert cnt acc. induction ls as [|l ls IH]; intros cnt acc; simpl.
  - by rewrite drop_nil, app_nil_r.
  - destruct (hl_t l >=? redline) eqn:E; simpl; [|apply IH].
    destruct (cnt + 1 >? skip) eqn:G; rewrite IH.
    + assert (Z.to_nat (skip - cnt) = 0%nat) as -> by lia.
      assert (Z.to_nat (skip - (cnt + 1)) = 0%nat) as -> by lia.
      simpl. by rewrite <- app_assoc.
    + assert (Z.to_nat (skip - cnt) = S (Z.to_nat (skip - (cnt + 1)))) as ->
        by lia.
      done.
Qed.

Lemma age_window_sublist redline ls : sublist (age_window redline ls) ls.
Proof.
  induction ls as [|l ls IH]; simpl; [constructor|].
  destruct (hl_t l >=? redline); by constructor.
Qed.

Lemma age_window_aged redline ls l :
  l ∈ age_window redline ls -> hl_t l >= redline.
Proof.
  unfold age_window. rewrite list_elem_of_In, filter_In.
  intros [_ H]. lia.
Qed.

Lemma age_window_Forall (P : HistoryLogLine -> Prop) redline ls :
  Forall P ls -> Forall P (age_window redline ls).
Proof.
  induction 1 as [|l ls Hl _ IH]; simpl; [constructor|].
  destruct (hl_t l >=? redline); [by constructor|done].
Qed.

(** What [hbm_history_request] returns for an object that has a log. *)
Lemma int_wrap_id z : - 2 ^ 31 <= z < 2 ^ 31 -> int_wrap z = z.
Proof.
  intros Hz. unfold int_wrap. rewrite Z.mod_small; lia.
Qed.

Lemma hbm_history_request_found w now tv object filter p h :
  hbm_find_object (history_hash_table w) object = Some (p, h) ->
  lines_timed h ->
  skip_fits now h filter ->
  hbm_history_request now tv object filter w
  = Some {| hr_object := object;
            hr_log :=
              let window := age_window (request_redline now h filter) (h_lines h) in
              let skip :=
                match filter with
                | Some f => Z.max 0 (Z.of_nat (length window) - last_lines f)
                | None => 0
                end in
              drop (Z.to_nat skip) window |}.
Proof.
  intros Hf Ht Hfit. unfold hbm_history_request. rewrite Hf.
  rewrite collect_lines_spec, count_sendable_spec. simpl.
  f_equal. f_equal.
  unfold skip_fits in Hfit.
  set (window := age_window _ _) in Hfit |- *.
  rewrite map_duplicate_log_line.
  - f_equal. destruct filter as [f|]; [|done].
    destruct (_ >? _) eqn:G; [|lia].
    destruct (last_lines f <? 0) eqn:G0; [|lia].
    rewrite int_wrap_id; lia.
  - apply Forall_drop, age_window_Forall, Ht.
Qed.


(** C1.  A request that carries both [last_lines = k] (a count, [0 <= k])
    and [last_seconds = s] (given, that is not 0) on an object that has a
    log returns at most [k] entries, each with [t >= now - min(s, max_time)],
    in the order of the log (oldest first); they are the last [k] of the
    lines of the log that pass the age filter. *)
Theorem request_lines_and_seconds (w : world) (now : Z) (tv : timeval)
  (object : string) (k s : Z) (p : hptr) (h : HistoryLogObject) :
  hbm_find_object (history_hash_table w) object = Some (p, h) ->
  lines_timed h ->
  0 <= k ->
  s <> 0 ->
  let redline := now - Z.min s (max_time h) in
  let window := age_window redline (h_lines h) in
  exists r,
    hbm_history_request now tv object
      (Some {| last_lines := k; last_seconds := s |}) w = Some r
    /\ Z.of_nat (length (hr_log r)) <= k
    /\ (forall l, l ∈ hr_log r -> hl_t l >= redline)
    /\ hr_log r `sublist_of` h_lines h
    /\ hr_log r = drop (length window - Z.to_nat k) window.
Proof.
  intros Hf Ht Hk Hs redline window.
  rewrite (hbm_history_request_found _ _ _ _ _ _ _ Hf Ht)
    by (simpl; intros; lia).
  assert (request_redline now h (Some {| last_lines := k; last_seconds := s |})
          = redline) as ->.
  { unfold request_redline, redline. simpl.
    destruct (s =? 0) eqn:E0; [lia|]. simpl.
    destruct (s <? max_time h) eqn:E1; f_equal; lia. }
  fold window.
  eexists. split; [reflexivity|]. cbn [hr_log last_lines].
  assert (Z.to_nat (Z.max 0 (Z.of_nat (length window) - k))
          = (length window - Z.to_nat k)%nat) as -> by lia.
  repeat split.
  - rewrite length_drop. lia.
  - intros l Hl. apply (age_window_aged redline (h_lines h)).
    eapply subseteq_drop, Hl.
  - etrans; [apply sublist_drop|apply age_window_sublist].
Qed.

(** C4, as amended.  Without a filter (a NULL filter) no count limit is
    applied: every line within the age window [t >= now - max_time] is
    returned.  With a filter, [lines_to_skip = max(0, lines_sendable -
    last_lines)] with [last_lines] taken as it is, as long as the
    difference fits an [int] (it does for every [last_lines >= 0]), so
    that a filter whose [last_lines] is 0 returns no line. *)
Theorem request_count_limit (w : world) (now : Z) (tv : timeval)
  (object : string) (p : hptr) (h : HistoryLogObject) :
  hbm_find_object (history_hash_table w) object = Some (p, h) ->
  lines_timed h ->
  hbm_history_request now tv object None w
  = Some {| hr_object := object;
            hr_log := age_window (now - max_time h) (h_lines h) |}
  /\ (forall f,
        let window := age_window (request_redline now h (Some f)) (h_lines h) in
        let lines_sendable := Z.of_nat (length window) in
        let lines_to_skip := Z.max 0 (lines_sendable - last_lines f) in
        (last_lines f < 0 -> lines_sendable - last_lines f < 2 ^ 31) ->
        hbm_history_request now tv object (Some f) w
        = Some {| hr_object := object;
                  hr_log := drop (Z.to_nat lines_to_skip) window |})
  /\ (forall f, last_lines f = 0 ->
        hbm_history_request now tv object (Some f) w
        = Some {| hr_object := object; hr_log := [] |}).
Proof.
  intros Hf Ht. split; [|split].
  - by rewrite (hbm_history_request_found _ _ _ _ _ _ _ Hf Ht).
  - intros f window lines_sendable lines_to_skip Hfit.
    by rewrite (hbm_history_request_found w now tv object (Some f) p h Hf Ht
                  Hfit).
  - intros f H0.
    rewrite (hbm_history_request_found _ _ _ _ _ _ _ Hf Ht)
      by (simpl; intros; lia).
    simpl. rewrite H0. f_equal. f_equal.
    apply drop_ge. lia.
Qed.

(** ** Looking objects up *)

Lemma chain_of_lookup tbl i chain :
  tbl !! i = Some chain -> chain_of tbl i = chain.
Proof. unfold chain_of. by intros ->. Qed.

Lemma hbm_find_object_None tbl object :
  hbm_find_object tbl object = None
  <-> Forall (fun h => ~ same_object object h) (chain_of tbl (hbm_hash object)).
Proof.
  unfold hbm_find_object.
  destruct (list_find _ _) as [[k h]|] eqn:E.
  - split; [done|]. intros H.
    pose proof (proj2 (list_find_None (same_object object) _) H). congruence.
  - split; [|done]. intros _.
    exact (proj1 (list_find_None (same_object object) _) E).
Qed.

Lemma hbm_find_object_Some tbl object p h :
  hbm_find_object tbl object = Some (p, h) ->
  p.1 = hbm_hash object /\ deref tbl p = Some h /\ same_object object h.
Proof.
  unfold hbm_find_object, deref.
  destruct (list_find _ _) as [[k h']|] eqn:E; [|done].
  intros [= <- <-]. apply list_find_Some in E as (? & ? & ?). by simpl.
Qed.

Lemma same_object_hash object h :
  nocase_hash -> same_object object h -> hbm_hash (h_name h) = hbm_hash object.
Proof.
  intros Hn Hs. unfold hbm_hash. f_equal. f_equal. symmetry.
  apply Hn. unfold same_object, strcasecmp_eq in Hs.
  by apply String.eqb_eq in Hs.
Qed.

(** C10.  [request] returns NULL exactly when no chain of the table holds a
    log whose name equals the requested name up to the case of letters.
    When a log exists the result is not NULL, its [object] is the requested
    name, and its list is empty when no line of the log passes the filter. *)
Theorem request_null_iff_no_log (w : world) (now : Z) (tv : timeval)
  (object : string) (filter : option HistoryFilter) :
  nocase_hash ->
  hashed_in_place (history_hash_table w) ->
  (hbm_history_request now tv object filter w = None
   <-> ~ exists i chain h, history_hash_table w !! i = Some chain
                           /\ h ∈ chain
                           /\ strcasecmp_eq object (h_name h) = true)
  /\ (forall p h,
        hbm_find_object (history_hash_table w) object = Some (p, h) ->
        exists r, hbm_history_request now tv object filter w = Some r
                  /\ hr_object r = object
                  /\ (age_window (request_redline now h filter) (h_lines h) = []
                      -> hr_log r = [])).
Proof.
  intros Hn Hp. split.
  - assert (hbm_history_request now tv object filter w = None
            <-> hbm_find_object (history_hash_table w) object = None) as ->.
    { unfold hbm_history_request.
      destruct (hbm_find_object _ _) as [[p h]|]; split; congruence. }
    rewrite hbm_find_object_None, Forall_forall. split.
    + intros Hall (i & chain & h & Hi & Hin & Hs).
      assert (hbm_hash object = i) as Hi'.
      { rewrite <- (same_object_hash object h Hn Hs). by eapply Hp. }
      apply (Hall h); [|exact Hs].
      by rewrite Hi', (chain_of_lookup _ _ _ Hi).
    + intros Hno h Hin Hs. apply Hno.
      unfold chain_of in Hin.
      destruct (history_hash_table w !! hbm_hash object) as [chain|] eqn:E.
      * by exists (hbm_hash object), chain, h.
      * simpl in Hin. by apply not_elem_of_nil in Hin.
  - intros p h Hf. unfold hbm_history_request. rewrite Hf.
    eexists. split; [reflexivity|]. split; [done|]. simpl.
    intros Hw. rewrite collect_lines_spec, Hw. by rewrite drop_nil.
Qed.


(** ** Pointers into the table *)

Lemma hbm_hash_bound object :
  (hbm_hash object < Z.to_nat HISTORY_BACKEND_MEM_HASH_TABLE_SIZE)%nat.
Proof.
  unfold hbm_hash, HISTORY_BACKEND_MEM_HASH_TABLE_SIZE.
  pose proof (Z.mod_pos_bound (siphash_nocase object) 1019). lia.
Qed.

Lemma all_logs_chain P tbl i : all_logs P tbl -> Forall P (chain_of tbl i).
Proof.
  unfold all_logs, chain_of. intros H.
  destruct (tbl !! i) as [chain|] eqn:E; simpl; [|constructor].
  eapply Forall_lookup_1; eauto.
Qed.

Lemma all_logs_deref P tbl p h : all_logs P tbl -> deref tbl p = Some h -> P h.
Proof.
  intros H Hd. unfold deref in Hd.
  eapply Forall_lookup_1; [apply (all_logs_chain P tbl p.1 H)|exact Hd].
Qed.

Lemma all_logs_hstore P tbl p h :
  all_logs P tbl -> P h -> all_logs P (hstore tbl p h).
Proof.
  intros H Hh. unfold hstore.
  apply Forall_insert; [exact H|].
  apply Forall_insert; [by apply all_logs_chain|exact Hh].
Qed.

Lemma deref_hstore tbl p h :
  (p.1 < length tbl)%nat -> is_Some (deref tbl p) ->
  deref (hstore tbl p h) p = Some h.
Proof.
  unfold deref, hstore, chain_of. intros Hlen [h0 H0].
  rewrite list_lookup_insert_eq by done. simpl.
  apply list_lookup_insert_eq. eapply lookup_lt_Some, H0.
Qed.

Lemma length_hstore tbl p h : length (hstore tbl p h) = length tbl.
Proof. unfold hstore. apply length_insert. Qed.

Lemma hbm_find_or_add_object_spec tbl object p h tbl' :
  table_sized tbl ->
  hbm_find_or_add_object tbl object = (p, h, tbl') ->
  table_sized tbl' /\ p.1 = hbm_hash object /\ deref tbl' p = Some h
  /\ (forall P, all_logs P tbl -> P (new_object object) -> all_logs P tbl')
  /\ (hbm_find_object tbl object = Some (p, h) /\ tbl' = tbl
      \/ hbm_find_object tbl object = None /\ h = new_object object).
Proof.
  intros Hs. unfold hbm_find_or_add_object, hbm_find_object.
  destruct (list_find _ _) as [[k h']|] eqn:E; intros [= <- <- <-].
  - apply list_find_Some in E as (Hk & _ & _).
    repeat split; auto.
  - pose proof (hbm_hash_bound object) as Hb. unfold table_sized in Hs.
    repeat split.
    + unfold table_sized. by rewrite length_insert.
    + unfold deref, chain_of. simpl.
      rewrite list_lookup_insert_eq by lia. done.
    + intros P HP Hn. apply Forall_insert; [exact HP|].
      constructor; [exact Hn|by apply all_logs_chain].
    + by right.
Qed.

(** ** Lines added and deleted *)

Lemma hbm_history_add_line_spec tv h mtags line :
  let h' := hbm_history_add_line tv h mtags line in
  h_lines h' = h_lines h ++ [new_log_line tv mtags line]
  /\ num_lines h' = num_lines h + 1
  /\ max_lines h' = max_lines h /\ max_time h' = max_time h
  /\ h_name h' = h_name h /\ dirty h' = true.
Proof.
  unfold hbm_history_add_line. simpl.
  destruct (_ || _); simpl; repeat split.
Qed.

Lemma hbm_history_del_line_spec h done l todo :
  h_lines h = done ++ l :: todo ->
  let h' := hbm_history_del_line h (length done) in
  h_lines h' = done ++ todo
  /\ num_lines h' = num_lines h - 1
  /\ oldest_t h' = oldest_t h
  /\ max_lines h' = max_lines h /\ max_time h' = max_time h
  /\ h_name h' = h_name h.
Proof.
  intros Hl. unfold hbm_history_del_line. simpl.
  rewrite Hl, delete_middle. repeat split.
Qed.

Lemma counted_add_line tv h mtags line :
  counted h -> counted (hbm_history_add_line tv h mtags line).
Proof.
  unfold counted. intros Hc.
  destruct (hbm_history_add_line_spec tv h mtags line) as (-> & -> & _).
  rewrite length_app. simpl. lia.
Qed.

Lemma counted_del_line h done l todo :
  h_lines h = done ++ l :: todo ->
  counted h -> counted (hbm_history_del_line h (length done)).
Proof.
  unfold counted. intros Hl Hc.
  destruct (hbm_history_del_line_spec h done l todo Hl) as (-> & -> & _).
  rewrite Hc, Hl, !length_app. simpl. lia.
Qed.

(** ** Cleaning a log *)

Lemma cleanup_time_loop_spec redline todo : forall h done,
  h_lines h = done ++ todo ->
  counted h ->
  let h' := cleanup_time_loop redline h (length done) todo in
  h_lines h' = done ++ kept_by_age redline todo
  /\ counted h'
  /\ max_lines h' = max_lines h /\ max_time h' = max_time h
  /\ h_name h' = h_name h.
Proof.
  induction todo as [|l todo IH]; intros h done Hl Hc; simpl.
  - rewrite app_nil_r in *. auto.
  - destruct (hl_t l <? redline) eqn:E; simpl.
    + destruct (hbm_history_del_line_spec h done l todo Hl)
        as (Hl' & _ & _ & Hm & Ht & Hn).
      destruct (IH (hbm_history_del_line h (length done)) done Hl'
                  (counted_del_line h done l todo Hl Hc))
        as (-> & ? & -> & -> & ->).
      auto.
    + set (h1 := if (oldest_t h =? 0) || (hl_t l <? oldest_t h)
                 then set_oldest_t (hl_t l) h else h).
      assert (h_lines h1 = h_lines h /\ num_lines h1 = num_lines h
              /\ max_lines h1 = max_lines h /\ max_time h1 = max_time h
              /\ h_name h1 = h_name h) as (E1 & E2 & E3 & E4 & E5).
      { unfold h1. destruct (_ || _); simpl; auto. }
      assert (length (done ++ [l]) = S (length done)) as Hlen
        by (rewrite length_app; simpl; lia).
      rewrite <- Hlen.
      destruct (IH h1 (done ++ [l])) as (-> & ? & -> & -> & ->).
      * rewrite E1, Hl, <- app_assoc. done.
      * unfold counted. by rewrite E1, E2.
      * rewrite <- app_assoc. simpl. auto.
Qed.

Lemma cleanup_lines_loop_idle todo : forall h i,
  num_lines h <= max_lines h ->
  let h' := cleanup_lines_loop h i todo in
  h_lines h' = h_lines h /\ num_lines h' = num_lines h
  /\ max_lines h' = max_lines h /\ max_time h' = max_time h
  /\ h_name h' = h_name h.
Proof.
  induction todo as [|l todo IH]; intros h i Hle; simpl; [auto|].
  destruct (num_lines h >? max_lines h) eqn:E; [lia|].
  set (h1 := if (oldest_t h =? 0) || (hl_t l <? oldest_t h)
             then set_oldest_t (hl_t l) h else h).
  assert (h_lines h1 = h_lines h /\ num_lines h1 = num_lines h
          /\ max_lines h1 = max_lines h /\ max_time h1 = max_time h
          /\ h_name h1 = h_name h) as (E1 & E2 & E3 & E4 & E5).
  { unfold h1. destruct (_ || _); simpl; auto. }
  destruct (IH h1 (S i)) as (-> & -> & -> & -> & ->); [lia|auto].
Qed.

Lemma cleanup_lines_loop_spec todo : forall h done,
  h_lines h = done ++ todo ->
  counted h ->
  let h' := cleanup_lines_loop h (length done) todo in
  (exists kept, h_lines h' = done ++ kept /\ kept `sublist_of` todo)
  /\ counted h'
  /\ max_lines h' = max_lines h /\ max_time h' = max_time h
  /\ h_name h' = h_name h
  /\ (num_lines h' <= max_lines h' \/ h_lines h' = done).
Proof.
  induction todo as [|l todo IH]; intros h done Hl Hc; simpl.
  - rewrite app_nil_r in Hl. repeat split; auto.
    exists []. by rewrite app_nil_r.
  - destruct (num_lines h >? max_lines h) eqn:E.
    + destruct (hbm_history_del_line_spec h done l todo Hl)
        as (Hl' & _ & _ & Hm & Ht & Hn).
      destruct (IH (hbm_history_del_line h (length done)) done Hl'
                  (counted_del_line h done l todo Hl Hc))
        as ((kept & Hk & Hs) & ? & Hm' & Ht' & Hn' & Hd).
      repeat split; auto; try congruence.
      exists kept. split; [done|]. by constructor.
    + pose proof (cleanup_lines_loop_idle (l :: todo) h (length done)) as Hi.
      simpl in Hi. rewrite E in Hi.
      destruct Hi as (E1 & E2 & E3 & E4 & E5); [lia|].
      repeat split; auto.
      * exists (l :: todo). by rewrite E1.
      * unfold counted. by rewrite E1, E2.
      * left. lia.
Qed.

Lemma kept_by_age_sublist redline ls : kept_by_age redline ls `sublist_of` ls.
Proof.
  induction ls as [|l ls IH]; simpl; [constructor|].
  destruct (negb _); by constructor.
Qed.

Lemma counted_nonneg h : counted h -> 0 <= num_lines h.
Proof. unfold counted. lia. Qed.

Lemma sublist_length_Z {A} (k l : list A) :
  k `sublist_of` l -> Z.of_nat (length k) <= Z.of_nat (length l).
Proof. intros H. apply sublist_length in H. lia. Qed.

(** Cleaning keeps a log in good order and puts it within its limits. *)
Lemma hbm_history_cleanup_spec now h :
  counted h ->
  let h' := hbm_history_cleanup now h in
  counted h'
  /\ h_lines h' `sublist_of` h_lines h
  /\ max_lines h' = max_lines h /\ max_time h' = max_time h
  /\ h_name h' = h_name h
  /\ (0 <= max_lines h -> within_limit h').
Proof.
  intros Hc. unfold hbm_history_cleanup.
  set (redline := now - max_time h).
  set (h1 := if oldest_t h <? redline
             then cleanup_time_loop redline (set_oldest_t 0 h) 0
                    (h_lines (set_oldest_t 0 h))
             else h).
  assert (counted h1 /\ h_lines h1 `sublist_of` h_lines h
          /\ max_lines h1 = max_lines h /\ max_time h1 = max_time h
          /\ h_name h1 = h_name h) as (Hc1 & Hs1 & Hm1 & Ht1 & Hn1).
  { unfold h1. destruct (oldest_t h <? redline); [|auto].
    destruct (cleanup_time_loop_spec redline (h_lines h) (set_oldest_t 0 h) [])
      as (E1 & ? & ? & ? & ?); [done|done|].
    simpl in *. rewrite E1. repeat split; auto.
    apply kept_by_age_sublist. }
  simpl.
  destruct (num_lines h1 >? max_lines h1) eqn:E.
  - destruct (cleanup_lines_loop_spec (h_lines h1) (set_oldest_t 0 h1) [])
      as ((kept & Hk & Hs) & Hc2 & ? & ? & ? & Hd); [done|done|].
    simpl in *. repeat split; auto; try congruence.
    + rewrite Hk. by etrans.
    + intros Hm. unfold within_limit. destruct Hd as [Hd|Hd]; [done|].
      unfold counted in Hc2. rewrite Hd in Hc2. simpl in Hc2. lia.
  - repeat split; auto. intros _. unfold within_limit. lia.
Qed.

Lemma log_ok_cleanup now h : log_ok h -> log_ok (hbm_history_cleanup now h).
Proof.
  intros (Hc & Hw & Ht).
  destruct (hbm_history_cleanup_spec now h Hc) as (Hc' & Hs & Hm & _ & _ & Hw').
  split; [done|]. split.
  - apply Hw'. pose proof (counted_nonneg h Hc). unfold within_limit in Hw. lia.
  - unfold lines_timed in *. rewrite Forall_forall in *.
    intros l Hl. apply Ht. eapply sublist_subseteq; eauto.
Qed.


Lemma lines_timed_sublist h h' :
  h_lines h' `sublist_of` h_lines h -> lines_timed h -> lines_timed h'.
Proof.
  unfold lines_timed. rewrite !Forall_forall.
  intros Hs Ht l Hl. apply Ht. eapply sublist_subseteq; eauto.
Qed.

Lemma log_ok_cleanup_limits now h :
  counted h -> lines_timed h -> 0 <= max_lines h ->
  log_ok (hbm_history_cleanup now h).
Proof.
  intros Hc Ht Hm.
  destruct (hbm_history_cleanup_spec now h Hc) as (Hc' & Hs & _ & _ & _ & Hw').
  repeat split; auto. by eapply lines_timed_sublist.
Qed.

(** ** Adding an entry *)

(** The limits after the check for a missing limit. *)
Lemma hbm_history_add_spec tv object mtags line w p h tbl :
  hbm_find_or_add_object (history_hash_table w) object = (p, h, tbl) ->
  counted h ->
  0 <= max_lines h ->
  DEBUGMODE = false \/ max_lines h <> 0 ->
  let h0 := if max_lines h =? 0
            then set_max_time 86400 (set_max_lines 50 h) else h in
  let w0 := if max_lines h =? 0
            then notify (Realops_add_no_limit (h_name h)) w else w in
  let evict := num_lines h0 >=? max_lines h0 in
  exists h',
    hbm_history_add tv object mtags line w
    = Ok (0, set_table (hstore tbl p h') w0)
    /\ h_lines h' = (if evict then tail (h_lines h) else h_lines h)
                     ++ [new_log_line tv mtags line]
    /\ num_lines h' = (if evict then num_lines h - 1 else num_lines h) + 1
    /\ max_lines h' = max_lines h0 /\ max_time h' = max_time h0
    /\ h_name h' = h_name h
    /\ counted h'.
Proof.
  intros Hfa Hc Hm Hd h0 w0 evict.
  unfold hbm_history_add. rewrite Hfa. cbv beta iota zeta.
  assert ((if max_lines h =? 0
           then if DEBUGMODE then Fault Aborted
                else Ok (set_max_time 86400 (set_max_lines 50 h),
                         notify (Realops_add_no_limit (h_name h)) w)
           else Ok (h, w)) = Ok (h0, w0)) as ->.
  { unfold h0, w0. destruct (max_lines h =? 0) eqn:E; [|done].
    destruct Hd as [-> |Hd]; [done|lia]. }
  cbn [mbind outcome_bind].
  assert (h_lines h0 = h_lines h /\ num_lines h0 = num_lines h
          /\ h_name h0 = h_name h /\ 1 <= max_lines h0 \/ h0 = h)
    as Hh0.
  { unfold h0. destruct (max_lines h =? 0); [left; simpl; auto with lia|by right]. }
  assert (h_lines h0 = h_lines h /\ num_lines h0 = num_lines h
          /\ h_name h0 = h_name h) as (E1 & E2 & E3).
  { destruct Hh0 as [(?&?&?&?)| ->]; auto. }
  assert (1 <= max_lines h0) as Hpos.
  { unfold h0. destruct (max_lines h =? 0) eqn:E; simpl; lia. }
  fold evict. destruct evict eqn:Ev.
  - destruct (h_lines h0) as [|l0 ls0] eqn:El.
    { exfalso. unfold evict in Ev. unfold counted in Hc.
      rewrite <- E1 in Hc. simpl in Hc. lia. }
    cbn [mbind outcome_bind].
    eexists. split; [reflexivity|].
    pose proof (hbm_history_del_line_spec h0 [] l0 ls0 El) as HD.
    cbn [length app] in HD. destruct HD as (D1 & D2 & _ & D3 & D4 & D5).
    destruct (hbm_history_add_line_spec tv (hbm_history_del_line h0 0) mtags line)
      as (A1 & A2 & A3 & A4 & A5 & _).
    unfold counted.
    rewrite A1, A2, A3, A4, A5, D1, D2, D3, D4, D5, <- E1, E2, E3.
    simpl. repeat split; auto.
    unfold counted in Hc. rewrite <- E1 in Hc.
    rewrite length_app. simpl in *. lia.
  - cbn [mbind outcome_bind].
    eexists. split; [reflexivity|].
    destruct (hbm_history_add_line_spec tv h0 mtags line)
      as (A1 & A2 & A3 & A4 & A5 & _).
    unfold counted.
    rewrite A1, A2, A3, A4, A5, E1, E2, E3. repeat split; auto.
    unfold counted in Hc. rewrite length_app. simpl. lia.
Qed.


(** C8.  An [add] on a log whose [max_lines] is 0 when it is called: in a
    release build the limits become [max_lines = 50] and [max_time = 86400],
    a warning goes to the operators, and the add goes on and succeeds (it
    returns 0 and the new line is the tail of the log); in a debug build the
    process aborts. *)
Theorem add_without_limit (w : world) (tv : timeval) (object : string)
  (mtags : list MessageTag) (line : string) (p : hptr)
  (h : HistoryLogObject) (tbl : list (list HistoryLogObject)) :
  table_sized (history_hash_table w) ->
  hbm_find_or_add_object (history_hash_table w) object = (p, h, tbl) ->
  counted h ->
  max_lines h = 0 ->
  if DEBUGMODE
  then hbm_history_add tv object mtags line w = Fault Aborted
  else exists w' h',
      hbm_history_add tv object mtags line w = Ok (0, w')
      /\ notices w' = notices w ++ [Realops_add_no_limit (h_name h)]
      /\ deref (history_hash_table w') p = Some h'
      /\ max_lines h' = 50 /\ max_time h' = 86400
      /\ last (h_lines h') = Some (new_log_line tv mtags line).
Proof.
  intros Hs Hfa Hc Hm.
  destruct DEBUGMODE eqn:Dbg.
  - unfold hbm_history_add. rewrite Hfa. cbv beta iota zeta.
    rewrite Hm, Dbg. reflexivity.
  - destruct (hbm_history_add_spec tv object mtags line w p h tbl Hfa Hc)
      as (h' & Hadd & Hl & _ & Hml & Hmt & _); [lia|by left|].
    rewrite Hm in *. simpl in *.
    destruct (hbm_find_or_add_object_spec _ _ _ _ _ Hs Hfa)
      as (Hs' & Hp & Hd & _).
    exists (set_table (hstore tbl p h')
              (notify (Realops_add_no_limit (h_name h)) w)), h'.
    repeat split; auto.
    + simpl. apply deref_hstore; [|by eexists].
      rewrite Hp. unfold table_sized in Hs'. rewrite Hs'.
      apply hbm_hash_bound.
    + rewrite Hl. apply last_snoc.
Qed.

Lemma hbm_find_or_add_object_found tbl object p h :
  hbm_find_object tbl object = Some (p, h) ->
  hbm_find_or_add_object tbl object = (p, h, tbl).
Proof.
  unfold hbm_find_object, hbm_find_or_add_object.
  destruct (list_find _ _) as [[k h']|]; [|done]. by intros [= <- <-].
Qed.

Lemma log_ok_new_object object : log_ok (new_object object).
Proof.
  split; [|split].
  - reflexivity.
  - unfold within_limit. simpl. lia.
  - constructor.
Qed.

Lemma world_ok_store w tbl p h :
  world_ok w ->
  table_sized tbl -> all_logs log_ok tbl -> log_ok h ->
  world_ok (set_table (hstore tbl p h) w).
Proof.
  intros (_ & _ & Hc & Hn) Hs Ha Hh. split; [|split; [|split]]; simpl.
  - unfold table_sized. by rewrite length_hstore.
  - by apply all_logs_hstore.
  - exact Hc.
  - exact Hn.
Qed.

(** ** Each operation keeps the world in good order *)

Lemma hbm_history_add_ok tv object mtags line w :
  world_ok w -> limits_set w object ->
  exists w', hbm_history_add tv object mtags line w = Ok (0, w')
             /\ world_ok w' /\ hashnum w' = hashnum w.
Proof.
  intros Hw (p & h & Hf & Hl).
  pose proof Hw as (Hs & Ha & _).
  pose proof (hbm_find_or_add_object_found _ _ _ _ Hf) as Hfa.
  destruct (hbm_find_object_Some _ _ _ _ Hf) as (_ & Hd & _).
  destruct (all_logs_deref _ _ _ _ Ha Hd) as (Hc & Hwl & Ht).
  destruct (hbm_history_add_spec tv object mtags line w p h _ Hfa Hc)
    as (h' & Hadd & Hl' & Hn' & Hml & _ & _ & Hc'); [lia|right; lia|].
  assert ((max_lines h =? 0) = false) as E0 by lia.
  rewrite E0 in *.
  eexists. split; [exact Hadd|]. split; [|done].
  apply world_ok_store; auto.
  repeat split; auto.
  - unfold within_limit in *. rewrite Hn', Hml.
    destruct (num_lines h >=? max_lines h) eqn:E; lia.
  - unfold lines_timed in *. rewrite Hl'.
    apply Forall_app. split; [|repeat constructor; apply new_log_line_timed].
    destruct (_ >=? _); [|done].
    destruct (h_lines h); [done|]. by inversion Ht.
Qed.

Lemma hbm_history_set_limit_ok now object ml mt w :
  world_ok w -> 0 <= ml ->
  world_ok (hbm_history_set_limit now object ml mt w).2
  /\ hashnum (hbm_history_set_limit now object ml mt w).2 = hashnum w.
Proof.
  intros Hw Hml. pose proof Hw as (Hs & Ha & _).
  unfold hbm_history_set_limit.
  destruct (hbm_find_or_add_object (history_hash_table w) object)
    as [[p h] tbl] eqn:Hfa.
  destruct (hbm_find_or_add_object_spec _ _ _ _ _ Hs Hfa)
    as (Hs' & _ & Hd & Hall & _).
  pose proof (Hall log_ok Ha (log_ok_new_object object)) as Ha'.
  destruct (all_logs_deref _ _ _ _ Ha' Hd) as (Hc & _ & Ht).
  simpl. split; [|done].
  apply world_ok_store; auto.
  apply log_ok_cleanup_limits; auto.
Qed.


Lemma hbm_history_filename_ok h w :
  is_Some (prehash (cfg w)) -> is_Some (posthash (cfg w)) ->
  exists fname, hbm_history_filename h w = Ok fname.
Proof.
  intros [pre Hpre] [post Hpost]. unfold hbm_history_filename.
  rewrite Hpre, Hpost. by eexists.
Qed.

Lemma hbm_history_filename_env h w w' :
  cfg w' = cfg w -> hbm_history_filename h w' = hbm_history_filename h w.
Proof. unfold hbm_history_filename. by intros ->. Qed.

Lemma hbm_delete_db_ok h w :
  cfg_ok (cfg w) -> persist (cfg w) = true ->
  exists w', hbm_delete_db h w = Ok w' /\ env_only w w'.
Proof.
  intros Hc Hp. destruct (Hc Hp) as (_ & Hpre & Hpost).
  unfold hbm_delete_db. rewrite Hp.
  rewrite !bool_decide_eq_true_2 by done. simpl.
  destruct (hbm_history_filename_ok h w Hpre Hpost) as [fname ->].
  simpl. eexists. split; [reflexivity|]. by repeat split.
Qed.

Lemma hbm_history_destroy_ok object w :
  world_ok w ->
  exists r w', hbm_history_destroy object w = Ok (r, w')
               /\ world_ok w' /\ hashnum w' = hashnum w.
Proof.
  intros Hw. pose proof Hw as (Hs & Ha & Hc & Hn).
  unfold hbm_history_destroy.
  destruct (hbm_find_object _ _) as [[p h]|]; [|by eauto].
  unfold hbm_delete_object_hlo.
  assert (exists w1, (if persist (cfg w) then hbm_delete_db h w else Ok w)
                     = Ok w1 /\ env_only w w1) as (w1 & -> & E1 & E2 & E3 & E4).
  { destruct (persist (cfg w)) eqn:Hp.
    - by apply hbm_delete_db_ok.
    - eexists. split; [reflexivity|]. by repeat split. }
  simpl. do 2 eexists. split; [reflexivity|]. simpl.
  split; [|done]. split; [|split; [|split]]; simpl.
  - unfold table_sized. by rewrite length_insert, E3.
  - rewrite E3. apply Forall_insert; [done|].
    apply Forall_delete. by apply all_logs_chain.
  - by rewrite E1.
  - by rewrite E4.
Qed.

(** [hbm_write_db] ends without a fault when the configuration is in good
    order; it changes the disk, the notices and the dirty flag only. *)
Lemma hbm_write_db_ok h w :
  cfg_ok (cfg w) -> persist (cfg w) = true ->
  exists r h' w', hbm_write_db h w = Ok (r, h', w')
                  /\ (h' = h \/ h' = set_dirty false h)
                  /\ env_only w w'.
Proof.
  intros Hc Hp. destruct (Hc Hp) as ([sec Hsec] & Hpre & Hpost).
  unfold hbm_write_db. rewrite Hsec.
  destruct (_ || _).
  { do 3 eexists. split; [reflexivity|]. split; [by left|by repeat split]. }
  destruct (hbm_history_filename_ok h w Hpre Hpost) as [fname ->].
  cbn [mbind outcome_bind].
  destruct (unrealdb_open_write _ _ _) as [[db fs]|].
  2:{ do 3 eexists. split; [reflexivity|]. split; [by left|by repeat split]. }
  destruct (write_db_contents _ _ _) as [db'|].
  2:{ do 3 eexists. split; [reflexivity|]. split; [by left|by repeat split]. }
  destruct (rename _ _ _) as [fs'|].
  - do 3 eexists. split; [reflexivity|]. split; [by right|].
    destruct WIN32; by repeat split.
  - do 3 eexists. split; [reflexivity|]. split; [by left|].
    destruct WIN32; by repeat split.
Qed.

Lemma log_ok_set_dirty b h : log_ok h -> log_ok (set_dirty b h).
Proof. by intros (? & ? & ?). Qed.

Lemma clean_chain_ok now chain : forall w,
  cfg_ok (cfg w) -> Forall log_ok chain ->
  exists chain' w', clean_chain now chain w = Ok (chain', w')
                    /\ Forall log_ok chain' /\ env_only w w'.
Proof.
  induction chain as [|h chain IH]; intros w Hc Hall; simpl.
  - do 2 eexists. split; [reflexivity|]. split; [constructor|by repeat split].
  - inversion Hall as [|? ? Hh Hrest]; subst.
    pose proof (log_ok_cleanup now h Hh) as Hh'.
    set (h1 := hbm_history_cleanup now h) in *.
    assert (exists h2 w1,
              (if persist (cfg w) && dirty h1
               then hbm_write_db h1 w ≫= (fun '(_, h, w) => Ok (h, w))
               else Ok (h1, w)) = Ok (h2, w1)
              /\ log_ok h2 /\ env_only w w1)
      as (h2 & w1 & -> & Hh2 & E1 & E2 & E3 & E4).
    { destruct (persist (cfg w)) eqn:Hp; simpl.
      2:{ do 2 eexists. split; [reflexivity|]. split; [done|by repeat split]. }
      destruct (dirty h1).
      2:{ do 2 eexists. split; [reflexivity|]. split; [done|by repeat split]. }
      destruct (hbm_write_db_ok h1 w Hc Hp) as (r & h' & w' & -> & Hh2 & He).
      simpl. do 2 eexists. split; [reflexivity|]. split; [|done].
      destruct Hh2 as [-> | ->]; [done|by apply log_ok_set_dirty]. }
    cbn [mbind outcome_bind].
    destruct (IH w1) as (chain' & w2 & -> & Hc' & F1 & F2 & F3 & F4);
      [by rewrite E1|done|].
    cbn [mbind outcome_bind].
    do 2 eexists. split; [reflexivity|]. split; [by constructor|].
    repeat split; congruence.
Qed.


(** ** The timer *)

Lemma HISTORY_CLEAN_PER_LOOP_nonneg : 0 <= HISTORY_CLEAN_PER_LOOP.
Proof. unfold HISTORY_CLEAN_PER_LOOP. by destruct DEBUGMODE. Qed.

Lemma swept_from_step c n :
  0 <= c < HISTORY_BACKEND_MEM_HASH_TABLE_SIZE -> 1 <= n ->
  swept_from c n
  = c :: swept_from (if c + 1 >=? HISTORY_BACKEND_MEM_HASH_TABLE_SIZE
                     then 0 else c + 1) (n - 1).
Proof.
  intros Hc Hn. unfold swept_from.
  rewrite seqZ_cons by lia. rewrite fmap_cons.
  rewrite Z.add_0_r, Z.mod_small by done. f_equal.
  replace (Z.succ 0) with (1 + 0) by lia.
  rewrite <- fmap_add_seqZ, <- list_fmap_compose.
  replace (Z.pred n) with (n - 1) by lia.
  apply list_fmap_ext. intros _ j _. simpl.
  unfold HISTORY_BACKEND_MEM_HASH_TABLE_SIZE in *.
  destruct (c + 1 >=? 1019) eqn:E.
  - replace (c + (1 + j)) with (0 + j + 1 * 1019) by lia.
    by rewrite Z_mod_plus_full.
  - f_equal. lia.
Qed.

Lemma swept_from_nil c : swept_from c 0 = [].
Proof. done. Qed.

Lemma elem_of_swept_from b c n :
  b ∈ swept_from c n
  <-> exists j, 0 <= j < n
                /\ b = (c + j) mod HISTORY_BACKEND_MEM_HASH_TABLE_SIZE.
Proof.
  unfold swept_from. rewrite list_elem_of_fmap.
  split.
  - intros (j & -> & Hj). apply elem_of_seqZ in Hj. exists j. split; [lia|done].
  - intros (j & Hj & ->). exists j. split; [done|]. apply elem_of_seqZ. lia.
Qed.

Lemma clean_bucket_ok now w :
  world_ok w ->
  exists w', clean_bucket now w = Ok w' /\ world_ok w'
             /\ hashnum w' = hashnum w.
Proof.
  intros (Hs & Ha & Hc & Hn). unfold clean_bucket.
  destruct (clean_chain_ok now
              (chain_of (history_hash_table w) (Z.to_nat (hashnum w))) w Hc)
    as (chain' & w1 & -> & Hf & E1 & E2 & E3 & E4);
    [by apply all_logs_chain|].
  cbn [mbind outcome_bind]. eexists. split; [reflexivity|].
  split; [|done]. split; [|split; [|split]]; simpl.
  - unfold table_sized. by rewrite length_insert, E3.
  - rewrite E3. by apply Forall_insert.
  - by rewrite E1.
  - by rewrite E4.
Qed.

Lemma next_hashnum_ok w :
  world_ok w ->
  world_ok (next_hashnum w)
  /\ hashnum (next_hashnum w)
     = (if hashnum w + 1 >=? HISTORY_BACKEND_MEM_HASH_TABLE_SIZE
        then 0 else hashnum w + 1).
Proof.
  intros (Hs & Ha & Hc & Hn). unfold next_hashnum. simpl.
  unfold HISTORY_BACKEND_MEM_HASH_TABLE_SIZE in *.
  destruct (hashnum w + 1 >=? 1019) eqn:E; simpl;
    (split; [|done]); (split; [|split; [|split]]); simpl; try done;
    unfold HISTORY_BACKEND_MEM_HASH_TABLE_SIZE; lia.
Qed.

Lemma clean_loop_spec now : forall fuel loopcnt swept w,
  world_ok w ->
  0 <= loopcnt <= HISTORY_CLEAN_PER_LOOP ->
  fuel = S (Z.to_nat (HISTORY_CLEAN_PER_LOOP - loopcnt)) ->
  let n := HISTORY_CLEAN_PER_LOOP - loopcnt + 1 in
  exists w',
    clean_loop fuel now loopcnt swept w
    = Ok (swept ++ swept_from (hashnum w) n, w')
    /\ world_ok w'
    /\ hashnum w' = (hashnum w + n) mod HISTORY_BACKEND_MEM_HASH_TABLE_SIZE.
Proof.
  induction fuel as [|fuel IH]; intros loopcnt swept w Hw Hl Hfuel n; [done|].
  simpl.
  destruct (clean_bucket_ok now w Hw) as (w1 & -> & Hw1 & Hn1).
  cbn [mbind outcome_bind].
  destruct (next_hashnum_ok w1 Hw1) as (Hw2 & Hn2).
  rewrite Hn1 in Hn2.
  pose proof Hw as (_ & _ & _ & Hc).
  rewrite (swept_from_step (hashnum w) n Hc) by (unfold n; lia).
  rewrite <- Hn2.
  destruct (loopcnt <? HISTORY_CLEAN_PER_LOOP) eqn:E.
  - destruct (IH (loopcnt + 1) (swept ++ [hashnum w]) (next_hashnum w1) Hw2)
      as (w' & -> & Hw' & Hn'); [lia|lia|].
    exists w'. split; [|split; [done|]].
    + rewrite <- app_assoc. simpl.
      by replace (n - 1) with (HISTORY_CLEAN_PER_LOOP - (loopcnt + 1) + 1)
        by (unfold n; lia).
    + rewrite Hn', Hn2. unfold HISTORY_BACKEND_MEM_HASH_TABLE_SIZE in *.
      destruct (hashnum w + 1 >=? 1019) eqn:G.
      * replace (hashnum w + n) with
          (0 + (HISTORY_CLEAN_PER_LOOP - (loopcnt + 1) + 1) + 1 * 1019)
          by (unfold n; lia).
        by rewrite Z_mod_plus_full.
      * f_equal. unfold n. lia.
  - exists (next_hashnum w1). split; [|split; [done|]].
    + assert (n - 1 = 0) as -> by (unfold n; lia).
      by rewrite swept_from_nil.
    + rewrite Hn2. unfold HISTORY_BACKEND_MEM_HASH_TABLE_SIZE in *.
      assert (n = 1) as -> by (unfold n; lia).
      destruct (hashnum w + 1 >=? 1019) eqn:G.
      * replace (hashnum w + 1) with (0 + 1 * 1019) by lia.
        by rewrite Z_mod_plus_full.
      * symmetry. apply Z.mod_small. lia.
Qed.

Lemma history_mem_clean_ok now w :
  world_ok w ->
  exists w',
    history_mem_clean now w
    = Ok (swept_from (hashnum w) (HISTORY_CLEAN_PER_LOOP + 1), w')
    /\ world_ok w'
    /\ hashnum w' = (hashnum w + (HISTORY_CLEAN_PER_LOOP + 1))
                     mod HISTORY_BACKEND_MEM_HASH_TABLE_SIZE.
Proof.
  intros Hw. unfold history_mem_clean.
  pose proof HISTORY_CLEAN_PER_LOOP_nonneg.
  destruct (clean_loop_spec now (S (Z.to_nat HISTORY_CLEAN_PER_LOOP)) 0 [] w Hw)
    as (w' & E & Hw' & Hn); [lia|f_equal; f_equal; lia|].
  rewrite Z.sub_0_r in *. by exists w'.
Qed.


(** ** Runs *)

Lemma exec_ok o w :
  world_ok w -> op_pre w o ->
  exists s w',
    exec o w = Ok (s, w') /\ world_ok w'
    /\ (if is_tick o
        then s = swept_from (hashnum w) (HISTORY_CLEAN_PER_LOOP + 1)
             /\ hashnum w' = (hashnum w + (HISTORY_CLEAN_PER_LOOP + 1))
                              mod HISTORY_BACKEND_MEM_HASH_TABLE_SIZE
        else s = [] /\ hashnum w' = hashnum w).
Proof.
  intros Hw Hpre. destruct o as [tv object mtags line|now object ml mt|object|now];
    simpl in *.
  - destruct (hbm_history_add_ok tv object mtags line w Hw Hpre)
      as (w' & -> & Hw' & Hn).
    simpl. by exists [], w'.
  - destruct (hbm_history_set_limit_ok now object ml mt w Hw) as (Hw' & Hn);
      [lia|].
    by eexists [], _.
  - destruct (hbm_history_destroy_ok object w Hw) as (r & w' & -> & Hw' & Hn).
    simpl. by exists [], w'.
  - destruct (history_mem_clean_ok now w Hw) as (w' & -> & Hw' & Hn).
    by eexists _, w'.
Qed.

Lemma world_ok_initial : world_ok initial_world.
Proof.
  split; [|split; [|split]].
  - unfold table_sized, initial_world. cbn [history_hash_table].
    apply length_replicate.
  - unfold all_logs, initial_world. cbn [history_hash_table].
    apply Forall_replicate. constructor.
  - intros H. discriminate H.
  - unfold initial_world, HISTORY_BACKEND_MEM_HASH_TABLE_SIZE.
    cbn [hashnum]. lia.
Qed.

(** A run of admissible operations ends without a fault in a world in good
    order; its ticks sweep, in order, the buckets that follow the cursor. *)
Lemma run_ok ops : forall w,
  world_ok w -> admissible w ops ->
  let n := Z.of_nat (length (List.filter is_tick ops))
           * (HISTORY_CLEAN_PER_LOOP + 1) in
  exists s w',
    run ops w = Ok (s, w') /\ world_ok w'
    /\ hashnum w' = (hashnum w + n) mod HISTORY_BACKEND_MEM_HASH_TABLE_SIZE
    /\ (forall j, 0 <= j < n ->
          (hashnum w + j) mod HISTORY_BACKEND_MEM_HASH_TABLE_SIZE ∈ s).
Proof.
  induction ops as [|o ops IH]; intros w Hw Hadm n.
  - assert (n = 0) as -> by (unfold n; simpl; lia).
    exists [], w. split; [done|]. split; [done|]. split; [|lia].
    rewrite Z.add_0_r. symmetry. apply Z.mod_small, Hw.
  - inversion Hadm as [|? ? ? Hpre Hnext]; subst.
    destruct (exec_ok o w Hw Hpre) as (s1 & w1 & He & Hw1 & Ht).
    destruct (IH w1 Hw1 (Hnext _ _ He)) as (s2 & w2 & Hr & Hw2 & Hn2 & Hcov).
    exists (s1 ++ s2), w2. simpl. rewrite He. cbn [mbind outcome_bind].
    rewrite Hr. cbn [mbind outcome_bind]. split; [done|]. split; [done|].
    pose proof HISTORY_CLEAN_PER_LOOP_nonneg as Hp.
    set (P := HISTORY_CLEAN_PER_LOOP + 1) in *.
    set (k := Z.of_nat (length (List.filter is_tick ops))) in *.
    destruct (is_tick o) eqn:Eo.
    + destruct Ht as (-> & Hn1).
      assert (n = P + k * P) as -> by (unfold n; simpl; rewrite Eo; simpl; lia).
      split.
      * rewrite Hn2, Hn1, Zplus_mod_idemp_l. f_equal. lia.
      * intros j Hj. apply elem_of_app.
        destruct (Z.lt_ge_cases j P) as [Hlt|Hge].
        -- left. apply elem_of_swept_from. exists j. split; [lia|done].
        -- right. specialize (Hcov (j - P)). rewrite Hn1 in Hcov.
           rewrite Zplus_mod_idemp_l in Hcov.
           replace (hashnum w + P + (j - P)) with (hashnum w + j) in Hcov by lia.
           apply Hcov. lia.
    + destruct Ht as (-> & Hn1).
      assert (n = k * P) as -> by (unfold n; simpl; rewrite Eo; done).
      rewrite Hn1 in *. split; [done|].
      intros j Hj. simpl. by apply Hcov.
Qed.

(** C2.  Along every run of [add] operations on logs whose limits have been
    set ([max_lines >= 1]) interleaved with ticks (and with [set_limit] and
    [destroy]), from a world in good order such as the initial one, the run
    ends without a fault and every log [L] has [num_lines] equal to the
    number of lines linked between its head and its tail, and
    [num_lines <= max_lines]. *)
Theorem lines_counted_and_limited (ops : list op) (w : world) :
  world_ok w ->
  admissible w ops ->
  exists s w',
    run ops w = Ok (s, w')
    /\ all_logs (fun L => num_lines L = Z.of_nat (length (h_lines L))
                          /\ num_lines L <= max_lines L)
         (history_hash_table w').
Proof.
  intros Hw Hadm.
  destruct (run_ok ops w Hw Hadm) as (s & w' & Hr & (_ & Ha & _) & _).
  exists s, w'. split; [done|].
  unfold all_logs in *. eapply Forall_impl; [exact Ha|].
  intros chain Hc. eapply Forall_impl; [exact Hc|].
  by intros L (? & ? & _).
Qed.

(** C9.  With the release constants, the body of the sweep loop runs
    [HISTORY_CLEAN_PER_LOOP + 1] times, which is 17, the ceiling of 1019/60:
    a tick sweeps 17 buckets, those that follow the cursor, and leaves the
    cursor 17 further, modulo 1019; a run that holds 60 ticks (with other
    admissible operations between them) sweeps every bucket of the table. *)
Theorem sweep_covers_table (w : world) :
  DEBUGMODE = false ->
  world_ok w ->
  HISTORY_CLEAN_PER_LOOP + 1
  = (HISTORY_BACKEND_MEM_HASH_TABLE_SIZE + HISTORY_SPREAD - 1) / HISTORY_SPREAD
  /\ (forall now, exists s w',
      history_mem_clean now w = Ok (s, w')
      /\ length s = 17%nat
      /\ s = swept_from (hashnum w) 17
      /\ hashnum w' = (hashnum w + 17) mod 1019)
  /\ (forall ops,
        admissible w ops ->
        length (List.filter is_tick ops) = 60%nat ->
        exists s w',
          run ops w = Ok (s, w')
          /\ forall b, 0 <= b < 1019 -> b ∈ s).
Proof.
  intros Hrel Hw.
  assert (HISTORY_CLEAN_PER_LOOP + 1 = 17) as HP.
  { unfold HISTORY_CLEAN_PER_LOOP. by rewrite Hrel. }
  split; [by rewrite HP|]. split.
  - intros now. destruct (history_mem_clean_ok now w Hw) as (w' & E & _ & Hn).
    rewrite HP in *. exists (swept_from (hashnum w) 17), w'.
    split; [done|]. split; [|by split].
    unfold swept_from. by rewrite length_fmap, length_seqZ.
  - intros ops Hadm Hticks.
    destruct (run_ok ops w Hw Hadm) as (s & w' & Hr & _ & _ & Hcov).
    rewrite Hticks, HP in Hcov.
    exists s, w'. split; [done|]. intros b Hb.
    specialize (Hcov ((b - hashnum w) mod 1019)).
    unfold HISTORY_BACKEND_MEM_HASH_TABLE_SIZE in Hcov.
    rewrite Zplus_mod_idemp_r in Hcov.
    replace (hashnum w + (b - hashnum w)) with b in Hcov by lia.
    rewrite (Z.mod_small b) in Hcov by lia.
    apply Hcov.
    pose proof (Z.mod_pos_bound (b - hashnum w) 1019). lia.
Qed.


(** ** Reading database files: what a read leaves alone *)

Lemma extends_refl w : extends w w.
Proof. by split. Qed.

Lemma extends_trans w1 w2 w3 : extends w1 w2 -> extends w2 w3 -> extends w1 w3.
Proof. intros (E1 & N1) (E2 & N2). split; [congruence|auto]. Qed.

Lemma extends_notify n w : extends w (notify n w).
Proof.
  split; [done|]. intros m Hm. simpl. apply elem_of_app. by left.
Qed.

Lemma extends_set_table tbl w : extends w (set_table tbl w).
Proof. by split. Qed.

Lemma extends_set_disk fs w : extends w (set_disk fs w).
Proof. by split. Qed.

Lemma R_SAFE_post {A} (Q : outcome (Z * world) -> Prop) fname w
  (r : option (A * UnrealDB)) k :
  Q (Ok (0, notify (Warn_read_error fname) w)) ->
  (forall x db, r = Some (x, db) -> Q (k x db)) ->
  Q (R_SAFE fname w r k).
Proof. intros H1 H2. destruct r as [[x db]|]; simpl; auto. Qed.

Lemma read_mtags_loop_post (Q : outcome (Z * world) -> Prop) fname w k :
  Q (Ok (0, notify (Warn_read_error fname) w)) ->
  Q (Fault OutOfFuel) ->
  (forall m db, Q (k m db)) ->
  forall fuel db acc, Q (read_mtags_loop fuel fname w db acc k).
Proof.
  intros H1 H2 H3. induction fuel as [|fuel IH]; intros db acc; simpl; [done|].
  apply R_SAFE_post; [done|]. intros n db1 _.
  apply R_SAFE_post; [done|]. intros v db2 _.
  destruct n, v; auto.
Qed.

Lemma hbm_history_add_extends tv object mtags line w r w' :
  hbm_history_add tv object mtags line w = Ok (r, w') ->
  extends w w' /\ disk w' = disk w.
Proof.
  unfold hbm_history_add.
  destruct (hbm_find_or_add_object _ _) as [[p h] tbl].
  destruct (max_lines h =? 0); [destruct DEBUGMODE; [done|]|];
    cbn [mbind outcome_bind];
    (destruct (_ >=? _); [destruct (h_lines _); [done|]|]);
    cbn [mbind outcome_bind]; intros [= _ <-]; split; try done.
  - eapply extends_trans; [apply extends_notify|apply extends_set_table].
  - eapply extends_trans; [apply extends_notify|apply extends_set_table].
Qed.

Lemma read_entries_loop_extends tv fname object p w0 : forall fuel w db,
  extends w0 w -> disk w = disk w0 ->
  returns_in (fun w' => extends w0 w' /\ disk w' = disk w0)
    (read_entries_loop fuel tv fname object p w db).
Proof.
  induction fuel as [|fuel IH]; intros w db Hw Hd;
    cbn [read_entries_loop]; [done|].
  assert (forall n, returns_in (fun w' => extends w0 w' /\ disk w' = disk w0)
                      (Ok (0, notify n w))) as Hnote.
  { intros n r w' [= _ <-]. split; [|done].
    eapply extends_trans; [exact Hw|apply extends_notify]. }
  apply R_SAFE_post; [apply Hnote|]. intros magic db1 _.
  destruct (magic =? HISTORYDB_MAGIC_FILE_END).
  { destruct (deref _ _); [|done]. intros r w' [= _ <-]. split; [|done].
    eapply extends_trans; [exact Hw|apply extends_set_table]. }
  destruct (negb _); [apply Hnote|].
  apply R_SAFE_post; [apply Hnote|]. intros ts db2 _.
  apply read_mtags_loop_post; [apply Hnote|done|]. intros m db3.
  apply R_SAFE_post; [apply Hnote|]. intros line db4 _.
  apply R_SAFE_post; [apply Hnote|]. intros magic2 db5 _.
  destruct (negb _); [apply Hnote|].
  destruct (to_mtags m) as [mtags|]; [|by destruct line].
  destruct line as [line|]; [|done].
  destruct (hbm_history_add tv object mtags line w) as [[r1 w1]|] eqn:Ea; [|done].
  destruct (hbm_history_add_extends _ _ _ _ _ _ _ Ea) as (He & Hd1).
  apply IH; [by eapply extends_trans|congruence].
Qed.

(** [hbm_read_db] keeps the configuration and the notices; on the disk it
    does nothing, or unlinks the file it reads. *)
Lemma hbm_read_db_extends tv fname w :
  returns_in (fun w' => extends w w'
                        /\ (disk w' = disk w
                            \/ disk w' = unlink fname (disk w)))
    (hbm_read_db tv fname w).
Proof.
  unfold hbm_read_db.
  assert (forall n, returns_in (fun w' => extends w w'
                        /\ (disk w' = disk w
                            \/ disk w' = unlink fname (disk w)))
                      (Ok (0, notify n w))) as Hnote.
  { intros n r w' [= _ <-]. split; [apply extends_notify|by left]. }
  destruct (unrealdb_open_read _ _ _) as [db|e]; [|apply Hnote].
  apply R_SAFE_post; [apply Hnote|]. intros magic db1 _.
  destruct (negb _); [apply Hnote|].
  apply R_SAFE_post; [apply Hnote|]. intros version db2 _.
  destruct (version <? 4999); [apply Hnote|].
  destruct (version >? 5000); [apply Hnote|].
  apply R_SAFE_post; [apply Hnote|]. intros pre db3 _.
  apply R_SAFE_post; [apply Hnote|]. intros post db4 _.
  destruct pre as [pre|]; [|apply Hnote].
  destruct post as [post|]; [|apply Hnote].
  destruct (prehash (cfg w)) as [cpre|]; [|done].
  destruct (negb _); [apply Hnote|].
  destruct (posthash (cfg w)) as [cpost|]; [|done].
  destruct (negb _); [apply Hnote|].
  apply R_SAFE_post; [apply Hnote|]. intros object db5 _.
  apply R_SAFE_post; [apply Hnote|]. intros ml db6 _.
  apply R_SAFE_post; [apply Hnote|]. intros mt db7 _.
  destruct object as [object|]; [|done].
  destruct (hbm_find_object _ _) as [[p h]|].
  - intros r w' Hr.
    destruct (read_entries_loop_extends tv fname object p w _ w db7
                (extends_refl w) eq_refl r w' Hr) as (He & Hd).
    split; [done|by left].
  - intros r w' [= _ <-]. split; [|by right].
    eapply extends_trans; [apply extends_notify|apply extends_set_disk].
Qed.

(** A file whose salts are not those of the master file: a warning, and
    return value 0; nothing else changes. *)
Lemma hbm_read_db_not_ours tv fname w f version pre post rest cpre cpost :
  fs_files (disk w) !! fname = Some f ->
  db_key f = db_secret (cfg w) ->
  db_items f = DbInt32 HISTORYDB_MAGIC_FILE_START :: DbInt32 version
               :: DbStr pre :: DbStr post :: rest ->
  4999 <= version <= 5000 ->
  prehash (cfg w) = Some cpre -> posthash (cfg w) = Some cpost ->
  pre <> Some cpre \/ post <> Some cpost ->
  hbm_read_db tv fname w = Ok (0, notify (Warn_not_ours fname) w).
Proof.
  intros Hf Hk Hi Hv Hpre Hpost Hne.
  unfold hbm_read_db, unrealdb_open_read. rewrite Hf.
  rewrite decide_True by done.
  unfold R_SAFE, unrealdb_read_int32, unrealdb_read_str. simpl. rewrite Hi.
  simpl.
  assert ((version <? 4999) = false) as -> by lia.
  assert ((version >? 5000) = false) as -> by lia.
  destruct pre as [pre|]; [|done]. destruct post as [post|]; [|done].
  rewrite Hpre, Hpost. unfold strcmp_eq.
  destruct (String.eqb pre cpre) eqn:E1; simpl; [|done].
  destruct (String.eqb post cpost) eqn:E2; simpl; [|done].
  apply String.eqb_eq in E1, E2. subst. by destruct Hne.
Qed.


(** ** Paths and directory entries *)

Lemma string_app_cons c a b : String c a +:+ b = String c (a +:+ b).
Proof. done. Qed.

Lemma string_app_assoc a b c : (a +:+ b) +:+ c = a +:+ (b +:+ c).
Proof.
  induction a as [|x a IH]; [done|].
  by rewrite !string_app_cons, IH.
Qed.

Lemma string_length_app a b :
  String.length (a +:+ b) = (String.length a + String.length b)%nat.
Proof.
  induction a as [|x a IH]; [done|].
  rewrite string_app_cons. simpl. by rewrite IH.
Qed.

Lemma substring_all s : forall m,
  (String.length s <= m)%nat -> substring 0 m s = s.
Proof.
  induction s as [|c s IH]; intros [|m] H; simpl in *; try done; try lia.
  f_equal. apply IH. lia.
Qed.

Lemma strlcpy_short n s : (String.length s < n)%nat -> strlcpy n s = s.
Proof. intros H. unfold strlcpy. apply substring_all. lia. Qed.

Lemma has_slash_app a b : has_slash (a +:+ b) = has_slash a || has_slash b.
Proof.
  induction a as [|c a IH]; [done|].
  rewrite string_app_cons. simpl. by rewrite IH, orb_assoc.
Qed.

Lemma prefix_app pre x : String.prefix pre (pre +:+ x) = true.
Proof.
  induction pre as [|c pre IH]; [by destruct x|].
  rewrite string_app_cons. simpl. by destruct (ascii_dec c c).
Qed.

Lemma substring_app_r pre x m :
  (String.length x <= m)%nat -> substring (String.length pre) m (pre +:+ x) = x.
Proof.
  intros H. induction pre as [|c pre IH]; [by apply substring_all|].
  by rewrite string_app_cons.
Qed.

Lemma prefix_split pre : forall p m,
  String.prefix pre p = true -> (String.length p <= m)%nat ->
  p = pre +:+ substring (String.length pre) m p.
Proof.
  induction pre as [|c pre IH]; intros p m Hp Hm.
  - simpl. by rewrite substring_all.
  - destruct p as [|d p]; [done|]. simpl in Hp.
    destruct (ascii_dec c d) as [->|]; [|done].
    rewrite string_app_cons. simpl. f_equal. apply IH; [done|].
    simpl in Hm. lia.
Qed.

Lemma entry_name_Some dir p n :
  entry_name dir p = Some n -> p = dir +:+ "/" +:+ n /\ has_slash n = false.
Proof.
  unfold entry_name.
  destruct (String.prefix _ _) eqn:E; [|done].
  destruct (has_slash _) eqn:G; [done|]. intros [= <-]. split; [|done].
  rewrite <- string_app_assoc. by apply prefix_split.
Qed.

Lemma entry_name_path dir n :
  has_slash n = false -> entry_name dir (dir +:+ "/" +:+ n) = Some n.
Proof.
  intros H. unfold entry_name.
  rewrite <- string_app_assoc, prefix_app, substring_app_r, H; [done|].
  rewrite string_length_app. lia.
Qed.

Lemma elem_of_readdir dir fs g :
  g ∈ readdir dir fs
  <-> has_slash g = false /\ is_Some (fs_files fs !! (dir +:+ "/" +:+ g)).
Proof.
  unfold readdir. rewrite list_elem_of_omap. split.
  - intros (p & Hp & Hn). apply entry_name_Some in Hn as (-> & Hs).
    split; [done|]. by apply elem_of_dom, elem_of_elements.
  - intros (Hs & Hf). exists (dir +:+ "/" +:+ g). split.
    + by apply elem_of_elements, elem_of_dom.
    + by apply entry_name_path.
Qed.

Lemma NoDup_omap {A B} (f : A -> option B) (l : list A) :
  (forall x y z, f x = Some z -> f y = Some z -> x = y) ->
  NoDup l -> NoDup (omap f l).
Proof.
  intros Hinj. induction 1 as [|x l Hx Hl IH]; simpl; [constructor|].
  destruct (f x) as [z|] eqn:E; [|done].
  constructor; [|done]. rewrite list_elem_of_omap.
  intros (y & Hy & Hfy). by rewrite (Hinj x y z E Hfy) in Hx.
Qed.

Lemma NoDup_readdir dir fs : NoDup (readdir dir fs).
Proof.
  unfold readdir. apply NoDup_omap; [|apply NoDup_elements].
  intros p q n Hp Hq.
  apply entry_name_Some in Hp as (-> & _).
  by apply entry_name_Some in Hq as (-> & _).
Qed.

(** Entries whose paths fit the buffers of [hbm_read_dbs]. *)
Lemma short_paths w dir g :
  directory (cfg w) = Some dir ->
  (String.length (dir +:+ "/bad/" +:+ g) < 512)%nat ->
  db_path w g = dir +:+ "/" +:+ g
  /\ bad_path w g = dir +:+ "/bad/" +:+ g
  /\ bad_dir w = dir +:+ "/bad".
Proof.
  intros Hd Hl. unfold db_path, bad_path, bad_dir. rewrite Hd. simpl.
  rewrite !string_length_app in Hl. simpl in Hl.
  rewrite !strlcpy_short; [done|..]; rewrite !string_length_app; simpl; lia.
Qed.

Lemma paths_apart dir a b :
  has_slash a = false ->
  (dir +:+ "/" +:+ a = dir +:+ "/" +:+ b -> a = b)
  /\ (dir +:+ "/bad/" +:+ a = dir +:+ "/bad/" +:+ b -> a = b)
  /\ dir +:+ "/" +:+ a <> dir +:+ "/bad/" +:+ b
  /\ dir +:+ "/bad/" +:+ b <> dir +:+ "/bad".
Proof.
  intros Ha. repeat split.
  - intros H. by do 2 apply (inj (String.app _)) in H.
  - intros H. by do 2 apply (inj (String.app _)) in H.
  - intros H. apply (inj (String.app _)) in H.
    change ("/bad/" +:+ b) with ("/" +:+ "bad/" +:+ b) in H.
    apply (inj (String.app _)) in H. subst a.
    by rewrite has_slash_app in Ha.
  - intros H. apply (f_equal String.length) in H.
    rewrite !string_length_app in H. simpl in H. lia.
Qed.

Lemma dirname_no_slash s : has_slash s = false -> dirname s = None.
Proof.
  induction s as [|c s IH]; [done|]. simpl.
  destruct (Ascii.eqb c "/"); [done|]. simpl. intros H. by rewrite IH.
Qed.

Lemma dirname_app s t : has_slash t = false -> dirname (s +:+ t) = dirname s.
Proof.
  intros H. induction s as [|c s IH]; [by apply dirname_no_slash|].
  rewrite string_app_cons. simpl. by rewrite IH.
Qed.

Lemma dirname_join d n :
  has_slash n = false -> dirname (d +:+ "/" +:+ n) = Some d.
Proof.
  intros H. induction d as [|c d IH].
  - change ("" +:+ "/" +:+ n) with (String "/" n). cbn [dirname].
    by rewrite (dirname_no_slash n H).
  - rewrite string_app_cons. cbn [dirname]. by rewrite IH.
Qed.

Lemma substring_app_l s : forall n t,
  (String.length s <= n)%nat ->
  substring 0 n (s +:+ t) = s +:+ substring 0 (n - String.length s) t.
Proof.
  induction s as [|c s IH]; intros n t H.
  - simpl. by rewrite Nat.sub_0_r.
  - destruct n as [|n]; simpl in H; [lia|].
    rewrite string_app_cons. simpl. rewrite IH by lia.
    by rewrite string_app_cons.
Qed.

Lemma length_substring s : forall n,
  (String.length (substring 0 n s) <= n)%nat.
Proof.
  induction s as [|c s IH]; intros [|n]; simpl; try lia.
  specialize (IH n). lia.
Qed.

Lemma has_slash_substring s : forall n,
  has_slash s = false -> has_slash (substring 0 n s) = false.
Proof.
  induction s as [|c s IH]; intros [|n] H; simpl in *; try done.
  apply orb_false_elim in H as (-> & H). simpl. by apply IH.
Qed.

(** The temporary file of [hbm_write_db] lies in the directory of the real
    one. *)
Lemma dirname_tmp realfname :
  (String.length realfname <= 511)%nat ->
  dirname (strlcpy 512 (realfname +:+ ".tmp")) = dirname realfname.
Proof.
  intros H. unfold strlcpy. change (512 - 1)%nat with 511%nat.
  rewrite substring_app_l by done.
  apply dirname_app. by apply has_slash_substring.
Qed.

Lemma hbm_history_filename_length h w f :
  hbm_history_filename h w = Ok f -> (String.length f <= 511)%nat.
Proof.
  unfold hbm_history_filename.
  destruct (prehash (cfg w)); [|done]. destruct (posthash (cfg w)); [|done].
  intros [= <-]. apply (length_substring _ 511).
Qed.

Lemma rename_dirs old new fs fs' :
  rename old new fs = Some fs' -> fs_dirs fs' = fs_dirs fs.
Proof.
  unfold rename. destruct (fs_files fs !! old); [|done].
  destruct (decide _); [done|]. destruct (_ || _); [|done].
  by intros [= <-].
Qed.

Lemma mkdir_dirs_mono p fs d : d ∈ fs_dirs fs -> d ∈ fs_dirs (mkdir p fs).
Proof.
  intros H. unfold mkdir. destruct (mkdir_allowed _ && _ && _); [|done].
  simpl. apply elem_of_union. by right.
Qed.

(** After [mkdir] the directory is there when it was there before, or when
    it could be made. *)
Lemma mkdir_ready p fs :
  p ∈ fs_dirs fs
  \/ (mkdir_allowed p = true /\ parent_exists p fs = true
      /\ file_exists p fs = false) ->
  p ∈ fs_dirs (mkdir p fs).
Proof.
  intros [H|(H1 & H2 & H3)]; [by apply mkdir_dirs_mono|].
  unfold mkdir. rewrite H1, H2, H3. simpl.
  apply elem_of_union. left. by apply elem_of_singleton.
Qed.

Lemma parent_exists_listed p d fs :
  dirname p = Some d -> d ∈ fs_dirs fs -> parent_exists p fs = true.
Proof.
  intros Hd Hin. unfold parent_exists. rewrite Hd.
  by rewrite (bool_decide_eq_true_2 _ Hin), orb_true_r.
Qed.


(** ** The directory scan *)

Lemma db_path_cfg w w' g :
  cfg w' = cfg w ->
  db_path w' g = db_path w g /\ bad_path w' g = bad_path w g
  /\ bad_dir w' = bad_dir w.
Proof. unfold db_path, bad_path, bad_dir. by intros ->. Qed.

(** What the scan does for one entry touches the entry's file and its place
    in [bad/] only. *)
Lemma read_dbs_entry_frame tv g w w' :
  read_dbs_entry tv g w = Ok w' ->
  extends w w'
  /\ (forall q, q <> db_path w g -> q <> bad_path w g ->
        fs_files (disk w') !! q = fs_files (disk w) !! q)
  /\ (forall d, d ∈ fs_dirs (disk w') -> d ∈ fs_dirs (disk w) \/ d = bad_dir w).
Proof.
  unfold read_dbs_entry.
  fold (db_path w g) (bad_path w g) (bad_dir w).
  destruct (_ && _); [|intros [= <-]; split; [apply extends_refl|by auto]].
  destruct (hbm_read_db tv (db_path w g) w) as [[r w1]|] eqn:E; [|done].
  cbn [mbind outcome_bind].
  destruct (hbm_read_db_extends tv _ w r w1 E) as (He & Hd).
  assert (forall q, q <> db_path w g ->
            fs_files (disk w1) !! q = fs_files (disk w) !! q) as Hf1.
  { intros q Hq. destruct Hd as [-> | ->]; [done|].
    simpl. by rewrite lookup_delete_ne. }
  assert (fs_dirs (disk w1) = fs_dirs (disk w)) as Hd1.
  { by destruct Hd as [-> | ->]. }
  assert (forall d, d ∈ fs_dirs (mkdir (bad_dir w) (disk w1)) ->
            d ∈ fs_dirs (disk w) \/ d = bad_dir w) as Hd2.
  { intros d. unfold mkdir.
    destruct (mkdir_allowed _ && _ && _); simpl; rewrite Hd1.
    - rewrite elem_of_union, elem_of_singleton. tauto.
    - tauto. }
  assert (fs_files (mkdir (bad_dir w) (disk w1)) = fs_files (disk w1)) as Hf2.
  { unfold mkdir. by destruct (mkdir_allowed _ && _ && _). }
  destruct (r =? 0); [|intros [= <-]; split; [done|]; split; [auto|]].
  2:{ intros d. rewrite Hd1. tauto. }
  unfold rename. cbn [disk set_disk fs_files fs_dirs unlink].
  destruct (delete _ _ !! _) as [f|];
    [destruct (decide _); [|destruct (_ || _)]|]; intros [= <-];
    (split; [by repeat (eapply extends_trans; [|apply extends_set_disk])|]);
    cbn [disk set_disk fs_files fs_dirs]; (split; [|done]); intros q Hq1 Hq2.
  - unfold unlink. cbn [fs_files]. by rewrite lookup_delete_ne, Hf2, Hf1.
  - by rewrite lookup_insert_ne, !lookup_delete_ne, Hf2, Hf1.
  - unfold unlink. cbn [fs_files]. by rewrite lookup_delete_ne, Hf2, Hf1.
  - unfold unlink. cbn [fs_files]. by rewrite lookup_delete_ne, Hf2, Hf1.
Qed.

Lemma read_dbs_loop_app tv l1 l2 w :
  read_dbs_loop tv (l1 ++ l2) w
  = read_dbs_loop tv l1 w ≫= read_dbs_loop tv l2.
Proof.
  revert w. induction l1 as [|g l1 IH]; intros w; simpl; [done|].
  destruct (read_dbs_entry tv g w) as [w1|]; [|done].
  cbn [mbind outcome_bind]. apply IH.
Qed.

Lemma read_dbs_loop_frame tv q : forall entries w w',
  (forall g, g ∈ entries -> q <> db_path w g /\ q <> bad_path w g) ->
  read_dbs_loop tv entries w = Ok w' ->
  extends w w'
  /\ fs_files (disk w') !! q = fs_files (disk w) !! q
  /\ (forall d, d ∈ fs_dirs (disk w') -> d ∈ fs_dirs (disk w) \/ d = bad_dir w).
Proof.
  induction entries as [|g entries IH]; intros w w' Hq; simpl.
  - intros [= <-]. split; [apply extends_refl|by auto].
  - destruct (read_dbs_entry tv g w) as [w1|] eqn:E; [|done].
    cbn [mbind outcome_bind]. intros Hl.
    destruct (read_dbs_entry_frame tv g w w1 E) as (He & Hf & Hd).
    destruct (db_path_cfg w w1 g (proj1 He)) as (_ & _ & Hbd).
    destruct (IH w1 w') as (He' & Hf' & Hd'); [|done|].
    { intros g' Hg'.
      destruct (db_path_cfg w w1 g' (proj1 He)) as (-> & -> & _).
      apply Hq. by right. }
    split; [by eapply extends_trans|]. split.
    + rewrite Hf'. apply Hf; apply Hq; by left.
    + intros d Hin. destruct (Hd' d Hin) as [H|H]; [auto|].
      right. by rewrite <- Hbd.
Qed.

(** The scan removes no directory. *)
Lemma read_dbs_entry_dirs_mono tv g w w' :
  read_dbs_entry tv g w = Ok w' ->
  forall d, d ∈ fs_dirs (disk w) -> d ∈ fs_dirs (disk w').
Proof.
  unfold read_dbs_entry.
  destruct (_ && _); [|by intros [= <-]].
  destruct (hbm_read_db tv _ w) as [[r w1]|] eqn:E; [|done].
  cbn [mbind outcome_bind].
  destruct (hbm_read_db_extends tv _ w r w1 E) as (_ & Hd).
  assert (fs_dirs (disk w1) = fs_dirs (disk w)) as Hd1.
  { by destruct Hd as [-> | ->]. }
  destruct (r =? 0); [|intros [= <-] d; by rewrite Hd1].
  cbn [disk set_disk].
  destruct (rename _ _ _) as [fs|] eqn:Er; intros [= <-] d Hin;
    cbn [disk set_disk].
  - rewrite (rename_dirs _ _ _ _ Er). cbn [unlink fs_dirs].
    apply mkdir_dirs_mono. by rewrite Hd1.
  - cbn [unlink fs_dirs]. apply mkdir_dirs_mono. by rewrite Hd1.
Qed.

Lemma read_dbs_loop_dirs_mono tv : forall entries w w',
  read_dbs_loop tv entries w = Ok w' ->
  forall d, d ∈ fs_dirs (disk w) -> d ∈ fs_dirs (disk w').
Proof.
  induction entries as [|g entries IH]; intros w w'; simpl.
  - by intros [= <-].
  - destruct (read_dbs_entry tv g w) as [w1|] eqn:E; [|done].
    cbn [mbind outcome_bind]. intros Hl d Hin.
    apply (IH w1 w' Hl). by apply (read_dbs_entry_dirs_mono tv g w w1 E).
Qed.

(** The step of the scan for a file whose salts are not the master's. *)
Lemma read_dbs_entry_not_ours tv name w f version pre post rest cpre cpost :
  filename_has_suffix name ".db" = true ->
  name <> "master.db" ->
  fs_files (disk w) !! db_path w name = Some f ->
  db_key f = db_secret (cfg w) ->
  db_items f = DbInt32 HISTORYDB_MAGIC_FILE_START :: DbInt32 version
               :: DbStr pre :: DbStr post :: rest ->
  4999 <= version <= 5000 ->
  prehash (cfg w) = Some cpre -> posthash (cfg w) = Some cpost ->
  pre <> Some cpre \/ post <> Some cpost ->
  db_path w name <> bad_path w name ->
  bad_path w name <> bad_dir w ->
  bad_path w name ∉ fs_dirs (disk w) ->
  dirname (bad_path w name) = Some (bad_dir w) ->
  bad_dir w ∈ fs_dirs (mkdir (bad_dir w) (disk w)) ->
  exists w',
    read_dbs_entry tv name w = Ok w'
    /\ extends w w'
    /\ history_hash_table w' = history_hash_table w
    /\ notices w' = notices w ++ [Warn_not_ours (db_path w name)]
    /\ fs_files (disk w') !! db_path w name = None
    /\ fs_files (disk w') !! bad_path w name = Some f.
Proof.
  intros Hsuf Hnm Hf Hk Hi Hv Hpre Hpost Hne Hpb Hbd Hnd Hdn Hready.
  unfold read_dbs_entry.
  fold (db_path w name) (bad_path w name) (bad_dir w).
  rewrite Hsuf. unfold strcmp_eq.
  apply String.eqb_neq in Hnm. rewrite Hnm. simpl.
  rewrite (hbm_read_db_not_ours tv _ w f version pre post rest cpre cpost)
    by done.
  cbn [mbind outcome_bind]. simpl.
  unfold rename. cbn [disk set_disk fs_files fs_dirs unlink notify].
  assert (fs_files (mkdir (bad_dir w) (disk w)) = fs_files (disk w)) as Hf2.
  { unfold mkdir. by destruct (mkdir_allowed _ && _ && _). }
  assert (bad_path w name ∉ fs_dirs (mkdir (bad_dir w) (disk w))) as Hnd2.
  { unfold mkdir. destruct (mkdir_allowed _ && _ && _); simpl; [|done].
    rewrite elem_of_union, elem_of_singleton. tauto. }
  rewrite lookup_delete_ne, Hf2, Hf by done.
  rewrite decide_False by done.
  rewrite (parent_exists_listed (bad_path w name) (bad_dir w)) by done.
  rewrite orb_true_r.
  eexists. split; [reflexivity|]. simpl.
  split; [|split; [done|split; [done|split]]].
  - split; [done|]. intros n Hn. simpl. apply elem_of_app. by left.
  - by rewrite lookup_insert_ne, lookup_delete_eq.
  - by rewrite lookup_insert_eq.
Qed.


Lemma entries_apart w dir name g :
  directory (cfg w) = Some dir ->
  (String.length (dir +:+ "/bad/" +:+ g) < 512)%nat ->
  has_slash name = false -> has_slash g = false -> g <> name ->
  (dir +:+ "/" +:+ name <> db_path w g
   /\ dir +:+ "/" +:+ name <> bad_path w g)
  /\ (dir +:+ "/bad/" +:+ name <> db_path w g
      /\ dir +:+ "/bad/" +:+ name <> bad_path w g).
Proof.
  intros Hd Hg Hsn Hsg Hne.
  destruct (short_paths w dir g Hd Hg) as (-> & -> & _).
  destruct (paths_apart dir name g Hsn) as (A1 & A2 & A3 & _).
  destruct (paths_apart dir g name Hsg) as (_ & _ & B3 & _).
  repeat split; auto; intros H; apply Hne; symmetry; auto.
Qed.

(** C6, as amended.  A per-object file whose [prehash] or [posthash] is not
    the master file's is not loaded and not unlinked by the loader, which
    warns and returns 0; the directory scan then moves the file, as it is,
    to [<directory>/bad/<same name>], when that rename is possible
    ([<directory>/bad] is a directory or can be made one, and the place in
    it is not taken by a directory): after the scan nothing is left at its
    original path. *)
Theorem foreign_file_quarantined (tv : timeval) (w : world) (dir name : string)
  (f : dbfile) (version : Z) (pre post : option string) (rest : list dbitem)
  (cpre cpost : string) :
  directory (cfg w) = Some dir ->
  dir ∈ fs_dirs (disk w) ->
  (forall g, g ∈ readdir dir (disk w) ->
     (String.length (dir +:+ "/bad/" +:+ g) < 512)%nat) ->
  filename_has_suffix name ".db" = true ->
  name <> "master.db" ->
  has_slash name = false ->
  fs_files (disk w) !! (dir +:+ "/" +:+ name) = Some f ->
  db_key f = db_secret (cfg w) ->
  db_items f = DbInt32 HISTORYDB_MAGIC_FILE_START :: DbInt32 version
               :: DbStr pre :: DbStr post :: rest ->
  4999 <= version <= 5000 ->
  prehash (cfg w) = Some cpre ->
  posthash (cfg w) = Some cpost ->
  pre <> Some cpre \/ post <> Some cpost ->
  dir +:+ "/bad/" +:+ name ∉ fs_dirs (disk w) ->
  dir +:+ "/bad" ∈ fs_dirs (disk w)
  \/ (mkdir_allowed (dir +:+ "/bad") = true
      /\ file_exists (dir +:+ "/bad") (disk w) = false) ->
  let path := dir +:+ "/" +:+ name in
  let quarantine := dir +:+ "/bad/" +:+ name in
  hbm_read_db tv path w = Ok (0, notify (Warn_not_ours path) w)
  /\ (exists w1,
        read_dbs_entry tv name w = Ok w1
        /\ history_hash_table w1 = history_hash_table w
        /\ fs_files (disk w1) !! path = None
        /\ fs_files (disk w1) !! quarantine = Some f)
  /\ (forall w',
        hbm_read_dbs tv w = Ok w' ->
        Warn_not_ours path ∈ notices w'
        /\ fs_files (disk w') !! path = None
        /\ fs_files (disk w') !! quarantine = Some f).
Proof.
  intros Hdir Hin Hshort Hsuf Hnm Hsl Hf Hk Hi Hv Hpre Hpost Hne Hnd Hbad
    path quarantine.
  assert (name ∈ readdir dir (disk w)) as Hname.
  { apply elem_of_readdir. split; [done|]. by eexists. }
  assert (dirname (dir +:+ "/bad") = Some dir) as Hdn_bad
    by (by apply dirname_join).
  assert (dirname quarantine = Some (dir +:+ "/bad")) as Hdn_q.
  { unfold quarantine.
    change ("/bad/" +:+ name) with ("/bad" +:+ "/" +:+ name).
    rewrite <- string_app_assoc. by apply dirname_join. }
  (* what the step for this entry does, in any world that agrees with [w]
     on the configuration, on the file, and on the quarantine place *)
  assert (forall w0,
            cfg w0 = cfg w ->
            fs_files (disk w0) !! path = Some f ->
            quarantine ∉ fs_dirs (disk w0) ->
            dir +:+ "/bad" ∈ fs_dirs (mkdir (dir +:+ "/bad") (disk w0)) ->
            exists w1,
              read_dbs_entry tv name w0 = Ok w1
              /\ extends w0 w1
              /\ history_hash_table w1 = history_hash_table w0
              /\ notices w1 = notices w0 ++ [Warn_not_ours path]
              /\ fs_files (disk w1) !! path = None
              /\ fs_files (disk w1) !! quarantine = Some f) as Hstep.
  { intros w0 Hc Hf0 Hnd0 Hready0.
    destruct (short_paths w0 dir name) as (Ep & Eq & Eb);
      [by rewrite Hc|by apply Hshort|].
    destruct (paths_apart dir name name Hsl) as (_ & _ & A3 & A4).
    destruct (read_dbs_entry_not_ours tv name w0 f version pre post rest
                cpre cpost) as (w1 & H1 & H2 & H3 & H4 & H5 & H6);
      rewrite ?Ep, ?Eq, ?Eb, ?Hc; auto.
    exists w1. by rewrite Ep, Eq in *. }
  split; [|split].
  - by apply (hbm_read_db_not_ours tv _ w f version pre post rest cpre cpost).
  - destruct (Hstep w eq_refl Hf Hnd) as (w1 & H1 & _ & H3 & _ & H5 & H6).
    { apply mkdir_ready. destruct Hbad as [Hb|(Hb1 & Hb2)]; [by left|].
      right. split; [done|]. split; [|done].
      by apply (parent_exists_listed _ dir). }
    by exists w1.
  - intros w'. unfold hbm_read_dbs. rewrite Hdir, decide_True by done.
    destruct (list_elem_of_split _ _ Hname) as (l1 & l2 & Hl).
    pose proof (NoDup_readdir dir (disk w)) as Hnodup.
    assert (forall g, g ∈ l1 ++ l2 ->
              g <> name /\ has_slash g = false
              /\ (String.length (dir +:+ "/bad/" +:+ g) < 512)%nat)
      as Hothers.
    { rewrite Hl in Hnodup. apply NoDup_app in Hnodup as (N1 & N2 & N3).
      apply NoDup_cons in N3 as (N3 & _).
      intros g Hg.
      assert (g ∈ readdir dir (disk w)) as Hgr.
      { rewrite Hl. rewrite elem_of_app in *. rewrite elem_of_cons. tauto. }
      split; [|split; [by apply elem_of_readdir in Hgr as (? & _)|auto]].
      intros ->. apply elem_of_app in Hg as [Hg|Hg]; [|done].
      apply (N2 name Hg). by left. }
    rewrite Hl, read_dbs_loop_app.
    destruct (read_dbs_loop tv l1 w) as [w0|] eqn:E1; [|done].
    cbn [mbind outcome_bind read_dbs_loop].
    destruct (read_dbs_loop_frame tv path l1 w w0) as ((Hc0 & _) & Hf0 & _);
      [|done|].
    { intros g Hg. destruct (Hothers g) as (G1 & G2 & G3);
        [apply elem_of_app; by left|].
      by apply (entries_apart w dir name g). }
    destruct (read_dbs_loop_frame tv quarantine l1 w w0) as (_ & _ & Hd0);
      [|done|].
    { intros g Hg. destruct (Hothers g) as (G1 & G2 & G3);
        [apply elem_of_app; by left|].
      by apply (entries_apart w dir name g). }
    destruct (Hstep w0 Hc0) as (w1 & -> & (Hc1 & _) & _ & H4 & H5 & H6).
    { by rewrite Hf0. }
    { intros Hq. destruct (Hd0 _ Hq) as [Hq'|Hq']; [done|].
      destruct (short_paths w dir name Hdir (Hshort _ Hname)) as (_ & _ & Eb).
      destruct (paths_apart dir name name Hsl) as (_ & _ & _ & A4).
      by rewrite Eb in Hq'. }
    { pose proof (read_dbs_loop_dirs_mono tv l1 w w0 E1) as Hmono.
      apply mkdir_ready.
      destruct Hbad as [Hb|(Hb1 & Hb2)]; [left; by apply Hmono|].
      destruct (decide (dir +:+ "/bad" ∈ fs_dirs (disk w0))) as [Hb|Hb];
        [by left|].
      right. split; [done|].
      split; [apply (parent_exists_listed _ dir); [done|by apply Hmono]|].
      apply orb_false_elim in Hb2 as (_ & Hb2).
      apply bool_decide_eq_false in Hb2.
      destruct (read_dbs_loop_frame tv (dir +:+ "/bad") l1 w w0)
        as (_ & Hfb & _); [|done|].
      { intros g Hg. destruct (Hothers g) as (G1 & G2 & G3);
          [apply elem_of_app; by left|].
        destruct (short_paths w dir g Hdir G3) as (-> & -> & _).
        destruct (paths_apart dir g g G2) as (_ & _ & _ & A4).
        split; [|by intros Hq; apply A4].
        intros Hq. apply Hb2.
        assert (g ∈ readdir dir (disk w)) as Hgr.
        { rewrite Hl. apply elem_of_app. by left. }
        apply elem_of_readdir in Hgr as (_ & Hgf).
        by rewrite Hq. }
      unfold file_exists. rewrite Hfb.
      rewrite (bool_decide_eq_false_2 _ Hb).
      by rewrite (bool_decide_eq_false_2 _ Hb2). }
    cbn [mbind outcome_bind]. intros E2.
    assert (cfg w1 = cfg w) as Hc1' by congruence.
    assert (directory (cfg w1) = Some dir) as Hdir1 by (by rewrite Hc1').
    destruct (read_dbs_loop_frame tv path l2 w1 w') as ((_ & Hn) & Hf2 & _);
      [|done|].
    { intros g Hg. destruct (Hothers g) as (G1 & G2 & G3);
        [apply elem_of_app; by right|].
      by apply (entries_apart w1 dir name g). }
    destruct (read_dbs_loop_frame tv quarantine l2 w1 w') as (_ & Hq2 & _);
      [|done|].
    { intros g Hg. destruct (Hothers g) as (G1 & G2 & G3);
        [apply elem_of_app; by right|].
      by apply (entries_apart w1 dir name g). }
    split; [|split; congruence].
    apply Hn. rewrite H4. apply elem_of_app. right. by left.
Qed.


(** ** Writing a log *)

Lemma udb_put_items db x : udb_items (udb_put db x) = udb_items db ++ [x].
Proof. done. Qed.

Lemma udb_rest_rest db a b : udb_rest (udb_rest db a) b = udb_rest db b.
Proof. done. Qed.

Lemma write_mtags_spec ms : forall db,
  write_mtags db ms
  = Some (udb_rest db (udb_items db ++ (ms ≫= encode_mtag))).
Proof.
  induction ms as [|m ms IH]; intros db; simpl.
  - rewrite app_nil_r. by destruct db.
  - unfold W_SAFE, unrealdb_write_str. rewrite IH. f_equal.
    unfold udb_put. rewrite udb_rest_rest. simpl.
    by rewrite <- !app_assoc.
Qed.

Lemma write_lines_spec ls : forall db,
  write_lines db ls
  = Some (udb_rest db (udb_items db ++ (ls ≫= encode_line))).
Proof.
  induction ls as [|l ls IH]; intros db; simpl.
  - rewrite app_nil_r. by destruct db.
  - rewrite write_mtags_spec.
    cbn [W_SAFE unrealdb_write_str unrealdb_write_int32]. rewrite IH.
    f_equal. unfold udb_put. rewrite !udb_rest_rest.
    f_equal. cbn [udb_items udb_rest]. unfold encode_line.
    rewrite <- !app_assoc. reflexivity.
Qed.

Lemma write_db_contents_spec db h w :
  write_db_contents db h w
  = Some (udb_rest db (udb_items db
                       ++ encode_log (prehash (cfg w)) (posthash (cfg w)) h)).
Proof.
  unfold write_db_contents.
  cbn [W_SAFE unrealdb_write_str unrealdb_write_int32 unrealdb_write_int64].
  rewrite write_lines_spec. cbn [W_SAFE].
  unfold unrealdb_write_int32, udb_put. rewrite !udb_rest_rest.
  cbn [udb_items udb_rest]. unfold encode_log.
  rewrite <- !app_assoc. reflexivity.
Qed.

(** A flush that finds the channel, and whose two paths are free, leaves
    the encoded log at the file name of the object. *)
Lemma hbm_write_db_spec h w sec realfname :
  db_secret (cfg w) = Some sec ->
  find_channel (h_name h) = true ->
  has_channel_mode_P (h_name h) = true ->
  hbm_history_filename h w = Ok realfname ->
  let tmpfname := strlcpy 512 (realfname +:+ ".tmp") in
  tmpfname <> realfname ->
  tmpfname ∉ fs_dirs (disk w) ->
  realfname ∉ fs_dirs (disk w) ->
  exists w1,
    hbm_write_db h w = Ok (1, set_dirty false h, w1)
    /\ cfg w1 = cfg w
    /\ history_hash_table w1 = history_hash_table w
    /\ fs_files (disk w1) !! realfname
       = Some {| db_key := Some sec;
                 db_items := encode_log (prehash (cfg w)) (posthash (cfg w)) h |}.
Proof.
  intros Hsec Hch Hmode Hname tmpfname Hne Htmp Hreal.
  assert (dirname realfname = dirname tmpfname) as Hdir.
  { symmetry. apply dirname_tmp.
    by apply (hbm_history_filename_length h w). }
  unfold hbm_write_db. rewrite Hsec, Hch, Hmode, Hname. simpl.
  fold tmpfname. unfold unrealdb_open_write.
  rewrite decide_False by done. simpl.
  rewrite write_db_contents_spec. simpl.
  unfold rename.
  destruct WIN32; simpl.
  - rewrite lookup_delete_ne, lookup_insert_eq by done.
    rewrite decide_False by done.
    rewrite (bool_decide_eq_true_2 _ Hdir). simpl.
    eexists. split; [reflexivity|]. simpl. repeat split.
    by rewrite lookup_insert_eq.
  - rewrite lookup_insert_eq.
    rewrite decide_False by done.
    rewrite (bool_decide_eq_true_2 _ Hdir). simpl.
    eexists. split; [reflexivity|]. simpl. repeat split.
    by rewrite lookup_insert_eq.
Qed.


(** ** Reading a log back *)

Lemma list_find_insert_same {A} (P : A -> Prop) `{!forall x, Decision (P x)}
  (l : list A) k x y :
  list_find P l = Some (k, x) -> P y ->
  list_find P (<[k:=y]> l) = Some (k, y).
Proof.
  revert k. induction l as [|z l IH]; intros k Hf Hy; [done|].
  simpl in Hf. destruct (decide (P z)) as [Hz|Hz].
  - injection Hf as <- <-. simpl. by rewrite decide_True.
  - destruct (list_find P l) as [[k' x']|] eqn:E; [|done].
    simpl in Hf. injection Hf as <- <-. simpl.
    rewrite decide_False by done. by rewrite (IH k' eq_refl Hy).
Qed.

Lemma hbm_find_object_hstore tbl object p h h' :
  table_sized tbl ->
  hbm_find_object tbl object = Some (p, h) ->
  h_name h' = h_name h ->
  hbm_find_object (hstore tbl p h') object = Some (p, h').
Proof.
  intros Hs Hf Hn.
  destruct (hbm_find_object_Some _ _ _ _ Hf) as (Hp & _ & Hsame).
  unfold hbm_find_object in *.
  destruct (list_find _ (chain_of tbl _)) as [[k h0]|] eqn:E; [|done].
  injection Hf as <- <-.
  unfold hstore. simpl.
  assert (chain_of (<[hbm_hash object:=<[k:=h']> (chain_of tbl (hbm_hash object))]> tbl)
            (hbm_hash object)
          = <[k:=h']> (chain_of tbl (hbm_hash object))) as ->.
  { unfold chain_of at 1. rewrite list_lookup_insert_eq; [done|].
    unfold table_sized in Hs. rewrite Hs. apply hbm_hash_bound. }
  rewrite (list_find_insert_same _ _ _ _ h' E); [done|].
  unfold same_object in *. by rewrite Hn.
Qed.

Lemma to_mtags_raw ms : to_mtags (raw_mtags ms) = Some ms.
Proof.
  induction ms as [|m ms IH]; [done|].
  unfold raw_mtags in *. rewrite fmap_cons. cbn [to_mtags].
  rewrite IH. by destruct m.
Qed.

Lemma read_mtags_loop_encoded fname w k ms : forall fuel db acc rest,
  udb_items db = (ms ≫= encode_mtag) ++ DbStr None :: DbStr None :: rest ->
  (length ms < fuel)%nat ->
  read_mtags_loop fuel fname w db acc k
  = k (acc ++ raw_mtags ms) (udb_rest db rest).
Proof.
  induction ms as [|m ms IH]; intros fuel db acc rest Hi Hfuel;
    (destruct fuel as [|fuel]; [lia|]); simpl in Hi, Hfuel |- *.
  - unfold R_SAFE, unrealdb_read_str. rewrite Hi. simpl.
    by rewrite app_nil_r.
  - unfold R_SAFE at 1, unrealdb_read_str at 1. rewrite Hi.
    unfold R_SAFE at 1, unrealdb_read_str at 1. simpl.
    rewrite (IH fuel _ _ rest); [|done|lia].
    by rewrite <- app_assoc.
Qed.

Lemma length_encode_lines ls :
  (length ls <= length (ls ≫= encode_line))%nat.
Proof.
  induction ls as [|l ls IH]; [done|].
  change ((l :: ls) ≫= encode_line)
    with (encode_line l ++ (ls ≫= encode_line)).
  rewrite length_app. change (length (l :: ls)) with (S (length ls)).
  assert (1 <= length (encode_line l))%nat
    by (unfold encode_line; simpl; lia).
  lia.
Qed.

Lemma length_encode_mtags ms :
  (length ms <= length (ms ≫= encode_mtag))%nat.
Proof.
  induction ms as [|m ms IH]; [done|].
  change ((m :: ms) ≫= encode_mtag)
    with (encode_mtag m ++ (ms ≫= encode_mtag)).
  rewrite length_app. change (length (m :: ms)) with (S (length ms)).
  assert (1 <= length (encode_mtag m))%nat
    by (unfold encode_mtag; simpl; lia).
  lia.
Qed.


Lemma unrealdb_read_int32_cons db v rest :
  udb_items db = DbInt32 v :: rest ->
  unrealdb_read_int32 db = Some (v, udb_rest db rest).
Proof. unfold unrealdb_read_int32. by intros ->. Qed.

Lemma unrealdb_read_int64_cons db v rest :
  udb_items db = DbInt64 v :: rest ->
  unrealdb_read_int64 db = Some (v, udb_rest db rest).
Proof. unfold unrealdb_read_int64. by intros ->. Qed.

Lemma unrealdb_read_str_cons db v rest :
  udb_items db = DbStr v :: rest ->
  unrealdb_read_str db = Some (v, udb_rest db rest).
Proof. unfold unrealdb_read_str. by intros ->. Qed.

(** Reading the entries [hbm_write_db] wrote appends them, as they were, to
    a log that has room for them. *)
Lemma read_entries_loop_encoded tv fname object p : forall todo fuel w db h,
  udb_items db = (todo ≫= encode_line) ++ [DbInt32 HISTORYDB_MAGIC_FILE_END] ->
  (length todo < fuel)%nat ->
  table_sized (history_hash_table w) ->
  hbm_find_object (history_hash_table w) object = Some (p, h) ->
  counted h ->
  num_lines h + Z.of_nat (length todo) <= max_lines h ->
  Forall line_timed todo ->
  exists w' h',
    read_entries_loop fuel tv fname object p w db = Ok (1, w')
    /\ deref (history_hash_table w') p = Some h'
    /\ h_lines h' = h_lines h ++ todo
    /\ num_lines h' = num_lines h + Z.of_nat (length todo)
    /\ max_lines h' = max_lines h /\ max_time h' = max_time h
    /\ h_name h' = h_name h /\ dirty h' = false
    /\ cfg w' = cfg w /\ disk w' = disk w.
Proof.
  induction todo as [|l todo IH]; intros fuel w db h Hi Hfuel Hs Hf Hc Hroom Ht;
    (destruct fuel as [|fuel]; [simpl in Hfuel; lia|]);
    cbn [read_entries_loop].
  - rewrite (unrealdb_read_int32_cons db _ [] Hi). cbn [R_SAFE].
    rewrite Z.eqb_refl.
    destruct (hbm_find_object_Some _ _ _ _ Hf) as (Hp & Hd & _).
    rewrite Hd. do 2 eexists. split; [reflexivity|].
    cbn [history_hash_table set_table cfg disk].
    split.
    { apply deref_hstore; [|by eexists].
      rewrite Hp. unfold table_sized in Hs. rewrite Hs. apply hbm_hash_bound. }
    simpl. rewrite app_nil_r. repeat split; lia.
  - inversion Ht as [|? ? Hl Ht']; subst.
    assert (udb_items db
            = DbInt32 HISTORYDB_MAGIC_ENTRY_START
              :: DbInt64 (hl_t l mod 2 ^ 64)
              :: (hl_mtags l ≫= encode_mtag)
              ++ DbStr None :: DbStr None :: DbStr (Some (hl_line l))
              :: DbInt32 HISTORYDB_MAGIC_ENTRY_END
              :: ((todo ≫= encode_line)
                  ++ [DbInt32 HISTORYDB_MAGIC_FILE_END])) as Hi'.
    { rewrite Hi.
      change ((l :: todo) ≫= encode_line)
        with (encode_line l ++ (todo ≫= encode_line)).
      unfold encode_line at 1. rewrite <- !app_assoc. simpl.
      by rewrite <- !app_assoc. }
    clear Hi.
    rewrite (unrealdb_read_int32_cons db _ _ Hi'). cbn [R_SAFE].
    change (HISTORYDB_MAGIC_ENTRY_START =? HISTORYDB_MAGIC_FILE_END)
      with false.
    rewrite Z.eqb_refl. cbn [negb].
    rewrite (unrealdb_read_int64_cons (udb_rest db _) _ _ eq_refl).
    cbn [R_SAFE].
    match goal with
    | |- context [read_mtags_loop ?f _ _ ?d _ _] =>
        rewrite (read_mtags_loop_encoded fname w _ (hl_mtags l) f d []
                   (DbStr (Some (hl_line l))
                    :: DbInt32 HISTORYDB_MAGIC_ENTRY_END
                    :: ((todo ≫= encode_line)
                        ++ [DbInt32 HISTORYDB_MAGIC_FILE_END])) eq_refl)
    end.
    2:{ cbn [udb_items udb_rest]. rewrite length_app.
        pose proof (length_encode_mtags (hl_mtags l)). lia. }
    cbv beta. rewrite ?udb_rest_rest.
    rewrite (unrealdb_read_str_cons (udb_rest db _) _ _ eq_refl).
    cbn [R_SAFE]. rewrite udb_rest_rest.
    rewrite (unrealdb_read_int32_cons (udb_rest db _) _ _ eq_refl).
    cbn [R_SAFE]. rewrite udb_rest_rest.
    rewrite Z.eqb_refl. cbn [negb app].
    rewrite to_mtags_raw.
    pose proof (hbm_find_or_add_object_found _ _ _ _ Hf) as Hfa.
    pose proof (counted_nonneg h Hc) as Hnn.
    simpl in Hroom.
    destruct (hbm_history_add_spec tv object (hl_mtags l) (hl_line l) w p h _
                Hfa Hc)
      as (h' & -> & Hl' & Hn' & Hml & Hmt & Hnm & Hc'); [lia|right; lia|].
    assert ((max_lines h =? 0) = false) as E0 by lia.
    assert ((num_lines h >=? max_lines h) = false) as E1 by lia.
    rewrite E0 in *. rewrite E1 in *.
    rewrite (new_log_line_same tv l Hl) in Hl'.
    destruct (IH fuel (set_table (hstore (history_hash_table w) p h') w)
                (udb_rest db ((todo ≫= encode_line)
                              ++ [DbInt32 HISTORYDB_MAGIC_FILE_END])) h')
      as (w' & h'' & -> & Hd & A1 & A2 & A3 & A4 & A5 & A6 & A7 & A8);
      auto.
    + simpl in Hfuel. lia.
    + unfold table_sized. cbn [history_hash_table set_table].
      by rewrite length_hstore.
    + cbn [history_hash_table set_table].
      by apply (hbm_find_object_hstore _ _ _ h).
    + lia.
    + exists w', h''. split; [done|]. split; [done|].
      rewrite A1, A2, A3, A4, A5, Hl', Hn', Hml, Hmt, Hnm, <- app_assoc.
      simpl. repeat split; auto. lia.
Qed.


Ltac read_next :=
  match goal with
  | |- context [unrealdb_read_int32 ?d] =>
      rewrite (unrealdb_read_int32_cons d _ _ eq_refl)
  | |- context [unrealdb_read_int64 ?d] =>
      rewrite (unrealdb_read_int64_cons d _ _ eq_refl)
  | |- context [unrealdb_read_str ?d] =>
      rewrite (unrealdb_read_str_cons d _ _ eq_refl)
  end; cbn [R_SAFE].

Lemma hbm_read_db_encoded tv fname w h p h0 pre post :
  prehash (cfg w) = Some pre ->
  posthash (cfg w) = Some post ->
  fs_files (disk w) !! fname
  = Some {| db_key := db_secret (cfg w);
            db_items := encode_log (Some pre) (Some post) h |} ->
  table_sized (history_hash_table w) ->
  hbm_find_object (history_hash_table w) (h_name h) = Some (p, h0) ->
  counted h0 ->
  num_lines h0 + Z.of_nat (length (h_lines h)) <= max_lines h0 ->
  lines_timed h ->
  exists w' h',
    hbm_read_db tv fname w = Ok (1, w')
    /\ deref (history_hash_table w') p = Some h'
    /\ h_lines h' = h_lines h0 ++ h_lines h
    /\ num_lines h' = num_lines h0 + Z.of_nat (length (h_lines h))
    /\ max_lines h' = max_lines h0 /\ max_time h' = max_time h0
    /\ h_name h' = h_name h0 /\ dirty h' = false
    /\ cfg w' = cfg w /\ disk w' = disk w.
Proof.
  intros Hpre Hpost Hfile Hs Hf Hc Hroom Ht.
  unfold hbm_read_db, unrealdb_open_read. rewrite Hfile.
  cbn [db_key db_items]. rewrite decide_True by done.
  unfold encode_log. cbn [app].
  read_next. rewrite Z.eqb_refl. cbn [negb].
  read_next.
  change (5000 <? 4999) with false. change (5000 >? 5000) with false.
  cbv iota.
  read_next. read_next.
  rewrite Hpre, Hpost. unfold strcmp_eq. rewrite !String.eqb_refl.
  cbn [negb].
  read_next. read_next. read_next.
  rewrite Hf.
  apply read_entries_loop_encoded; auto.
  cbn [udb_items udb_rest]. rewrite length_app.
  pose proof (length_encode_lines (h_lines h)). lia.
Qed.

(** C3.  Round trip.  A log in good order whose object exists in the host
    with the persistence mode is flushed by [hbm_write_db] (the two paths of
    the flush being free); reading the file it produced with [hbm_read_db],
    into a world with the same configuration that holds an empty log of the
    same name with the same limits, succeeds and leaves in that log the same
    name, [max_lines], [max_time], and the same lines in the same order with
    their timestamps, message tags and texts. *)
Theorem write_then_read_roundtrip (tv : timeval) (w : world)
  (h : HistoryLogObject) (sec realfname : string) :
  db_secret (cfg w) = Some sec ->
  find_channel (h_name h) = true ->
  has_channel_mode_P (h_name h) = true ->
  hbm_history_filename h w = Ok realfname ->
  strlcpy 512 (realfname +:+ ".tmp") <> realfname ->
  strlcpy 512 (realfname +:+ ".tmp") ∉ fs_dirs (disk w) ->
  realfname ∉ fs_dirs (disk w) ->
  log_ok h ->
  exists w1,
    hbm_write_db h w = Ok (1, set_dirty false h, w1)
    /\ forall w2 p h0,
         cfg w2 = cfg w ->
         disk w2 = disk w1 ->
         table_sized (history_hash_table w2) ->
         hbm_find_object (history_hash_table w2) (h_name h) = Some (p, h0) ->
         h_name h0 = h_name h ->
         h_lines h0 = [] ->
         num_lines h0 = 0 ->
         max_lines h0 = max_lines h ->
         max_time h0 = max_time h ->
         exists w3 h3,
           hbm_read_db tv realfname w2 = Ok (1, w3)
           /\ deref (history_hash_table w3) p = Some h3
           /\ h_name h3 = h_name h
           /\ max_lines h3 = max_lines h
           /\ max_time h3 = max_time h
           /\ h_lines h3 = h_lines h
           /\ num_lines h3 = num_lines h.
Proof.
  intros Hsec Hch Hmode Hname Hne Htmp Hreal (Hc & Hw & Ht).
  destruct (hbm_write_db_spec h w sec realfname Hsec Hch Hmode Hname Hne
              Htmp Hreal) as (w1 & Hwr & Hc1 & _ & Hfile).
  exists w1. split; [done|].
  intros w2 p h0 Hc2 Hd2 Hs2 Hf2 Hn0 Hl0 Hnum0 Hml0 Hmt0.
  assert (exists pre post, prehash (cfg w) = Some pre
                           /\ posthash (cfg w) = Some post)
    as (pre & post & Hpre & Hpost).
  { unfold hbm_history_filename in Hname.
    destruct (prehash (cfg w)) as [pre|]; [|done].
    destruct (posthash (cfg w)) as [post|]; [|done]. by eauto. }
  assert (fs_files (disk w2) !! realfname
          = Some {| db_key := db_secret (cfg w2);
                    db_items := encode_log (Some pre) (Some post) h |})
    as Hfile2.
  { by rewrite Hd2, Hfile, Hc2, Hsec, Hpre, Hpost. }
  assert (counted h0) as Hc0.
  { unfold counted. by rewrite Hnum0, Hl0. }
  assert (num_lines h0 + Z.of_nat (length (h_lines h)) <= max_lines h0)
    as Hroom.
  { rewrite Hnum0, Hml0. unfold counted, within_limit in *. lia. }
  rewrite <- Hc2 in Hpre, Hpost.
  destruct (hbm_read_db_encoded tv realfname w2 h p h0 pre post
              Hpre Hpost Hfile2 Hs2 Hf2 Hc0 Hroom Ht)
    as (w3 & h3 & Hrd & Hd & A1 & A2 & A3 & A4 & A5 & _).
  exists w3, h3. rewrite A1, A2, A3, A4, A5, Hl0, Hnum0.
  repeat split; auto; unfold counted in Hc; lia.
Qed.

(** ** The fuel of the loops is never used up

    The loops of the model that run on fuel are given more fuel than they
    have rounds: [OutOfFuel] is not an outcome of the entry points. *)

Lemma unrealdb_read_int32_length db v db' :
  unrealdb_read_int32 db = Some (v, db') ->
  length (udb_items db) = S (length (udb_items db')).
Proof.
  unfold unrealdb_read_int32.
  destruct (udb_items db) as [|[]]; [done| |done|done]. by intros [= _ <-].
Qed.

Lemma unrealdb_read_int64_length db v db' :
  unrealdb_read_int64 db = Some (v, db') ->
  length (udb_items db) = S (length (udb_items db')).
Proof.
  unfold unrealdb_read_int64.
  destruct (udb_items db) as [|[]]; [done|done| |done]. by intros [= _ <-].
Qed.

Lemma unrealdb_read_str_length db v db' :
  unrealdb_read_str db = Some (v, db') ->
  length (udb_items db) = S (length (udb_items db')).
Proof.
  unfold unrealdb_read_str.
  destruct (udb_items db) as [|[]]; [done|done|done|]. by intros [= _ <-].
Qed.

Lemma read_mtags_loop_fuel fname w k : forall fuel db acc,
  (length (udb_items db) < fuel)%nat ->
  (forall m db', (length (udb_items db') < length (udb_items db))%nat ->
                 k m db' <> Fault OutOfFuel) ->
  read_mtags_loop fuel fname w db acc k <> Fault OutOfFuel.
Proof.
  induction fuel as [|fuel IH]; intros db acc Hfuel Hk; [lia|].
  cbn [read_mtags_loop].
  apply R_SAFE_post; [done|]. intros n db1 H1.
  apply R_SAFE_post; [done|]. intros v db2 H2.
  apply unrealdb_read_str_length in H1, H2.
  assert (read_mtags_loop fuel fname w db2 (acc ++ [(n, v)]) k
          <> Fault OutOfFuel) as Hrec.
  { apply IH; [lia|]. intros m db' Hlt. apply Hk. lia. }
  destruct n, v; try exact Hrec. apply Hk. lia.
Qed.

Lemma nameless_tag_fuel raw :
  nameless_tag raw = NullDeref \/ nameless_tag raw = Nameless.
Proof.
  induction raw as [|[[n|] v] raw IH]; simpl; [by left| |by left].
  destruct (strcmp_eq n "time"); [by right|done].
Qed.

Lemma hbm_history_add_fuel tv object mtags line w :
  hbm_history_add tv object mtags line w <> Fault OutOfFuel.
Proof.
  unfold hbm_history_add.
  destruct (hbm_find_or_add_object _ _) as [[p h] tbl].
  destruct (max_lines h =? 0); [destruct DEBUGMODE; [done|]|];
    cbn [mbind outcome_bind];
    (destruct (_ >=? _); [destruct (h_lines _); [done|]|]); done.
Qed.

Lemma read_entries_loop_fuel tv fname object p : forall fuel w db,
  (length (udb_items db) < fuel)%nat ->
  read_entries_loop fuel tv fname object p w db <> Fault OutOfFuel.
Proof.
  induction fuel as [|fuel IH]; intros w db Hfuel; [lia|].
  cbn [read_entries_loop].
  apply R_SAFE_post; [done|]. intros magic db1 H1.
  apply unrealdb_read_int32_length in H1.
  destruct (magic =? HISTORYDB_MAGIC_FILE_END); [by destruct (deref _ _)|].
  destruct (negb _); [done|].
  apply R_SAFE_post; [done|]. intros ts db2 H2.
  apply unrealdb_read_int64_length in H2.
  apply read_mtags_loop_fuel; [lia|]. intros m db3 H3.
  apply R_SAFE_post; [done|]. intros line db4 H4.
  apply unrealdb_read_str_length in H4.
  apply R_SAFE_post; [done|]. intros magic2 db5 H5.
  apply unrealdb_read_int32_length in H5.
  destruct (negb _); [done|].
  destruct (to_mtags m) as [mtags|];
    [|destruct line; [|done];
      by destruct (nameless_tag_fuel m) as [-> | ->]].
  destruct line as [line|]; [|done].
  pose proof (hbm_history_add_fuel tv object mtags line w) as Hadd.
  destruct (hbm_history_add tv object mtags line w) as [[r1 w1]|f];
    [|congruence].
  apply IH. lia.
Qed.

Lemma hbm_read_db_fuel tv fname w :
  hbm_read_db tv fname w <> Fault OutOfFuel.
Proof.
  unfold hbm_read_db.
  destruct (unrealdb_open_read _ _ _) as [db|e]; [|done].
  apply R_SAFE_post; [done|]. intros magic db1 _.
  destruct (negb _); [done|].
  apply R_SAFE_post; [done|]. intros version db2 _.
  destruct (version <? 4999); [done|].
  destruct (version >? 5000); [done|].
  apply R_SAFE_post; [done|]. intros pre db3 _.
  apply R_SAFE_post; [done|]. intros post db4 _.
  destruct pre as [pre|]; [|done].
  destruct post as [post|]; [|done].
  destruct (prehash (cfg w)) as [cpre|]; [|done].
  destruct (negb _); [done|].
  destruct (posthash (cfg w)) as [cpost|]; [|done].
  destruct (negb _); [done|].
  apply R_SAFE_post; [done|]. intros object db5 _.
  apply R_SAFE_post; [done|]. intros ml db6 _.
  apply R_SAFE_post; [done|]. intros mt db7 _.
  destruct object as [object|]; [|done].
  destruct (hbm_find_object _ _) as [[p h]|]; [|done].
  apply read_entries_loop_fuel. lia.
Qed.

Lemma hbm_write_db_fuel h w : hbm_write_db h w <> Fault OutOfFuel.
Proof.
  unfold hbm_write_db, hbm_history_filename.
  destruct (db_secret (cfg w)); [|done].
  destruct (_ || _); [done|].
  destruct (prehash (cfg w)); [|done].
  destruct (posthash (cfg w)); [|done].
  cbn [mbind outcome_bind].
  destruct (unrealdb_open_write _ _ _) as [[db fs]|]; [|done].
  destruct (write_db_contents _ _ _); [|done].
  by destruct (rename _ _ _).
Qed.

Lemma clean_chain_fuel now chain : forall w,
  clean_chain now chain w <> Fault OutOfFuel.
Proof.
  induction chain as [|h chain IH]; intros w; simpl; [done|].
  set (h1 := hbm_history_cleanup now h).
  assert (forall w2, (clean_chain now chain w2
                      ≫= (fun '(rest, w3) => Ok (h1 :: rest, w3)))
                     <> Fault OutOfFuel) as Hrest.
  { intros w2 Hf. specialize (IH w2).
    destruct (clean_chain now chain w2) as [[rest w3]|f]; [done|].
    simpl in Hf. congruence. }
  destruct (persist (cfg w) && dirty h1).
  - pose proof (hbm_write_db_fuel h1 w) as Hw.
    destruct (hbm_write_db h1 w) as [[[r h2] w2]|f]; [|simpl; congruence].
    cbn [mbind outcome_bind]. intros Hf. specialize (IH w2).
    destruct (clean_chain now chain w2) as [[rest w3]|f]; [done|].
    simpl in Hf. congruence.
  - cbn [mbind outcome_bind]. apply Hrest.
Qed.

Lemma clean_loop_fuel now : forall fuel loopcnt swept w,
  (Z.to_nat (HISTORY_CLEAN_PER_LOOP - loopcnt) < fuel)%nat ->
  clean_loop fuel now loopcnt swept w <> Fault OutOfFuel.
Proof.
  induction fuel as [|fuel IH]; intros loopcnt swept w Hfuel; [lia|].
  cbn [clean_loop]. unfold clean_bucket.
  pose proof (clean_chain_fuel now
                (chain_of (history_hash_table w) (Z.to_nat (hashnum w))) w)
    as Hc.
  destruct (clean_chain _ _ _) as [[chain w1]|f]; [|simpl; congruence].
  cbn [mbind outcome_bind].
  destruct (loopcnt <? HISTORY_CLEAN_PER_LOOP) eqn:E; [|done].
  apply IH. lia.
Qed.

Lemma history_mem_clean_fuel now w :
  history_mem_clean now w <> Fault OutOfFuel.
Proof.
  unfold history_mem_clean. apply clean_loop_fuel.
  rewrite Z.sub_0_r. lia.
Qed.

(** ** Objects stay in the chain their name hashes to *)

Lemma hashed_in_place_chain tbl i :
  hashed_in_place tbl -> Forall (in_place i) (chain_of tbl i).
Proof.
  intros H. unfold chain_of.
  destruct (tbl !! i) as [chain|] eqn:E; simpl; [|constructor].
  apply Forall_forall. intros h Hh. by apply (H i chain).
Qed.

Lemma hashed_in_place_insert tbl i chain :
  hashed_in_place tbl -> Forall (in_place i) chain ->
  hashed_in_place (<[i:=chain]> tbl).
Proof.
  intros H Hc j chain' h Hj Hin.
  apply list_lookup_insert_Some in Hj as [(-> & <- & _)|(_ & Hj)].
  - rewrite Forall_forall in Hc. by apply Hc.
  - by apply (H j chain').
Qed.

Lemma hashed_in_place_hstore tbl p h h' :
  hashed_in_place tbl -> deref tbl p = Some h -> h_name h' = h_name h ->
  hashed_in_place (hstore tbl p h').
Proof.
  intros H Hd Hn. unfold hstore.
  pose proof (hashed_in_place_chain tbl p.1 H) as Hc.
  apply hashed_in_place_insert; [done|].
  apply Forall_insert; [done|].
  unfold in_place. rewrite Hn.
  rewrite Forall_forall in Hc. apply Hc.
  by apply list_elem_of_lookup_2 with p.2.
Qed.

Lemma hashed_in_place_find_or_add tbl object p h tbl' :
  hashed_in_place tbl ->
  (String.length object <= OBJECTLEN)%nat ->
  hbm_find_or_add_object tbl object = (p, h, tbl') ->
  hashed_in_place tbl'.
Proof.
  intros H Hs. unfold hbm_find_or_add_object.
  destruct (list_find _ _) as [[k h']|]; intros [= <- <- <-]; [done|].
  apply hashed_in_place_insert; [done|].
  constructor; [|by apply hashed_in_place_chain].
  unfold in_place, new_object. simpl.
  rewrite strlcpy_short by lia. done.
Qed.

Lemma hbm_write_db_name h w r h' w' :
  hbm_write_db h w = Ok (r, h', w') ->
  h_name h' = h_name h /\ history_hash_table w' = history_hash_table w.
Proof.
  unfold hbm_write_db, hbm_history_filename.
  destruct (db_secret (cfg w)); [|done].
  destruct (_ || _); [by intros [= _ <- <-]|].
  destruct (prehash (cfg w)); [|done].
  destruct (posthash (cfg w)); [|done].
  cbn [mbind outcome_bind].
  destruct (unrealdb_open_write _ _ _) as [[db fs]|];
    [|by intros [= _ <- <-]].
  destruct (write_db_contents _ _ _); [|by intros [= _ <- <-]].
  destruct (rename _ _ _); intros [= _ <- <-]; destruct WIN32; done.
Qed.

Lemma clean_chain_in_place now i chain : forall w chain' w',
  Forall log_ok chain ->
  Forall (in_place i) chain ->
  clean_chain now chain w = Ok (chain', w') ->
  Forall (in_place i) chain'
  /\ history_hash_table w' = history_hash_table w.
Proof.
  induction chain as [|h chain IH]; intros w chain' w' Hok Hin; simpl.
  - by intros [= <- <-].
  - inversion Hok as [|? ? (Hc & _) Hok']; subst.
    inversion Hin as [|? ? Hh Hin']; subst.
    destruct (hbm_history_cleanup_spec now h Hc) as (_ & _ & _ & _ & Hn & _).
    set (h1 := hbm_history_cleanup now h) in *.
    assert (forall h2 w2,
              (if persist (cfg w) && dirty h1
               then hbm_write_db h1 w ≫= (fun '(_, h, w) => Ok (h, w))
               else Ok (h1, w)) = Ok (h2, w2) ->
              h_name h2 = h_name h
              /\ history_hash_table w2 = history_hash_table w) as Hstep.
    { intros h2 w2. destruct (_ && _); [|by intros [= <- <-]].
      destruct (hbm_write_db h1 w) as [[[r h3] w3]|] eqn:E; [|done].
      simpl. intros [= <- <-].
      destruct (hbm_write_db_name _ _ _ _ _ E) as (-> & ->). done. }
    destruct (if persist (cfg w) && dirty h1 then _ else _)
      as [[h2 w2]|]; [|done].
    destruct (Hstep h2 w2 eq_refl) as (Hn2 & Ht2).
    cbn [mbind outcome_bind].
    destruct (clean_chain now chain w2) as [[rest w3]|] eqn:E; [|done].
    cbn [mbind outcome_bind]. intros [= <- <-].
    destruct (IH w2 rest w3 Hok' Hin' E) as (Hr & Ht3).
    split; [|congruence].
    constructor; [|done]. unfold in_place in *. by rewrite Hn2.
Qed.

Lemma clean_loop_in_place now : forall fuel loopcnt swept w s w',
  world_ok w ->
  hashed_in_place (history_hash_table w) ->
  clean_loop fuel now loopcnt swept w = Ok (s, w') ->
  hashed_in_place (history_hash_table w').
Proof.
  induction fuel as [|fuel IH]; intros loopcnt swept w s w' Hw Hp; [done|].
  cbn [clean_loop].
  destruct (clean_bucket_ok now w Hw) as (w1 & E1 & Hw1 & _).
  rewrite E1. cbn [mbind outcome_bind].
  assert (hashed_in_place (history_hash_table (next_hashnum w1))) as Hp1.
  { assert (history_hash_table (next_hashnum w1) = history_hash_table w1)
      as ->.
    { unfold next_hashnum. simpl. by destruct (_ >=? _). }
    unfold clean_bucket in E1.
    destruct (clean_chain now _ w) as [[chain w0]|] eqn:E; [|done].
    simpl in E1. injection E1 as <-.
    destruct Hw as (_ & Ha & _).
    destruct (clean_chain_in_place now (Z.to_nat (hashnum w)) _ w chain w0
                (all_logs_chain _ _ _ Ha) (hashed_in_place_chain _ _ Hp) E)
      as (Hc & Ht).
    simpl. rewrite Ht. by apply hashed_in_place_insert. }
  destruct (next_hashnum_ok w1 Hw1) as (Hw2 & _).
  destruct (_ <? _).
  - by apply IH.
  - by intros [= _ <-].
Qed.

(** An operation on a name that fits keeps every object in its chain. *)
Lemma exec_in_place o w s w' :
  world_ok w -> op_pre w o -> op_short o ->
  hashed_in_place (history_hash_table w) ->
  exec o w = Ok (s, w') ->
  hashed_in_place (history_hash_table w').
Proof.
  intros Hw Hpre Hshort Hp.
  pose proof Hw as (Hs & Ha & _).
  destruct o as [tv object mtags line|now object ml mt|object|now];
    simpl in *.
  - destruct Hpre as (p & h & Hf & Hl).
    pose proof (hbm_find_or_add_object_found _ _ _ _ Hf) as Hfa.
    destruct (hbm_find_object_Some _ _ _ _ Hf) as (_ & Hd & _).
    destruct (all_logs_deref _ _ _ _ Ha Hd) as (Hc & Hwl & _).
    destruct (hbm_history_add_spec tv object mtags line w p h _ Hfa Hc)
      as (h' & -> & _ & _ & _ & _ & Hn & _);
      [unfold counted, within_limit in *; lia|right; lia|].
    simpl. intros [= _ <-].
    destruct (max_lines h =? 0); simpl;
      by apply (hashed_in_place_hstore _ _ h).
  - intros [= _ <-]. unfold hbm_history_set_limit.
    destruct (hbm_find_or_add_object (history_hash_table w) object)
      as [[p h] tbl] eqn:Hfa.
    destruct (hbm_find_or_add_object_spec _ _ _ _ _ Hs Hfa)
      as (_ & _ & Hd & Hall & _).
    pose proof (Hall log_ok Ha (log_ok_new_object object)) as Ha'.
    destruct (all_logs_deref _ _ _ _ Ha' Hd) as (Hc & _).
    simpl. apply (hashed_in_place_hstore _ _ h); [|done|].
    + by apply (hashed_in_place_find_or_add (history_hash_table w) object p h).
    + by destruct (hbm_history_cleanup_spec now
                     (set_max_time mt (set_max_lines ml h)) Hc)
        as (_ & _ & _ & _ & Hn & _).
  - unfold hbm_history_destroy.
    destruct (hbm_find_object _ _) as [[p h]|]; [|by intros [= _ <-]].
    unfold hbm_delete_object_hlo.
    assert (forall w1, (if persist (cfg w) then hbm_delete_db h w else Ok w)
                       = Ok w1 ->
                       history_hash_table w1 = history_hash_table w) as Hdel.
    { intros w1. destruct (persist (cfg w)); [|by intros [= <-]].
      unfold hbm_delete_db, hbm_history_filename.
      destruct (_ || _); [destruct DEBUGMODE; [done|by intros [= <-]]|].
      destruct (prehash (cfg w)); [|done].
      destruct (posthash (cfg w)); [|done].
      by intros [= <-]. }
    destruct (if persist (cfg w) then _ else _) as [w1|]; [|done].
    simpl. intros [= _ <-]. simpl. rewrite (Hdel w1 eq_refl).
    apply hashed_in_place_insert; [done|].
    apply Forall_delete. by apply hashed_in_place_chain.
  - unfold history_mem_clean. by apply clean_loop_in_place.
Qed.

Lemma run_in_place ops : forall w s w',
  world_ok w -> admissible w ops -> Forall op_short ops ->
  hashed_in_place (history_hash_table w) ->
  run ops w = Ok (s, w') ->
  hashed_in_place (history_hash_table w').
Proof.
  induction ops as [|o ops IH]; intros w s w' Hw Hadm Hsh Hp; simpl.
  - by intros [= _ <-].
  - inversion Hadm as [|? ? ? Hpre Hnext]; subst.
    inversion Hsh as [|? ? Ho Hsh']; subst.
    destruct (exec_ok o w Hw Hpre) as (s1 & w1 & He & Hw1 & _).
    rewrite He. cbn [mbind outcome_bind].
    destruct (run ops w1) as [[s2 w2]|] eqn:Er; [|done].
    cbn [mbind outcome_bind]. intros [= _ <-].
    apply (IH w1 s2 w2 Hw1 (Hnext s1 w1 He) Hsh'); [|done].
    by apply (exec_in_place o w s1 w1).
Qed.

Lemma hashed_in_place_initial :
  hashed_in_place (history_hash_table initial_world).
Proof.
  intros i chain h Hi Hin. unfold initial_world in Hi.
  cbn [history_hash_table] in Hi.
  apply lookup_replicate in Hi as [-> _].
  by apply not_elem_of_nil in Hin.
Qed.


(** ** One log per name *)

Lemma same_object_lower object h :
  same_object object h <-> strtolower object = strtolower (h_name h).
Proof. unfold same_object, strcasecmp_eq. apply String.eqb_eq. Qed.

Lemma new_object_name object :
  (String.length object <= OBJECTLEN)%nat ->
  h_name (new_object object) = object.
Proof. intros H. unfold new_object. simpl. apply strlcpy_short. lia. Qed.

Lemma same_object_new object :
  (String.length object <= OBJECTLEN)%nat ->
  same_object object (new_object object).
Proof. intros H. apply same_object_lower. by rewrite new_object_name. Qed.

Lemma chain_of_insert_eq tbl i chain :
  (i < length tbl)%nat -> chain_of (<[i:=chain]> tbl) i = chain.
Proof. intros H. unfold chain_of. by rewrite list_lookup_insert_eq. Qed.

Lemma chain_of_insert_ne tbl i j chain :
  i <> j -> chain_of (<[i:=chain]> tbl) j = chain_of tbl j.
Proof. intros H. unfold chain_of. by rewrite list_lookup_insert_ne. Qed.

Lemma chain_of_index tbl p h : deref tbl p = Some h -> (p.1 < length tbl)%nat.
Proof.
  unfold deref, chain_of. intros H.
  destruct (tbl !! p.1) as [chain|] eqn:E; [by eapply lookup_lt_Some|].
  simpl in H. by rewrite lookup_nil in H.
Qed.

Lemma list_find_cons_hit {A} (P : A -> Prop) `{!forall x, Decision (P x)} x l :
  P x -> list_find P (x :: l) = Some (0%nat, x).
Proof. intros Hx. simpl. by rewrite decide_True. Qed.

Lemma list_find_cons_miss {A} (P : A -> Prop) `{!forall x, Decision (P x)} x l :
  ~ P x -> list_find P (x :: l) = prod_map S id <$> list_find P l.
Proof. intros Hx. simpl. by rewrite decide_False. Qed.

Lemma hash_in_table tbl object :
  table_sized tbl -> (hbm_hash object < length tbl)%nat.
Proof. intros Hs. rewrite Hs. apply hbm_hash_bound. Qed.

Lemma hbm_find_or_add_object_again tbl object p h tbl' :
  table_sized tbl ->
  (String.length object <= OBJECTLEN)%nat ->
  hbm_find_or_add_object tbl object = (p, h, tbl') ->
  hbm_find_object tbl' object = Some (p, h).
Proof.
  intros Hs Hlen. unfold hbm_find_or_add_object, hbm_find_object.
  destruct (list_find _ _) as [[k h']|] eqn:E; intros [= <- <- <-].
  - by rewrite E.
  - rewrite chain_of_insert_eq by (by apply hash_in_table).
    by rewrite list_find_cons_hit by (by apply same_object_new).
Qed.

(** X1.  Insert then lookup: for a name that fits [h->name],
    [hbm_find_object] after [hbm_find_or_add_object] returns the object the
    latter returned, a second [hbm_find_or_add_object] adds nothing, and an
    object that had to be created is an empty log without limits, at the
    head of its chain, named as requested. *)
Theorem find_or_add_then_find (tbl : list (list HistoryLogObject))
  (object : string) (p : hptr) (h : HistoryLogObject)
  (tbl' : list (list HistoryLogObject)) :
  table_sized tbl ->
  (String.length object <= OBJECTLEN)%nat ->
  hbm_find_or_add_object tbl object = (p, h, tbl') ->
  hbm_find_object tbl' object = Some (p, h)
  /\ hbm_find_or_add_object tbl' object = (p, h, tbl')
  /\ (hbm_find_object tbl object = None ->
      p = (hbm_hash object, 0%nat)
      /\ h_name h = object /\ h_lines h = [] /\ num_lines h = 0
      /\ max_lines h = 0 /\ max_time h = 0).
Proof.
  intros Hs Hlen Hfa.
  pose proof (hbm_find_or_add_object_again _ _ _ _ _ Hs Hlen Hfa) as Hf.
  split; [exact Hf|]. split; [by apply hbm_find_or_add_object_found|].
  intros Hnone. unfold hbm_find_or_add_object in Hfa.
  unfold hbm_find_object in Hnone.
  destruct (list_find _ _) as [[k h']|]; [done|].
  injection Hfa as <- <- <-. by rewrite new_object_name.
Qed.

(** X2.  Creating an object for one name leaves the logs of all other names
    as they were: a lookup of a name that differs from it (beyond the case
    of letters) returns the same object as before. *)
Theorem find_or_add_keeps_others (tbl : list (list HistoryLogObject))
  (object object' : string) (p : hptr) (h : HistoryLogObject)
  (tbl' : list (list HistoryLogObject)) :
  table_sized tbl ->
  (String.length object <= OBJECTLEN)%nat ->
  hbm_find_or_add_object tbl object = (p, h, tbl') ->
  strcasecmp_eq object' object = false ->
  snd <$> hbm_find_object tbl' object' = snd <$> hbm_find_object tbl object'.
Proof.
  intros Hs Hlen Hfa Hne. unfold hbm_find_or_add_object in Hfa.
  destruct (list_find _ _) as [[k h']|] eqn:E; injection Hfa as <- <- <-;
    [done|].
  unfold hbm_find_object.
  destruct (decide (hbm_hash object = hbm_hash object')) as [Heq|Hneq].
  - rewrite <- Heq. rewrite chain_of_insert_eq by (by apply hash_in_table).
    rewrite list_find_cons_miss.
    + by destruct (list_find (same_object object') _) as [[j y]|].
    + intros Hsame. apply same_object_lower in Hsame.
      rewrite new_object_name in Hsame by done.
      unfold strcasecmp_eq in Hne. by apply String.eqb_neq in Hne.
  - by rewrite chain_of_insert_ne.
Qed.

Lemma distinct_names_chain tbl i :
  distinct_names tbl -> NoDup (strtolower <$> (h_name <$> chain_of tbl i)).
Proof.
  intros H. unfold chain_of.
  destruct (tbl !! i) as [chain|] eqn:E; simpl; [by eapply H|constructor].
Qed.

Lemma distinct_names_insert tbl i chain :
  distinct_names tbl -> NoDup (strtolower <$> (h_name <$> chain)) ->
  distinct_names (<[i:=chain]> tbl).
Proof.
  intros H Hc j chain' Hj.
  apply list_lookup_insert_Some in Hj as [(-> & <- & _)|(_ & Hj)];
    [done|by eapply H].
Qed.

Lemma names_insert_same (chain : list HistoryLogObject) k h h' :
  chain !! k = Some h -> h_name h' = h_name h ->
  h_name <$> <[k:=h']> chain = h_name <$> chain.
Proof.
  intros Hk Hn. rewrite list_fmap_insert. apply list_insert_id.
  by rewrite list_lookup_fmap, Hk, Hn.
Qed.

Lemma distinct_names_hstore tbl p h h' :
  distinct_names tbl -> deref tbl p = Some h -> h_name h' = h_name h ->
  distinct_names (hstore tbl p h').
Proof.
  intros H Hd Hn. unfold hstore. apply distinct_names_insert; [done|].
  rewrite (names_insert_same _ _ h) by done. by apply distinct_names_chain.
Qed.

Lemma distinct_names_find_or_add tbl object p h tbl' :
  distinct_names tbl ->
  (String.length object <= OBJECTLEN)%nat ->
  hbm_find_or_add_object tbl object = (p, h, tbl') ->
  distinct_names tbl'.
Proof.
  intros H Hlen. unfold hbm_find_or_add_object.
  destruct (list_find _ _) as [[k h']|] eqn:E; intros [= <- <- <-]; [done|].
  apply distinct_names_insert; [done|].
  rewrite !fmap_cons. apply NoDup_cons. split; [|by apply distinct_names_chain].
  intros Hin. apply list_elem_of_fmap in Hin as (n & Hn & Hin).
  apply list_elem_of_fmap in Hin as (y & -> & Hy).
  pose proof (proj1 (list_find_None (same_object object) _) E) as Hall.
  rewrite Forall_forall in Hall. apply (Hall y Hy).
  apply same_object_lower. by rewrite new_object_name in Hn.
Qed.

Lemma distinct_names_delete tbl i k :
  distinct_names tbl ->
  distinct_names (<[i := delete k (chain_of tbl i)]> tbl).
Proof.
  intros H. apply distinct_names_insert; [done|].
  rewrite !list_fmap_delete.
  eapply sublist_NoDup; [by apply distinct_names_chain|apply sublist_delete].
Qed.

Lemma clean_chain_names now chain : forall w chain' w',
  Forall log_ok chain ->
  clean_chain now chain w = Ok (chain', w') ->
  h_name <$> chain' = h_name <$> chain
  /\ history_hash_table w' = history_hash_table w.
Proof.
  induction chain as [|h chain IH]; intros w chain' w' Hok; simpl.
  - by intros [= <- <-].
  - inversion Hok as [|? ? (Hc & _) Hok']; subst.
    destruct (hbm_history_cleanup_spec now h Hc) as (_ & _ & _ & _ & Hn & _).
    set (h1 := hbm_history_cleanup now h) in *.
    assert (forall h2 w2,
              (if persist (cfg w) && dirty h1
               then hbm_write_db h1 w ≫= (fun '(_, h, w) => Ok (h, w))
               else Ok (h1, w)) = Ok (h2, w2) ->
              h_name h2 = h_name h
              /\ history_hash_table w2 = history_hash_table w) as Hstep.
    { intros h2 w2. destruct (_ && _); [|by intros [= <- <-]].
      destruct (hbm_write_db h1 w) as [[[r h3] w3]|] eqn:E; [|done].
      simpl. intros [= <- <-].
      destruct (hbm_write_db_name _ _ _ _ _ E) as (-> & ->). done. }
    destruct (if persist (cfg w) && dirty h1 then _ else _)
      as [[h2 w2]|]; [|done].
    destruct (Hstep h2 w2 eq_refl) as (Hn2 & Ht2).
    cbn [mbind outcome_bind].
    destruct (clean_chain now chain w2) as [[rest w3]|] eqn:E; [|done].
    cbn [mbind outcome_bind]. intros [= <- <-].
    destruct (IH w2 rest w3 Hok' E) as (Hr & Ht3).
    split; [|congruence]. rewrite !fmap_cons. by rewrite Hn2, Hr.
Qed.

Lemma clean_loop_distinct now : forall fuel loopcnt swept w s w',
  world_ok w ->
  distinct_names (history_hash_table w) ->
  clean_loop fuel now loopcnt swept w = Ok (s, w') ->
  distinct_names (history_hash_table w').
Proof.
  induction fuel as [|fuel IH]; intros loopcnt swept w s w' Hw Hp; [done|].
  cbn [clean_loop].
  destruct (clean_bucket_ok now w Hw) as (w1 & E1 & Hw1 & _).
  rewrite E1. cbn [mbind outcome_bind].
  assert (distinct_names (history_hash_table (next_hashnum w1))) as Hp1.
  { assert (history_hash_table (next_hashnum w1) = history_hash_table w1)
      as ->.
    { unfold next_hashnum. simpl. by destruct (_ >=? _). }
    unfold clean_bucket in E1.
    destruct (clean_chain now _ w) as [[chain w0]|] eqn:E; [|done].
    simpl in E1. injection E1 as <-.
    destruct Hw as (_ & Ha & _).
    destruct (clean_chain_names now _ w chain w0
                (all_logs_chain _ _ _ Ha) E) as (Hc & Ht).
    simpl. rewrite Ht. apply distinct_names_insert; [done|].
    rewrite Hc. by apply distinct_names_chain. }
  destruct (next_hashnum_ok w1 Hw1) as (Hw2 & _).
  destruct (_ <? _).
  - by apply IH.
  - by intros [= _ <-].
Qed.

Lemma hbm_delete_db_frame h w w1 :
  hbm_delete_db h w = Ok w1 ->
  history_hash_table w1 = history_hash_table w /\ cfg w1 = cfg w
  /\ notices w1 = notices w /\ hashnum w1 = hashnum w
  /\ fs_dirs (disk w1) = fs_dirs (disk w).
Proof.
  unfold hbm_delete_db, hbm_history_filename.
  destruct (_ || _); [destruct DEBUGMODE; [done|by intros [= <-]]|].
  destruct (prehash (cfg w)); [|done].
  destruct (posthash (cfg w)); [|done].
  by intros [= <-].
Qed.

(** What [hbm_history_destroy] does to the table. *)
Lemma hbm_history_destroy_inv object w r w' :
  hbm_history_destroy object w = Ok (r, w') ->
  (hbm_find_object (history_hash_table w) object = None /\ r = 0 /\ w' = w)
  \/ (exists p h,
        hbm_find_object (history_hash_table w) object = Some (p, h)
        /\ r = 1
        /\ history_hash_table w'
           = <[p.1 := delete p.2 (chain_of (history_hash_table w) p.1)]>
               (history_hash_table w)
        /\ cfg w' = cfg w /\ notices w' = notices w
        /\ hashnum w' = hashnum w).
Proof.
  unfold hbm_history_destroy.
  destruct (hbm_find_object _ _) as [[p h]|]; [|intros [= <- <-]; by left].
  unfold hbm_delete_object_hlo. intros H. right. exists p, h.
  split; [done|].
  assert (forall w1, (if persist (cfg w) then hbm_delete_db h w else Ok w)
                     = Ok w1 ->
                     history_hash_table w1 = history_hash_table w
                     /\ cfg w1 = cfg w /\ notices w1 = notices w
                     /\ hashnum w1 = hashnum w) as Hdel.
  { intros w1. destruct (persist (cfg w)); [|by intros [= <-]].
    intros E. by destruct (hbm_delete_db_frame _ _ _ E) as (? & ? & ? & ? & _). }
  destruct (if persist (cfg w) then _ else _) as [w1|]; [|done].
  destruct (Hdel w1 eq_refl) as (Ht & Hc & Hn & Hh).
  simpl in H. injection H as <- <-. simpl. by rewrite Ht.
Qed.

Lemma exec_distinct o w s w' :
  world_ok w -> op_pre w o -> op_short o ->
  distinct_names (history_hash_table w) ->
  exec o w = Ok (s, w') ->
  distinct_names (history_hash_table w').
Proof.
  intros Hw Hpre Hshort Hp.
  pose proof Hw as (Hs & Ha & _).
  destruct o as [tv object mtags line|now object ml mt|object|now];
    simpl in *.
  - destruct Hpre as (p & h & Hf & Hl).
    pose proof (hbm_find_or_add_object_found _ _ _ _ Hf) as Hfa.
    destruct (hbm_find_object_Some _ _ _ _ Hf) as (_ & Hd & _).
    destruct (all_logs_deref _ _ _ _ Ha Hd) as (Hc & Hwl & _).
    destruct (hbm_history_add_spec tv object mtags line w p h _ Hfa Hc)
      as (h' & -> & _ & _ & _ & _ & Hn & _);
      [unfold counted, within_limit in *; lia|right; lia|].
    simpl. intros [= _ <-].
    destruct (max_lines h =? 0); simpl;
      by apply (distinct_names_hstore _ _ h).
  - intros [= _ <-]. unfold hbm_history_set_limit.
    destruct (hbm_find_or_add_object (history_hash_table w) object)
      as [[p h] tbl] eqn:Hfa.
    destruct (hbm_find_or_add_object_spec _ _ _ _ _ Hs Hfa)
      as (_ & _ & Hd & Hall & _).
    pose proof (Hall log_ok Ha (log_ok_new_object object)) as Ha'.
    destruct (all_logs_deref _ _ _ _ Ha' Hd) as (Hc & _).
    simpl. apply (distinct_names_hstore _ _ h); [|done|].
    + by apply (distinct_names_find_or_add (history_hash_table w) object p h).
    + by destruct (hbm_history_cleanup_spec now
                     (set_max_time mt (set_max_lines ml h)) Hc)
        as (_ & _ & _ & _ & Hn & _).
  - destruct (hbm_history_destroy object w) as [[r w1]|] eqn:E; [|done].
    simpl. intros [= _ <-].
    destruct (hbm_history_destroy_inv _ _ _ _ E)
      as [(_ & _ & ->)|(p & h & _ & _ & -> & _)]; [done|].
    by apply distinct_names_delete.
  - unfold history_mem_clean. by apply clean_loop_distinct.
Qed.

Lemma run_distinct ops : forall w s w',
  world_ok w -> admissible w ops -> Forall op_short ops ->
  distinct_names (history_hash_table w) ->
  run ops w = Ok (s, w') ->
  distinct_names (history_hash_table w').
Proof.
  induction ops as [|o ops IH]; intros w s w' Hw Hadm Hsh Hp; simpl.
  - by intros [= _ <-].
  - inversion Hadm as [|? ? ? Hpre Hnext]; subst.
    inversion Hsh as [|? ? Ho Hsh']; subst.
    destruct (exec_ok o w Hw Hpre) as (s1 & w1 & He & Hw1 & _).
    rewrite He. cbn [mbind outcome_bind].
    destruct (run ops w1) as [[s2 w2]|] eqn:Er; [|done].
    cbn [mbind outcome_bind]. intros [= _ <-].
    apply (IH w1 s2 w2 Hw1 (Hnext s1 w1 He) Hsh'); [|done].
    by apply (exec_distinct o w s1 w1).
Qed.

Lemma distinct_names_initial :
  distinct_names (history_hash_table initial_world).
Proof.
  intros i chain Hi. unfold initial_world in Hi.
  cbn [history_hash_table] in Hi.
  apply lookup_replicate in Hi as [-> _]. constructor.
Qed.

(** X3.  One log per name: a run of operations on names that fit [h->name]
    ends without a fault, keeps every object in the chain its name hashes
    to, and never leaves two objects of a chain with names that are equal
    up to the case of letters. *)
Theorem names_stay_distinct (ops : list op) (w : world) :
  world_ok w ->
  admissible w ops ->
  Forall op_short ops ->
  hashed_in_place (history_hash_table w) ->
  distinct_names (history_hash_table w) ->
  exists s w',
    run ops w = Ok (s, w')
    /\ hashed_in_place (history_hash_table w')
    /\ distinct_names (history_hash_table w').
Proof.
  intros Hw Hadm Hsh Hp Hd.
  destruct (run_ok ops w Hw Hadm) as (s & w' & Hr & _).
  exists s, w'. split; [exact Hr|]. split.
  - by apply (run_in_place ops w s w').
  - by apply (run_distinct ops w s w').
Qed.

Lemma find_after_delete object chain k h :
  NoDup (strtolower <$> (h_name <$> chain)) ->
  list_find (same_object object) chain = Some (k, h) ->
  list_find (same_object object) (delete k chain) = None.
Proof.
  intros Hnd Hf. apply list_find_Some in Hf as (Hk & Hh & _).
  apply (proj2 (list_find_None (same_object object) _)), Forall_forall.
  intros y Hy Hsame.
  apply list_elem_of_lookup in Hy as [j Hj].
  assert (exists j', j' <> k /\ chain !! j' = Some y) as (j' & Hne & Hj').
  { destruct (decide (j < k)%nat).
    - exists j. rewrite list_lookup_delete_lt in Hj by done.
      split; [lia|done].
    - exists (S j). rewrite list_lookup_delete_ge in Hj by lia.
      split; [lia|done]. }
  apply Hne. apply (NoDup_lookup _ j' k (strtolower (h_name y)) Hnd).
  - by rewrite !list_lookup_fmap, Hj'.
  - rewrite !list_lookup_fmap, Hk. simpl. f_equal.
    apply same_object_lower in Hh, Hsame. congruence.
Qed.

Lemma find_others_after_delete {A} (P : A -> Prop)
  `{!forall x, Decision (P x)} (l : list A) : forall k x,
  l !! k = Some x -> ~ P x ->
  snd <$> list_find P (delete k l) = snd <$> list_find P l.
Proof.
  induction l as [|y l IH]; intros [|k] x Hk Hx; simpl in *; try done.
  - injection Hk as ->. rewrite decide_False by done.
    by destruct (list_find P l) as [[]|].
  - destruct (decide (P y)); [done|].
    specialize (IH k x Hk Hx).
    destruct (list_find P (delete k l)) as [[]|],
             (list_find P l) as [[]|]; simpl in *; congruence.
Qed.

(** X4.  [hbm_history_destroy] returns 1 when the name had a log and 0
    (changing nothing) when it had none; in a table with one log per name a
    later lookup, and so a later request, finds nothing under that name. *)
Theorem destroy_removes_log (object : string) (w : world) (r : Z)
  (w' : world) :
  distinct_names (history_hash_table w) ->
  hbm_history_destroy object w = Ok (r, w') ->
  hbm_find_object (history_hash_table w') object = None
  /\ (forall now tv filter, hbm_history_request now tv object filter w' = None)
  /\ (r = 1 /\ is_Some (hbm_find_object (history_hash_table w) object)
      \/ r = 0 /\ hbm_find_object (history_hash_table w) object = None
         /\ w' = w).
Proof.
  intros Hd E.
  assert (hbm_find_object (history_hash_table w') object = None
          /\ (r = 1 /\ is_Some (hbm_find_object (history_hash_table w) object)
              \/ r = 0
                 /\ hbm_find_object (history_hash_table w) object = None
                 /\ w' = w)) as (Hnone & Hr).
  { destruct (hbm_history_destroy_inv _ _ _ _ E)
      as [(Hf & -> & ->)|(p & h & Hf & -> & Ht & _)].
    - split; [done|]. by right.
    - split; [|left; by eauto].
      assert (list_find (same_object object)
                (chain_of (history_hash_table w) p.1) = Some (p.2, h)) as El.
      { unfold hbm_find_object in Hf.
        destruct (list_find _ _) as [[k h']|] eqn:El; [|done].
        by injection Hf as <- <-. }
      destruct (hbm_find_object_Some _ _ _ _ Hf) as (Hp & Hdr & _).
      rewrite Ht. unfold hbm_find_object. rewrite <- Hp.
      rewrite chain_of_insert_eq by (by eapply chain_of_index).
      by rewrite (find_after_delete object _ p.2 h)
        by (done || by apply distinct_names_chain). }
  split; [exact Hnone|]. split; [|exact Hr].
  intros now tv filter. unfold hbm_history_request. by rewrite Hnone.
Qed.

(** X5.  Destroying the log of one name leaves the logs of all other names
    as they were. *)
Theorem destroy_keeps_others (object object' : string) (w : world) (r : Z)
  (w' : world) :
  hbm_history_destroy object w = Ok (r, w') ->
  strcasecmp_eq object' object = false ->
  snd <$> hbm_find_object (history_hash_table w') object'
  = snd <$> hbm_find_object (history_hash_table w) object'.
Proof.
  intros E Hne.
  destruct (hbm_history_destroy_inv _ _ _ _ E)
    as [(_ & _ & ->)|(p & h & Hf & _ & Ht & _)]; [done|].
  destruct (hbm_find_object_Some _ _ _ _ Hf) as (Hp & Hdr & Hsame).
  rewrite Ht. unfold hbm_find_object.
  destruct (decide (p.1 = hbm_hash object')) as [Heq|Hneq].
  - rewrite <- Heq. rewrite chain_of_insert_eq by (by eapply chain_of_index).
    pose proof (find_others_after_delete (same_object object')
                  (chain_of (history_hash_table w) p.1) p.2 h Hdr) as Hfo.
    destruct (list_find (same_object object')
                (delete p.2 (chain_of (history_hash_table w) p.1)))
      as [[j y]|] eqn:E1;
    destruct (list_find (same_object object')
                (chain_of (history_hash_table w) p.1)) as [[j' y']|] eqn:E2;
      simpl in *; apply Hfo; intros Hs';
      apply same_object_lower in Hs', Hsame;
      unfold strcasecmp_eq in Hne; apply String.eqb_neq in Hne; congruence.
  - by rewrite chain_of_insert_ne.
Qed.


(** ** The cached oldest time *)

Lemma kept_by_age_window redline ls :
  kept_by_age redline ls = age_window redline ls.
Proof.
  induction ls as [|l ls IH]; [done|]. simpl. rewrite IH.
  by destruct (hl_t l <? redline) eqn:E1, (hl_t l >=? redline) eqn:E2; try lia.
Qed.

Lemma age_window_all redline ls :
  Forall (fun l => redline <= hl_t l) ls -> age_window redline ls = ls.
Proof.
  induction 1 as [|l ls Hl _ IH]; [done|]. simpl. rewrite IH.
  destruct (hl_t l >=? redline) eqn:E; [done|lia].
Qed.

Lemma age_window_fresh redline ls :
  Forall (fun l => redline <= hl_t l) (age_window redline ls).
Proof.
  apply Forall_forall. intros l Hl. apply age_window_aged in Hl. lia.
Qed.

Lemma min_of_snoc o done l :
  0 < hl_t l -> min_of o done ->
  min_of (if (o =? 0) || (hl_t l <? o) then hl_t l else o) (done ++ [l]).
Proof.
  intros Hl [(-> & ->)|(Ho & (m & Hm & Hmt) & Hall)]; right; simpl.
  - split; [done|]. split; [exists l; split; [by left|done]|].
    by repeat constructor.
  - assert ((o =? 0) = false) as -> by lia. simpl.
    destruct (hl_t l <? o) eqn:E.
    + split; [done|]. split.
      * exists l. split; [|done]. apply elem_of_app. right. by left.
      * apply Forall_app. split; [|by repeat constructor].
        eapply Forall_impl; [exact Hall|]. simpl. intros; lia.
    + split; [done|]. split.
      * exists m. split; [|done]. apply elem_of_app. by left.
      * apply Forall_app. split; [done|]. repeat constructor. lia.
Qed.

Lemma min_of_low o ls :
  Forall (fun l => 0 < hl_t l) ls -> min_of o ls ->
  0 <= o /\ (o = 0 -> ls = [])
  /\ Forall (fun l => 0 < hl_t l /\ o <= hl_t l) ls.
Proof.
  intros Hpos [(-> & ->)|(Ho & _ & Hall)].
  - split; [lia|]. split; [done|constructor].
  - split; [lia|]. split; [lia|].
    rewrite Forall_forall in *. intros l Hl. split; auto.
Qed.

Lemma cleanup_time_loop_oldest redline todo : forall h i done,
  Forall (fun l => 0 < hl_t l) todo ->
  min_of (oldest_t h) done ->
  min_of (oldest_t (cleanup_time_loop redline h i todo))
    (done ++ kept_by_age redline todo).
Proof.
  induction todo as [|l todo IH]; intros h i done Hpos Hmin; simpl.
  - by rewrite app_nil_r.
  - inversion Hpos as [|? ? Hl Hpos']; subst.
    destruct (hl_t l <? redline) eqn:E; simpl.
    + by apply IH.
    + replace (done ++ l :: kept_by_age redline todo)
        with ((done ++ [l]) ++ kept_by_age redline todo)
        by (by rewrite <- app_assoc).
      apply IH; [done|].
      pose proof (min_of_snoc (oldest_t h) done l Hl Hmin) as M.
      by destruct ((oldest_t h =? 0) || (hl_t l <? oldest_t h)).
Qed.

Lemma cleanup_lines_loop_oldest todo : forall h i done,
  Forall (fun l => 0 < hl_t l) todo ->
  min_of (oldest_t h) done ->
  min_of (oldest_t (cleanup_lines_loop h i todo))
    (done ++ drop (Z.to_nat (num_lines h - max_lines h)) todo).
Proof.
  induction todo as [|l todo IH]; intros h i done Hpos Hmin; simpl.
  - by rewrite drop_nil, app_nil_r.
  - inversion Hpos as [|? ? Hl Hpos']; subst.
    destruct (num_lines h >? max_lines h) eqn:E.
    + assert (Z.to_nat (num_lines h - max_lines h)
              = S (Z.to_nat (num_lines (hbm_history_del_line h i)
                             - max_lines (hbm_history_del_line h i)))) as ->
        by (simpl; lia).
      simpl drop. by apply (IH (hbm_history_del_line h i) i done).
    + assert (Z.to_nat (num_lines h - max_lines h) = 0%nat) as E0 by lia.
      rewrite E0. simpl drop.
      set (h1 := if (oldest_t h =? 0) || (hl_t l <? oldest_t h)
                 then set_oldest_t (hl_t l) h else h).
      assert (num_lines h1 = num_lines h /\ max_lines h1 = max_lines h)
        as (E1 & E2) by (unfold h1; by destruct (_ || _)).
      replace (done ++ l :: todo) with ((done ++ [l]) ++ todo)
        by (by rewrite <- app_assoc).
      replace todo with (drop (Z.to_nat (num_lines h1 - max_lines h1)) todo)
        at 2 by (by rewrite E1, E2, E0).
      apply IH; [done|].
      pose proof (min_of_snoc (oldest_t h) done l Hl Hmin) as M.
      unfold h1. by destruct ((oldest_t h =? 0) || (hl_t l <? oldest_t h)).
Qed.

Lemma cleanup_lines_loop_drop todo : forall h done,
  h_lines h = done ++ todo ->
  h_lines (cleanup_lines_loop h (length done) todo)
  = done ++ drop (Z.to_nat (num_lines h - max_lines h)) todo.
Proof.
  induction todo as [|l todo IH]; intros h done Hl; simpl.
  - by rewrite drop_nil.
  - destruct (num_lines h >? max_lines h) eqn:E.
    + destruct (hbm_history_del_line_spec h done l todo Hl)
        as (Hl' & Hn & _ & Hm & _).
      rewrite (IH _ _ Hl'), Hn, Hm.
      assert (Z.to_nat (num_lines h - max_lines h)
              = S (Z.to_nat (num_lines h - 1 - max_lines h))) as -> by lia.
      done.
    + pose proof (cleanup_lines_loop_idle (l :: todo) h (length done)) as Hi.
      simpl in Hi. rewrite E in Hi.
      destruct Hi as (E1 & _); [lia|]. rewrite E1, Hl.
      by assert (Z.to_nat (num_lines h - max_lines h) = 0%nat) as -> by lia.
Qed.

(** What [hbm_history_cleanup] leaves of a log whose cached oldest time is
    a lower bound. *)
Lemma hbm_history_cleanup_exact now h :
  counted h -> oldest_low h ->
  let redline := now - max_time h in
  let K := age_window redline (h_lines h) in
  let h' := hbm_history_cleanup now h in
  h_lines h' = drop (Z.to_nat (Z.of_nat (length K) - max_lines h)) K
  /\ counted h' /\ oldest_low h'
  /\ max_lines h' = max_lines h /\ max_time h' = max_time h
  /\ h_name h' = h_name h
  /\ (oldest_t h < redline \/ Z.of_nat (length K) > max_lines h ->
      oldest_exact h').
Proof.
  intros Hc (Ho0 & Ho1 & Hlow) redline K h'.
  assert (Forall (fun l => 0 < hl_t l) (h_lines h)) as Hpos.
  { eapply Forall_impl; [exact Hlow|]. by intros l [? _]. }
  assert (Forall (fun l => 0 < hl_t l) K) as HposK
    by (by apply age_window_Forall).
  unfold h', hbm_history_cleanup. fold redline.
  set (h1 := if oldest_t h <? redline
             then cleanup_time_loop redline (set_oldest_t 0 h) 0
                    (h_lines (set_oldest_t 0 h))
             else h).
  assert (h_lines h1 = K /\ counted h1
          /\ max_lines h1 = max_lines h /\ max_time h1 = max_time h
          /\ h_name h1 = h_name h /\ oldest_low h1
          /\ (oldest_t h < redline -> oldest_exact h1))
    as (Hl1 & Hc1 & Hm1 & Ht1 & Hn1 & Hlow1 & Hex1).
  { unfold h1. destruct (oldest_t h <? redline) eqn:E.
    - destruct (cleanup_time_loop_spec redline (h_lines h) (set_oldest_t 0 h) [])
        as (E1 & ? & ? & ? & ?); [done|done|].
      pose proof (cleanup_time_loop_oldest redline (h_lines h)
                    (set_oldest_t 0 h) 0 [] Hpos) as Hmin.
      simpl in E1, Hmin. rewrite kept_by_age_window in E1, Hmin.
      fold K in E1, Hmin.
      specialize (Hmin (or_introl (conj eq_refl eq_refl))).
      rewrite <- E1 in Hmin.
      pose proof Hmin as Hlo. apply min_of_low in Hlo; [|by rewrite E1].
      destruct Hlo as (Hm0 & Hm1 & Hm2).
      repeat split; auto.
    - assert (K = h_lines h) as HK.
      { apply age_window_all. eapply Forall_impl; [exact Hlow|].
        simpl. intros; lia. }
      repeat split; auto. lia. }
  simpl.
  destruct (num_lines h1 >? max_lines h1) eqn:E.
  - destruct (cleanup_lines_loop_spec (h_lines h1) (set_oldest_t 0 h1) [])
      as (_ & Hc2 & Hm2 & Ht2 & Hn2 & _); [done|done|].
    pose proof (cleanup_lines_loop_drop (h_lines h1) (set_oldest_t 0 h1) []
                  eq_refl) as Hd.
    pose proof (cleanup_lines_loop_oldest (h_lines h1) (set_oldest_t 0 h1)
                  0 []) as Hmin.
    simpl in *. rewrite Hl1 in *.
    specialize (Hmin HposK (or_introl (conj eq_refl eq_refl))).
    assert (num_lines h1 = Z.of_nat (length K)) as Hnum
      by (unfold counted in Hc1; by rewrite Hc1, Hl1).
    rewrite Hnum, Hm1 in Hd, Hmin. rewrite <- Hd in Hmin.
    assert (Forall (fun l => 0 < hl_t l)
              (h_lines (cleanup_lines_loop (set_oldest_t 0 h1) 0 K))) as Hp2
      by (rewrite Hd; by apply Forall_drop).
    split; [exact Hd|]. split; [exact Hc2|].
    split; [by apply min_of_low in Hmin|].
    repeat split; try congruence. intros _. exact Hmin.
  - assert (num_lines h1 = Z.of_nat (length K)) as Hnum
      by (unfold counted in Hc1; by rewrite Hc1, Hl1).
    assert (Z.to_nat (Z.of_nat (length K) - max_lines h) = 0%nat) as ->
      by lia.
    split; [exact Hl1|]. do 5 (split; [done|]).
    intros [Hlt|Hgt]; [by apply Hex1|lia].
Qed.

Lemma hbm_write_db_inv h w r h' w' :
  hbm_write_db h w = Ok (r, h', w') ->
  (r = 0 /\ h' = h \/ r = 1 /\ (h' = h \/ h' = set_dirty false h))
  /\ history_hash_table w' = history_hash_table w
  /\ cfg w' = cfg w /\ hashnum w' = hashnum w.
Proof.
  unfold hbm_write_db, hbm_history_filename.
  destruct (db_secret (cfg w)); [|done].
  destruct (_ || _); [intros [= <- <- <-]; by auto|].
  destruct (prehash (cfg w)); [|done].
  destruct (posthash (cfg w)); [|done].
  cbn [mbind outcome_bind].
  destruct (unrealdb_open_write _ _ _) as [[db fs]|];
    [|intros [= <- <- <-]; by auto].
  destruct (write_db_contents _ _ _); [|intros [= <- <- <-]; by auto].
  destruct (rename _ _ _); intros [= <- <- <-]; destruct WIN32; by auto.
Qed.

Lemma hbm_history_add_inv tv object mtags line w r w' :
  hbm_history_add tv object mtags line w = Ok (r, w') ->
  exists p h tbl h0 h1,
    hbm_find_or_add_object (history_hash_table w) object = (p, h, tbl)
    /\ (h0 = h \/ h0 = set_max_time 86400 (set_max_lines 50 h))
    /\ (h1 = h0 \/ h_lines h0 <> [] /\ h1 = hbm_history_del_line h0 0)
    /\ history_hash_table w'
       = hstore tbl p (hbm_history_add_line tv h1 mtags line)
    /\ r = 0 /\ cfg w' = cfg w /\ disk w' = disk w
    /\ hashnum w' = hashnum w.
Proof.
  unfold hbm_history_add.
  destruct (hbm_find_or_add_object _ _) as [[p h] tbl] eqn:Hfa.
  intros H. exists p, h, tbl.
  destruct (max_lines h =? 0).
  - destruct DEBUGMODE; [done|]. cbn [mbind outcome_bind] in H.
    exists (set_max_time 86400 (set_max_lines 50 h)).
    destruct (_ >=? _).
    + destruct (h_lines (set_max_time 86400 (set_max_lines 50 h))) eqn:El;
        [done|].
      cbn [mbind outcome_bind] in H. injection H as <- <-.
      eexists. split; [done|]. split; [by right|].
      split; [by right|done].
    + cbn [mbind outcome_bind] in H. injection H as <- <-.
      eexists. split; [done|]. split; [by right|]. split; [by left|done].
  - cbn [mbind outcome_bind] in H. exists h.
    destruct (_ >=? _).
    + destruct (h_lines h) eqn:El; [done|].
      cbn [mbind outcome_bind] in H. injection H as <- <-.
      eexists. split; [done|]. split; [by left|].
      split; [by right|done].
    + cbn [mbind outcome_bind] in H. injection H as <- <-.
      eexists. split; [done|]. split; [by left|]. split; [by left|done].
Qed.

(** *** Properties of logs that every operation keeps *)

Section Closed.

Variable P : HistoryLogObject -> Prop.
Variable add_ok : timeval -> list MessageTag -> string -> Prop.

Hypothesis P_new : forall object, P (new_object object).
Hypothesis P_limits : forall a b h,
  P h -> P (set_max_time a (set_max_lines b h)).
Hypothesis P_del : forall h,
  P h -> h_lines h <> [] -> P (hbm_history_del_line h 0).
Hypothesis P_add : forall tv h mtags line,
  add_ok tv mtags line -> P h -> P (hbm_history_add_line tv h mtags line).
Hypothesis P_cleanup : forall now h, P h -> P (hbm_history_cleanup now h).
Hypothesis P_dirty : forall b h, P h -> P (set_dirty b h).

Definition op_adds (o : op) : Prop :=
  match o with
  | OpAdd tv _ mtags line => add_ok tv mtags line
  | _ => True
  end.

Lemma all_logs_insert tbl i chain :
  all_logs P tbl -> Forall P chain -> all_logs P (<[i:=chain]> tbl).
Proof. intros. by apply Forall_insert. Qed.

Lemma all_logs_find_or_add tbl object p h tbl' :
  all_logs P tbl ->
  hbm_find_or_add_object tbl object = (p, h, tbl') ->
  all_logs P tbl' /\ P h.
Proof.
  intros Ha. unfold hbm_find_or_add_object.
  destruct (list_find _ _) as [[k h']|] eqn:E; intros [= <- <- <-].
  - split; [done|]. apply list_find_Some in E as (Hk & _).
    eapply Forall_lookup_1; [by apply all_logs_chain|exact Hk].
  - split; [|done]. apply all_logs_insert; [done|].
    constructor; [done|by apply all_logs_chain].
Qed.

Lemma all_logs_add tv object mtags line w r w' :
  add_ok tv mtags line ->
  all_logs P (history_hash_table w) ->
  hbm_history_add tv object mtags line w = Ok (r, w') ->
  all_logs P (history_hash_table w').
Proof.
  intros Hok Ha H.
  destruct (hbm_history_add_inv _ _ _ _ _ _ _ H)
    as (p & h & tbl & h0 & h1 & Hfa & H0 & H1 & -> & _).
  destruct (all_logs_find_or_add _ _ _ _ _ Ha Hfa) as (Ha' & Hh).
  apply all_logs_hstore; [done|]. apply P_add; [done|].
  assert (P h0) as Hh0 by (destruct H0 as [-> | ->]; auto).
  destruct H1 as [-> |(Hne & ->)]; auto.
Qed.

Lemma all_logs_set_limit now object ml mt w :
  all_logs P (history_hash_table w) ->
  all_logs P (history_hash_table (hbm_history_set_limit now object ml mt w).2).
Proof.
  intros Ha. unfold hbm_history_set_limit.
  destruct (hbm_find_or_add_object _ _) as [[p h] tbl] eqn:Hfa.
  destruct (all_logs_find_or_add _ _ _ _ _ Ha Hfa) as (Ha' & Hh).
  simpl. apply all_logs_hstore; auto.
Qed.

Lemma all_logs_destroy object w r w' :
  all_logs P (history_hash_table w) ->
  hbm_history_destroy object w = Ok (r, w') ->
  all_logs P (history_hash_table w').
Proof.
  intros Ha E.
  destruct (hbm_history_destroy_inv _ _ _ _ E)
    as [(_ & _ & ->)|(p & h & _ & _ & -> & _)]; [done|].
  apply all_logs_insert; [done|]. apply Forall_delete.
  by apply all_logs_chain.
Qed.

End Closed.

(** *** What a sweep establishes *)

Section Swept.

Variables P Q : HistoryLogObject -> Prop.
Variable now : Z.

Hypothesis PQ_cleanup : forall h, P h -> Q (hbm_history_cleanup now h).
Hypothesis Q_dirty : forall h, Q h -> Q (set_dirty false h).
Hypothesis Q_P : forall h, Q h -> P h.

Lemma clean_chain_Forall chain : forall w chain' w',
  Forall P chain ->
  clean_chain now chain w = Ok (chain', w') ->
  Forall Q chain'
  /\ history_hash_table w' = history_hash_table w /\ cfg w' = cfg w
  /\ hashnum w' = hashnum w.
Proof.
  induction chain as [|h chain IH]; intros w chain' w' Hall; simpl.
  - intros [= <- <-]. by repeat split.
  - inversion Hall as [|? ? Hh Hall']; subst.
    set (h1 := hbm_history_cleanup now h) in *.
    assert (forall h2 w2,
              (if persist (cfg w) && dirty h1
               then hbm_write_db h1 w ≫= (fun '(_, h, w) => Ok (h, w))
               else Ok (h1, w)) = Ok (h2, w2) ->
              Q h2 /\ history_hash_table w2 = history_hash_table w
              /\ cfg w2 = cfg w /\ hashnum w2 = hashnum w) as Hstep.
    { intros h2 w2. destruct (_ && _).
      - destruct (hbm_write_db h1 w) as [[[r h3] w3]|] eqn:E; [|done].
        simpl. intros [= <- <-].
        destruct (hbm_write_db_inv _ _ _ _ _ E) as (Hr & ? & ? & ?).
        split; [|done].
        destruct Hr as [(_ & ->)|(_ & [-> | ->])]; unfold h1; auto.
      - intros [= <- <-]. split; [by apply PQ_cleanup|done]. }
    destruct (if persist (cfg w) && dirty h1 then _ else _)
      as [[h2 w2]|]; [|done].
    destruct (Hstep h2 w2 eq_refl) as (Hq & Ht2 & Hc2 & Hn2).
    cbn [mbind outcome_bind].
    destruct (clean_chain now chain w2) as [[rest w3]|] eqn:E; [|done].
    cbn [mbind outcome_bind]. intros [= <- <-].
    destruct (IH w2 rest w3 Hall' E) as (Hr & Ht3 & Hc3 & Hn3).
    split; [by constructor|]. repeat split; congruence.
Qed.

Lemma clean_bucket_inv w w' :
  all_logs P (history_hash_table w) ->
  clean_bucket now w = Ok w' ->
  let i := Z.to_nat (hashnum w) in
  exists chain',
    history_hash_table w' = <[i := chain']> (history_hash_table w)
    /\ Forall Q chain'
    /\ chain_of (history_hash_table w') i = chain'
    /\ cfg w' = cfg w /\ hashnum w' = hashnum w.
Proof.
  intros Ha H i. unfold clean_bucket in H. fold i in H.
  destruct (clean_chain now _ w) as [[chain w0]|] eqn:E; [|done].
  simpl in H. injection H as <-.
  destruct (clean_chain_Forall _ _ _ _ (all_logs_chain _ _ i Ha) E)
    as (Hq & Ht & Hc & Hn).
  exists chain. simpl. rewrite Ht. repeat split; auto.
  destruct (decide (i < length (history_hash_table w))%nat) as [Hi|Hi].
  - by apply chain_of_insert_eq.
  - unfold chain_of in *. rewrite list_insert_ge by lia.
    rewrite lookup_ge_None_2 in * by lia. simpl in *.
    by injection E as <- _.
Qed.

Lemma clean_loop_swept : forall fuel loopcnt swept w s w',
  all_logs P (history_hash_table w) ->
  (forall b, b ∈ swept ->
     Forall Q (chain_of (history_hash_table w) (Z.to_nat b))) ->
  clean_loop fuel now loopcnt swept w = Ok (s, w') ->
  all_logs P (history_hash_table w')
  /\ (forall b, b ∈ s ->
        Forall Q (chain_of (history_hash_table w') (Z.to_nat b))).
Proof.
  induction fuel as [|fuel IH]; intros loopcnt swept w s w' Ha Hsw; [done|].
  cbn [clean_loop].
  destruct (clean_bucket now w) as [w1|] eqn:E1; [|done].
  cbn [mbind outcome_bind].
  destruct (clean_bucket_inv _ _ Ha E1) as (chain & Ht & Hq & Hch & _ & Hn).
  assert (history_hash_table (next_hashnum w1) = history_hash_table w1)
    as Hnext.
  { unfold next_hashnum. simpl. by destruct (_ >=? _). }
  assert (all_logs P (history_hash_table (next_hashnum w1))) as Ha1.
  { rewrite Hnext, Ht. apply Forall_insert; [done|].
    eapply Forall_impl; [exact Hq|]. auto. }
  assert (forall b, b ∈ swept ++ [hashnum w] ->
            Forall Q (chain_of (history_hash_table (next_hashnum w1))
                        (Z.to_nat b))) as Hsw1.
  { intros b Hb. rewrite Hnext.
    destruct (decide (Z.to_nat b = Z.to_nat (hashnum w))) as [->|Hne].
    - by rewrite Hch.
    - rewrite Ht, chain_of_insert_ne by done.
      apply elem_of_app in Hb as [Hb|Hb]; [by apply Hsw|].
      apply list_elem_of_singleton in Hb. by subst. }
  destruct (_ <? _).
  - by apply IH.
  - by intros [= <- <-].
Qed.

End Swept.


Lemma all_logs_and (P Q : HistoryLogObject -> Prop) tbl :
  all_logs P tbl -> all_logs Q tbl -> all_logs (fun h => P h /\ Q h) tbl.
Proof.
  intros HP HQ. apply Forall_forall. intros chain Hc.
  apply Forall_forall. intros h Hh. split.
  - exact (proj1 (Forall_forall _ _)
             (proj1 (Forall_forall _ _) HP chain Hc) h Hh).
  - exact (proj1 (Forall_forall _ _)
             (proj1 (Forall_forall _ _) HQ chain Hc) h Hh).
Qed.

Lemma all_logs_impl (P Q : HistoryLogObject -> Prop) tbl :
  all_logs P tbl -> (forall h, P h -> Q h) -> all_logs Q tbl.
Proof.
  intros HP HPQ. eapply Forall_impl; [exact HP|]. simpl.
  intros chain Hc. eapply Forall_impl; [exact Hc|exact HPQ].
Qed.

Lemma log_low_new object : log_low (new_object object).
Proof.
  split; [reflexivity|]. split; [simpl; lia|]. split; [done|constructor].
Qed.

Lemma log_low_limits a b h :
  log_low h -> log_low (set_max_time a (set_max_lines b h)).
Proof. by intros (? & ?). Qed.

Lemma log_low_dirty b h : log_low h -> log_low (set_dirty b h).
Proof. by intros (? & ?). Qed.

Lemma log_low_del h :
  log_low h -> h_lines h <> [] -> log_low (hbm_history_del_line h 0).
Proof.
  intros (Hc & H0 & H1 & Hall) Hne.
  destruct (h_lines h) as [|l ls] eqn:El; [done|].
  split; [exact (counted_del_line h [] l ls El Hc)|].
  unfold oldest_low, hbm_history_del_line. simpl. rewrite El in *. simpl.
  split; [done|]. split; [intros E0; by specialize (H1 E0)|].
  by inversion Hall.
Qed.

Lemma log_low_add tv h mtags line :
  0 < hl_t (new_log_line tv mtags line) ->
  log_low h -> log_low (hbm_history_add_line tv h mtags line).
Proof.
  intros Hpos (Hc & H0 & H1 & Hall). split; [by apply counted_add_line|].
  unfold oldest_low, hbm_history_add_line.
  set (l := new_log_line tv mtags line) in *. simpl.
  destruct ((hl_t l <? oldest_t h) || (oldest_t h =? 0)) eqn:E; simpl.
  - split; [lia|]. split; [intros ?; lia|]. apply Forall_app. split.
    + destruct (decide (oldest_t h = 0)) as [Hz|Hnz].
      * rewrite (H1 Hz). constructor.
      * eapply Forall_impl; [exact Hall|]. simpl. intros x [? ?].
        split; [done|]. lia.
    + repeat constructor; lia.
  - split; [done|]. split; [intros ?; lia|]. apply Forall_app.
    split; [done|]. repeat constructor; lia.
Qed.

Lemma log_low_cleanup now h : log_low h -> log_low (hbm_history_cleanup now h).
Proof.
  intros (Hc & Hl).
  by destruct (hbm_history_cleanup_exact now h Hc Hl) as (_ & ? & ? & _).
Qed.

Lemma log_low_cleanup_fresh now h :
  log_low h ->
  let h' := hbm_history_cleanup now h in
  log_low h' /\ fresh (now - max_time h') h'.
Proof.
  intros Hl h'. split; [by apply log_low_cleanup|].
  destruct Hl as (Hc & Hl).
  destruct (hbm_history_cleanup_exact now h Hc Hl)
    as (Hlines & _ & _ & _ & Hmt & _).
  unfold fresh, h'. rewrite Hlines, Hmt.
  apply Forall_drop, age_window_fresh.
Qed.

Lemma hbm_history_cleanup_newest now h :
  counted h -> oldest_low h ->
  let window := age_window (now - max_time h) (h_lines h) in
  h_lines (hbm_history_cleanup now h)
  = drop (length window - Z.to_nat (max_lines h)) window.
Proof.
  intros Hc Hl window.
  destruct (hbm_history_cleanup_exact now h Hc Hl) as (Hlines & _).
  fold window in Hlines. rewrite Hlines.
  destruct (decide (max_lines h < 0)) as [Hneg|Hpos].
  - rewrite !drop_ge by lia. done.
  - f_equal. lia.
Qed.

(** X6.  [hbm_history_cleanup] on a log whose lines are counted and whose
    cached oldest time is a lower bound: of the lines that are not older
    than [now - max_time] it keeps the newest [max_lines], in order.  What
    is left is counted, no line is older than the red line, the limits and
    the name are unchanged, and when a line was removed the cached oldest
    time is again the smallest time of the log (0 for an empty log). *)
Theorem cleanup_keeps_newest (now : Z) (h : HistoryLogObject) :
  counted h ->
  oldest_low h ->
  let window := age_window (now - max_time h) (h_lines h) in
  let h' := hbm_history_cleanup now h in
  h_lines h' = drop (length window - Z.to_nat (max_lines h)) window
  /\ num_lines h' = Z.of_nat (length (h_lines h'))
  /\ (forall l, l ∈ h_lines h' -> now - max_time h <= hl_t l)
  /\ (0 <= max_lines h -> num_lines h' <= max_lines h)
  /\ max_lines h' = max_lines h /\ max_time h' = max_time h
  /\ h_name h' = h_name h
  /\ oldest_low h'
  /\ (h_lines h' <> h_lines h -> oldest_exact h').
Proof.
  intros Hc Hl window h'.
  destruct (hbm_history_cleanup_exact now h Hc Hl)
    as (Hlines & Hc' & Hl' & Hml & Hmt & Hn & Hex).
  fold window h' in Hlines, Hex.
  pose proof (hbm_history_cleanup_newest now h Hc Hl) as Hlines'.
  fold window h' in Hlines'.
  split; [exact Hlines'|]. split; [exact Hc'|]. split.
  { intros l Hin. rewrite Hlines' in Hin.
    apply subseteq_drop, age_window_aged in Hin. lia. }
  split.
  { intros Hpos. unfold counted in Hc'. fold h' in Hc'.
    rewrite Hc', Hlines', length_drop. lia. }
  do 4 (split; [done|]).
  intros Hne. apply Hex.
  destruct (decide (oldest_t h < now - max_time h)) as [|Hge]; [by left|].
  right.
  assert (window = h_lines h) as Hw.
  { apply age_window_all. destruct Hl as (_ & _ & Hall).
    eapply Forall_impl; [exact Hall|]. simpl. intros; lia. }
  destruct (decide (Z.of_nat (length window) > max_lines h)); [done|].
  exfalso. apply Hne. rewrite Hlines', Hw.
  assert ((length (h_lines h) - Z.to_nat (max_lines h))%nat = 0%nat) as ->
    by (rewrite Hw in *; lia).
  done.
Qed.



Lemma history_mem_clean_low now w s w' :
  all_logs log_low (history_hash_table w) ->
  history_mem_clean now w = Ok (s, w') ->
  all_logs log_low (history_hash_table w')
  /\ (forall b, b ∈ s ->
        Forall (fun h => log_low h /\ fresh (now - max_time h) h)
          (chain_of (history_hash_table w') (Z.to_nat b))).
Proof.
  intros Ha H. unfold history_mem_clean in H.
  assert (forall h, log_low h /\ fresh (now - max_time h) h ->
                    log_low (set_dirty false h)
                    /\ fresh (now - max_time (set_dirty false h))
                         (set_dirty false h)) as Hdirty.
  { intros h (Hl & Hf). split; [by apply log_low_dirty|done]. }
  assert (forall b : Z, b ∈ [] ->
            Forall (fun h => log_low h /\ fresh (now - max_time h) h)
              (chain_of (history_hash_table w) (Z.to_nat b))) as Hnil.
  { intros b Hb. by apply not_elem_of_nil in Hb. }
  exact (clean_loop_swept log_low
           (fun h => log_low h /\ fresh (now - max_time h) h) now
           (log_low_cleanup_fresh now) Hdirty (fun h Hq => proj1 Hq)
           _ _ _ _ _ _ Ha Hnil H).
Qed.

Lemma exec_low o w s w' :
  op_timed o ->
  all_logs log_low (history_hash_table w) ->
  exec o w = Ok (s, w') ->
  all_logs log_low (history_hash_table w').
Proof.
  intros Ht Ha.
  destruct o as [tv object mtags line|now object ml mt|object|now];
    simpl in *.
  - destruct (hbm_history_add tv object mtags line w) as [[r w1]|] eqn:E;
      [|done].
    simpl. intros [= _ <-].
    exact (all_logs_add log_low
             (fun tv mtags line => 0 < hl_t (new_log_line tv mtags line))
             log_low_new log_low_limits log_low_del log_low_add
             _ _ _ _ _ _ _ Ht Ha E).
  - intros [= _ <-].
    exact (all_logs_set_limit log_low log_low_new log_low_limits
             log_low_cleanup _ _ _ _ _ Ha).
  - destruct (hbm_history_destroy object w) as [[r w1]|] eqn:E; [|done].
    simpl. intros [= _ <-]. exact (all_logs_destroy log_low _ _ _ _ Ha E).
  - intros H. by destruct (history_mem_clean_low now w s w' Ha H).
Qed.

Lemma run_low ops : forall w s w',
  Forall op_timed ops ->
  all_logs log_low (history_hash_table w) ->
  run ops w = Ok (s, w') ->
  all_logs log_low (history_hash_table w').
Proof.
  induction ops as [|o ops IH]; intros w s w' Ht Ha; simpl.
  - by intros [= _ <-].
  - inversion Ht as [|? ? Ho Ht']; subst.
    destruct (exec o w) as [[s1 w1]|] eqn:He; [|done].
    cbn [mbind outcome_bind].
    destruct (run ops w1) as [[s2 w2]|] eqn:Er; [|done].
    cbn [mbind outcome_bind]. intros [= _ <-].
    apply (IH w1 s2 w2 Ht'); [|done]. by apply (exec_low o w s1 w1).
Qed.

Lemma world_ok_low w :
  world_ok w -> all_logs oldest_low (history_hash_table w) ->
  all_logs log_low (history_hash_table w).
Proof.
  intros (_ & Ha & _) Hl.
  eapply all_logs_impl; [exact (all_logs_and _ _ _ Ha Hl)|].
  intros h ((Hc & _) & Ho). by split.
Qed.

(** X8.  The cached oldest time is a lower bound.  In a run whose [add]s
    store lines with positive times, [oldest_t] of every log stays at or
    below the time of each of its lines (and is 0 only for a log without
    lines), so that the shortcut of [hbm_history_cleanup], which skips the
    sweep by age when [oldest_t] is not below the red line, never skips a
    log that holds an expired line. *)
Theorem oldest_t_is_lower_bound (ops : list op) (w : world) :
  world_ok w ->
  admissible w ops ->
  Forall op_timed ops ->
  all_logs oldest_low (history_hash_table w) ->
  exists s w',
    run ops w = Ok (s, w')
    /\ all_logs (fun h =>
                   0 <= oldest_t h
                   /\ (oldest_t h = 0 -> h_lines h = [])
                   /\ (forall l, l ∈ h_lines h -> oldest_t h <= hl_t l))
         (history_hash_table w').
Proof.
  intros Hw Hadm Ht Hl.
  destruct (run_ok ops w Hw Hadm) as (s & w' & Hr & _).
  exists s, w'. split; [exact Hr|].
  pose proof (run_low ops w s w' Ht (world_ok_low w Hw Hl) Hr) as Ha.
  eapply all_logs_impl; [exact Ha|].
  intros h (_ & H0 & H1 & Hall). split; [done|]. split; [done|].
  rewrite Forall_forall in Hall. intros l Hin. by apply Hall.
Qed.

(** X9.  After a tick at time [now], no log in a bucket the tick swept
    holds a line older than [now - max_time], provided the cached oldest
    times were lower bounds before (which every run keeps). *)
Theorem tick_expires_old_lines (now : Z) (w : world) :
  world_ok w ->
  all_logs oldest_low (history_hash_table w) ->
  exists s w',
    history_mem_clean now w = Ok (s, w')
    /\ all_logs oldest_low (history_hash_table w')
    /\ (forall b h l,
          b ∈ s ->
          h ∈ chain_of (history_hash_table w') (Z.to_nat b) ->
          l ∈ h_lines h ->
          now - max_time h <= hl_t l).
Proof.
  intros Hw Hl.
  destruct (history_mem_clean_ok now w Hw) as (w' & Hr & _).
  do 2 eexists. split; [exact Hr|].
  destruct (history_mem_clean_low now w _ w' (world_ok_low w Hw Hl) Hr)
    as (Ha & Hsw).
  split.
  - eapply all_logs_impl; [exact Ha|]. by intros h (_ & ?).
  - intros b h l Hb Hh Hin.
    specialize (Hsw b Hb). rewrite Forall_forall in Hsw.
    destruct (Hsw h Hh) as (_ & Hf). unfold fresh in Hf.
    rewrite Forall_forall in Hf. by apply Hf.
Qed.

(** X10.  In a debug build [HISTORY_CLEAN_PER_LOOP] is the size of the
    table: the loop body of a tick runs 1020 times, sweeps every bucket
    (the one under the cursor twice), and leaves the cursor one bucket
    further. *)
Theorem debug_tick_sweeps_all (now : Z) (w : world) :
  DEBUGMODE = true ->
  world_ok w ->
  exists s w',
    history_mem_clean now w = Ok (s, w')
    /\ length s = 1020%nat
    /\ (forall b, 0 <= b < HISTORY_BACKEND_MEM_HASH_TABLE_SIZE -> b ∈ s)
    /\ hashnum w' = (hashnum w + 1) mod HISTORY_BACKEND_MEM_HASH_TABLE_SIZE.
Proof.
  intros Hdbg Hw.
  assert (HISTORY_CLEAN_PER_LOOP + 1 = 1020) as HP.
  { unfold HISTORY_CLEAN_PER_LOOP. by rewrite Hdbg. }
  destruct (history_mem_clean_ok now w Hw) as (w' & E & _ & Hn).
  rewrite HP in *. do 2 eexists. split; [exact E|].
  unfold HISTORY_BACKEND_MEM_HASH_TABLE_SIZE in *.
  split; [|split].
  - unfold swept_from. by rewrite length_fmap, length_seqZ.
  - intros b Hb. apply elem_of_swept_from.
    exists ((b - hashnum w) mod 1019).
    unfold HISTORY_BACKEND_MEM_HASH_TABLE_SIZE.
    pose proof (Z.mod_pos_bound (b - hashnum w) 1019).
    split; [lia|].
    rewrite Zplus_mod_idemp_r.
    replace (hashnum w + (b - hashnum w)) with b by lia.
    by rewrite Z.mod_small by lia.
  - rewrite Hn. replace (hashnum w + 1020) with (hashnum w + 1 + 1 * 1019)
      by lia.
    by rewrite Z_mod_plus_full.
Qed.


(** ** What reaches the disk *)

Lemma hbm_history_cleanup_name now h :
  h_name (hbm_history_cleanup now h) = h_name h.
Proof.
  assert (forall redline todo h i,
            h_name (cleanup_time_loop redline h i todo) = h_name h) as H1.
  { intros redline todo. induction todo as [|l todo IH]; intros h' i; simpl;
      [done|].
    destruct (_ <? _); rewrite IH; [done|]. by destruct (_ || _). }
  assert (forall todo h i,
            h_name (cleanup_lines_loop h i todo) = h_name h) as H2.
  { intros todo. induction todo as [|l todo IH]; intros h' i; simpl; [done|].
    destruct (_ >? _); rewrite IH; [done|]. by destruct (_ || _). }
  unfold hbm_history_cleanup.
  destruct (_ >? _); [rewrite H2; simpl|];
    (destruct (_ <? _); [by rewrite H1|done]).
Qed.

Lemma hbm_write_db_not_saved h w r h' w' :
  not_saved h ->
  hbm_write_db h w = Ok (r, h', w') ->
  r = 1 /\ h' = h /\ w' = w.
Proof.
  unfold not_saved, hbm_write_db. intros Hn.
  destruct (db_secret (cfg w)); [|done].
  assert (negb (find_channel (h_name h))
          || negb (has_channel_mode_P (h_name h)) = true) as ->
    by (by rewrite <- negb_andb, Hn).
  by intros [= <- <- <-].
Qed.

Lemma not_saved_cleanup now h :
  not_saved h -> not_saved (hbm_history_cleanup now h).
Proof. unfold not_saved. by rewrite hbm_history_cleanup_name. Qed.

Lemma clean_chain_quiet now chain : forall w chain' w',
  persist (cfg w) = false \/ Forall not_saved chain ->
  clean_chain now chain w = Ok (chain', w') ->
  w' = w /\ chain' = hbm_history_cleanup now <$> chain.
Proof.
  induction chain as [|h chain IH]; intros w chain' w' Hq; simpl.
  - by intros [= <- <-].
  - set (h1 := hbm_history_cleanup now h).
    assert (forall h2 w2,
              (if persist (cfg w) && dirty h1
               then hbm_write_db h1 w ≫= (fun '(_, h, w) => Ok (h, w))
               else Ok (h1, w)) = Ok (h2, w2) ->
              h2 = h1 /\ w2 = w) as Hstep.
    { intros h2 w2. destruct Hq as [-> |Hq]; [by intros [= <- <-]|].
      destruct (_ && _); [|by intros [= <- <-]].
      destruct (hbm_write_db h1 w) as [[[r h3] w3]|] eqn:E; [|done].
      simpl. intros [= <- <-].
      apply hbm_write_db_not_saved in E as (_ & -> & ->); [done|].
      apply not_saved_cleanup. by inversion Hq. }
    destruct (if persist (cfg w) && dirty h1 then _ else _)
      as [[h2 w2]|]; [|done].
    destruct (Hstep h2 w2 eq_refl) as (-> & ->).
    cbn [mbind outcome_bind].
    destruct (clean_chain now chain w) as [[rest w3]|] eqn:E; [|done].
    cbn [mbind outcome_bind]. intros [= <- <-].
    destruct (IH w rest w3) as (-> & ->); [|done|done].
    destruct Hq as [Hq|Hq]; [by left|right; by inversion Hq].
Qed.

Lemma clean_loop_quiet now : forall fuel loopcnt swept w s w',
  persist (cfg w) = false \/ all_logs not_saved (history_hash_table w) ->
  clean_loop fuel now loopcnt swept w = Ok (s, w') ->
  disk w' = disk w /\ notices w' = notices w /\ cfg w' = cfg w.
Proof.
  induction fuel as [|fuel IH]; intros loopcnt swept w s w' Hq; [done|].
  cbn [clean_loop]. unfold clean_bucket.
  destruct (clean_chain now _ w) as [[chain w0]|] eqn:E; [|done].
  apply clean_chain_quiet in E as (-> & ->).
  2:{ destruct Hq as [Hq|Hq]; [by left|right; by apply all_logs_chain]. }
  cbn [mbind outcome_bind].
  set (w1 := next_hashnum _).
  assert (disk w1 = disk w /\ notices w1 = notices w /\ cfg w1 = cfg w
          /\ (persist (cfg w1) = false
              \/ all_logs not_saved (history_hash_table w1)))
    as (Hd & Hn & Hc & Hq1).
  { unfold w1, next_hashnum. simpl.
    destruct (_ >=? _); simpl; repeat split; auto;
      (destruct Hq as [Hq|Hq]; [by left|right]);
      (apply Forall_insert; [done|]);
      (apply Forall_fmap; eapply Forall_impl;
       [by apply all_logs_chain|]; intros h Hh; by apply not_saved_cleanup). }
  destruct (_ <? _).
  - intros H. destruct (IH _ _ _ _ _ Hq1 H) as (? & ? & ?).
    repeat split; congruence.
  - by intros [= _ <-].
Qed.

(** X11.  The timer saves only what it must: when [persist] is off, or
    when no log belongs to a channel that exists and is [+P], a tick
    changes neither the disk nor the notices. *)
Theorem tick_without_P_leaves_disk (now : Z) (w : world) :
  world_ok w ->
  persist (cfg w) = false \/ all_logs not_saved (history_hash_table w) ->
  exists s w',
    history_mem_clean now w = Ok (s, w')
    /\ disk w' = disk w /\ notices w' = notices w.
Proof.
  intros Hw Hq.
  destruct (history_mem_clean_ok now w Hw) as (w' & Hr & _).
  do 2 eexists. split; [exact Hr|].
  unfold history_mem_clean in Hr.
  by destruct (clean_loop_quiet now _ _ _ _ _ _ Hq Hr) as (? & ? & _).
Qed.





(** ** The master file and the test of the configuration *)

Lemma salts_only_refl w : salts_only w w.
Proof. by repeat split. Qed.

Lemma salts_only_trans w1 w2 w3 :
  salts_only w1 w2 -> salts_only w2 w3 -> salts_only w1 w3.
Proof.
  intros (?&?&?&?&?&?&?&?) (?&?&?&?&?&?&?&?). repeat split; congruence.
Qed.

Lemma hbm_write_masterdb_frame w r w' :
  hbm_write_masterdb w = Ok (r, w') -> salts_only w w'.
Proof.
  unfold hbm_write_masterdb.
  destruct (db_secret (test w)); [|done].
  destruct (masterdb (test w)); [|intros [= _ <-]; by repeat split].
  destruct (unrealdb_open_write _ _ _) as [[db fs]|];
    [|intros [= _ <-]; by repeat split].
  cbv [W_SAFE unrealdb_write_int32 unrealdb_write_str]. simpl.
  destruct (prehash (cfg w)) as [cpre|] eqn:Epre; simpl; rewrite ?Epre;
    simpl;
    (destruct (posthash (cfg w)) as [cpost|] eqn:Epost; simpl;
     rewrite ?Epre, ?Epost; simpl);
    intros [= _ <-]; by repeat split.
Qed.

Lemma hbm_read_masterdb_frame w r w' :
  hbm_read_masterdb w = Ok (r, w') -> salts_only w w'.
Proof.
  unfold hbm_read_masterdb.
  destruct (match masterdb (test w) with
            | Some fname => unrealdb_open_read fname (db_secret (test w)) (disk w)
            | None => inr UNREALDB_ERROR_OTHER
            end) as [db|[|]].
  - destruct (unrealdb_read_int32 db) as [[v db1]|];
      [|intros [= _ <-]; by repeat split].
    destruct (unrealdb_read_str db1) as [[pre db2]|];
      [|intros [= _ <-]; by repeat split].
    destruct (unrealdb_read_str db2) as [[post db3]|];
      intros [= _ <-]; by repeat split.
  - destruct (hbm_write_masterdb _) as [[r1 w1]|] eqn:E; [|done].
    apply hbm_write_masterdb_frame in E. simpl.
    destruct (r1 =? 0); intros [= _ <-];
      (eapply salts_only_trans; [|exact E]); by repeat split.
  - intros [= _ <-]. by repeat split.
Qed.

(** What [hbm_write_masterdb] writes. *)
Lemma hbm_write_masterdb_spec w sec fname :
  db_secret (test w) = Some sec ->
  masterdb (test w) = Some fname ->
  fname ∉ fs_dirs (disk w) ->
  let pre := default (gen_random_alnum (rng w) 128) (prehash (cfg w)) in
  let k := match prehash (cfg w) with
           | Some _ => rng w
           | None => S (rng w)
           end in
  let post := default (gen_random_alnum k 128) (posthash (cfg w)) in
  exists w1,
    hbm_write_masterdb w = Ok (1, w1)
    /\ prehash (cfg w1) = Some pre /\ posthash (cfg w1) = Some post
    /\ fs_files (disk w1)
       = <[fname := master_file (Some sec) (Some pre) (Some post)]>
           (fs_files (disk w))
    /\ fs_dirs (disk w1) = fs_dirs (disk w)
    /\ notices w1 = notices w.
Proof.
  intros Hsec Hm Hnd pre k post. unfold hbm_write_masterdb.
  rewrite Hsec, Hm. unfold unrealdb_open_write.
  rewrite decide_False by done.
  cbv [W_SAFE unrealdb_write_int32 unrealdb_write_str udb_put udb_rest
       unrealdb_close_write].
  replace (5000 mod 2 ^ 32) with 5000 by reflexivity.
  unfold pre, post, k, master_file. simpl.
  destruct (prehash (cfg w)) as [cpre|] eqn:Epre; simpl; rewrite ?Epre;
    simpl;
    (destruct (posthash (cfg w)) as [cpost|] eqn:Epost; simpl;
     rewrite ?Epre, ?Epost; simpl);
    (eexists; split; [reflexivity|]); simpl; rewrite ?Epre, ?Epost;
    by rewrite insert_insert_eq.
Qed.

(** X15.  First boot: when the master file is missing,
    [hbm_read_masterdb] warns, creates it with version 5000 and the two
    salts (those of the live configuration when they are set, drawn from
    the generator otherwise) under the secret of the tested configuration,
    and returns 1.  Reading the file it wrote gives the same two salts
    back. *)
Theorem masterdb_created_then_read (w : world) (sec fname : string) :
  db_secret (test w) = Some sec ->
  masterdb (test w) = Some fname ->
  fs_files (disk w) !! fname = None ->
  fname ∉ fs_dirs (disk w) ->
  exists w1 pre post,
    hbm_read_masterdb w = Ok (1, w1)
    /\ prehash (cfg w1) = Some pre /\ posthash (cfg w1) = Some post
    /\ (forall s, prehash (cfg w) = Some s -> pre = s)
    /\ (forall s, posthash (cfg w) = Some s -> post = s)
    /\ notices w1 = notices w ++ [Warn_no_database (masterdb (cfg w))]
    /\ fs_files (disk w1) !! fname
       = Some (master_file (Some sec) (Some pre) (Some post))
    /\ (forall w2,
          test w2 = test w -> disk w2 = disk w1 ->
          exists w3,
            hbm_read_masterdb w2 = Ok (1, w3)
            /\ prehash (cfg w3) = Some pre /\ posthash (cfg w3) = Some post
            /\ disk w3 = disk w2 /\ notices w3 = notices w2).
Proof.
  intros Hsec Hm Hnone Hnd.
  destruct (hbm_write_masterdb_spec
              (notify (Warn_no_database (masterdb (cfg w))) w) sec fname
              Hsec Hm Hnd)
    as (w1 & Hw & Hpre & Hpost & Hfiles & _ & Hn).
  simpl in Hpre, Hpost, Hfiles, Hn.
  exists w1. do 2 eexists.
  split.
  { unfold hbm_read_masterdb. rewrite Hm. unfold unrealdb_open_read.
    rewrite Hnone. rewrite Hw. reflexivity. }
  split; [exact Hpre|]. split; [exact Hpost|].
  split; [by intros s ->|]. split.
  { intros s Hs. rewrite Hs. done. }
  split; [exact Hn|]. split; [by rewrite Hfiles, lookup_insert_eq|].
  intros w2 Ht Hd. unfold hbm_read_masterdb.
  rewrite Ht, Hm, Hsec. unfold unrealdb_open_read.
  rewrite Hd, Hfiles, lookup_insert_eq. simpl.
  rewrite decide_True by done.
  eexists. split; [reflexivity|]. by repeat split.
Qed.

(** X16.  Whatever its result, [hbm_config_posttest] returns 1 with
    [*errs = 0] or -1 with [*errs = 1] and touches neither the table of
    logs nor the live configuration other than its two salts.  Of the
    tested configuration it leaves what [freecfg] and [setcfg] make of it:
    the secret and the two salts are freed, the directory is the default
    again, and [persist] stays as the entries tested had set it. *)
Theorem posttest_result (w : world) (r errs : Z) (w' : world) :
  hbm_config_posttest w = Ok (r, errs, w') ->
  (r = 1 /\ errs = 0 \/ r = -1 /\ errs = 1)
  /\ test w' = setcfg (freecfg (test w))
  /\ history_hash_table w' = history_hash_table w
  /\ hashnum w' = hashnum w
  /\ already_loaded w' = already_loaded w
  /\ persist (cfg w') = persist (cfg w)
  /\ directory (cfg w') = directory (cfg w)
  /\ masterdb (cfg w') = masterdb (cfg w)
  /\ db_secret (cfg w') = db_secret (cfg w)
  /\ persist (test w') = persist (test w)
  /\ directory (test w') = Some (convert_to_absolute_path "history")
  /\ db_secret (test w') = None
  /\ prehash (test w') = None
  /\ posthash (test w') = None.
Proof.
  unfold hbm_config_posttest.
  set (body := if bool_decide (is_Some (db_secret (test w)))
                  && negb (persist (test w)) then _ else _).
  assert (forall e w1, body = Ok (e, w1) ->
            (e = 0 \/ e = 1) /\ salts_only w w1) as Hbody.
  { intros e w1. unfold body.
    destruct (_ && _); [intros [= <- <-]; split; [by right|by repeat split]|].
    destruct (_ && _); [intros [= <- <-]; split; [by right|by repeat split]|].
    destruct (_ && _); [|intros [= <- <-]; split; [by left|by repeat split]].
    destruct (masterdb (test w) ≫= _);
      [intros [= <- <-]; split; [by right|by repeat split]|].
    destruct (negb _);
      [intros [= <- <-]; split; [by right|];
       destruct (directory (test w)); by repeat split|].
    destruct (hbm_read_masterdb _) as [[r1 w2]|] eqn:E; [|done].
    apply hbm_read_masterdb_frame in E. simpl. intros [= <- <-].
    split; [destruct (r1 =? 0); by auto|].
    eapply salts_only_trans; [|exact E].
    destruct (directory (test w)); by repeat split. }
  destruct body as [[e w1]|]; [|done].
  destruct (Hbody e w1 eq_refl) as (He & Ht & Htb & Hh & Hl & Hp & Hd & Hm & Hs).
  cbn [mbind outcome_bind]. intros [= <- <- <-]. simpl.
  rewrite Ht. split; [destruct He as [-> | ->]; by auto|].
  by repeat split.
Qed.

(** X17.  The errors of [hbm_config_posttest]: a secret without [persist],
    [persist] without a secret, a master file the secret does not open
    (the directory is then not even created) and a directory that does not
    exist and cannot be created each give -1 with one error and the
    message of their case; without secret and without [persist] the test
    passes and nothing but the tested configuration changes. *)
Theorem posttest_errors (w : world) :
  let t := test w in
  let reset := set_test (setcfg (freecfg t)) in
  (is_Some (db_secret t) -> persist t = false ->
   hbm_config_posttest w
   = Ok (-1, 1, reset (notify Error_secret_without_persist w)))
  /\ (db_secret t = None -> persist t = true ->
      hbm_config_posttest w
      = Ok (-1, 1, reset (notify Error_persist_without_secret w)))
  /\ (db_secret t = None -> persist t = false ->
      hbm_config_posttest w = Ok (1, 0, reset w))
  /\ (forall m errstr,
        is_Some (db_secret t) -> persist t = true ->
        masterdb t = Some m ->
        unrealdb_test_db (disk w) m (db_secret t) = Some errstr ->
        hbm_config_posttest w
        = Ok (-1, 1, reset (notify (Error_test_db errstr) w)))
  /\ (forall d,
        is_Some (db_secret t) -> persist t = true ->
        masterdb t ≫= (fun m => unrealdb_test_db (disk w) m (db_secret t))
        = None ->
        directory t = Some d ->
        mkdir_allowed d = false ->
        file_exists d (disk w) = false ->
        hbm_config_posttest w
        = Ok (-1, 1, reset (notify (Error_no_directory (Some d)) w))).
Proof.
  intros t reset. unfold hbm_config_posttest. fold t.
  split; [|split; [|split; [|split]]].
  - intros Hs Hp. rewrite Hp. by rewrite bool_decide_eq_true_2.
  - intros Hs Hp. by rewrite Hs, Hp.
  - intros Hs Hp. by rewrite Hs, Hp.
  - intros m errstr Hs Hp Hm He. rewrite Hp, Hm.
    rewrite bool_decide_eq_true_2 by done. simpl. by rewrite He.
  - intros d Hs Hp Hm Hd Hmk Hex. rewrite Hp, Hm, Hd.
    rewrite bool_decide_eq_true_2 by done. simpl.
    unfold mkdir. rewrite Hmk. simpl. by rewrite Hex.
Qed.


(** ** The configuration hooks *)

(** X18.  The test hook and the run hook claim the same entries: the one
    returns 0 exactly when the other does (another block, a NULL entry, an
    entry without name, a name other than [persist], [db-secret] and
    [directory]).  The test hook then leaves [*errs] and everything else
    alone; otherwise it returns 1 with [*errs = 0] or -1 with [*errs = 1]
    and one message.  The test hook writes the tested configuration only,
    the run hook the live one only, and never its salts. *)
Theorem config_test_and_run_agree (host : config_host) (type : Z)
  (ce : option ConfigEntry) (errs : Z) (w : world) :
  let '(r, errs', msgs, w1) := hbm_config_test host type ce errs w in
  let '(r2, w2) := hbm_config_run host type ce w in
  (r = 0 <-> r2 = 0)
  /\ (r = 0 /\ errs' = errs /\ msgs = [] /\ w1 = w
      \/ r = 1 /\ errs' = 0 /\ msgs = []
      \/ r = -1 /\ errs' = 1 /\ length msgs = 1%nat)
  /\ (r2 = 0 /\ w2 = w \/ r2 = 1)
  /\ cfg w1 = cfg w /\ history_hash_table w1 = history_hash_table w
  /\ disk w1 = disk w /\ notices w1 = notices w
  /\ test w2 = test w /\ history_hash_table w2 = history_hash_table w
  /\ disk w2 = disk w /\ notices w2 = notices w
  /\ prehash (cfg w2) = prehash (cfg w)
  /\ posthash (cfg w2) = posthash (cfg w).
Proof.
  assert (forall e : Z,
            (0 = 0 <-> 0 = 0)
            /\ (0 = 0 /\ e = e /\ @nil config_message = [] /\ w = w
                \/ 0 = 1 /\ e = 0 /\ @nil config_message = []
                \/ 0 = -1 /\ e = 1 /\ length (@nil config_message) = 1%nat)
            /\ (0 = 0 /\ w = w \/ 0 = 1)
            /\ cfg w = cfg w /\ history_hash_table w = history_hash_table w
            /\ disk w = disk w /\ notices w = notices w
            /\ test w = test w /\ history_hash_table w = history_hash_table w
            /\ disk w = disk w /\ notices w = notices w
            /\ prehash (cfg w) = prehash (cfg w)
            /\ posthash (cfg w) = posthash (cfg w)) as Hskip.
  { intros e. split; [done|]. split; [by left|]. split; [by left|done]. }
  unfold hbm_config_test, hbm_config_run.
  destruct (negb _); [apply Hskip|].
  destruct ce as [ce|]; [|apply Hskip].
  destruct (ce_varname ce) as [name|]; [|apply Hskip].
  destruct (strcmp_eq name "persist") eqn:E1.
  { destruct (ce_vardata ce); simpl.
    - split; [done|]. split; [by right; left|]. split; [by right|done].
    - split; [done|]. split; [by right; right|]. split; [by right|done]. }
  destruct (strcmp_eq name "db-secret") eqn:E2.
  { apply String.eqb_eq in E2. subst name. simpl.
    destruct (unrealdb_test_secret host _); simpl.
    - split; [done|]. split; [by right; right|]. split; [by right|done].
    - split; [done|]. split; [by right; left|]. split; [by right|done]. }
  destruct (strcmp_eq name "directory") eqn:E3.
  { destruct (ce_vardata ce); simpl.
    - split; [done|]. split; [by right; left|]. split; [by right|done].
    - split; [done|]. split; [by right; right|]. split; [by right|done]. }
  apply Hskip.
Qed.


Lemma hbm_config_test_step host ce w :
  let w1 := (hbm_config_test host (CONFIG_SET_HISTORY_CHANNEL host)
               (Some ce) 0 w).2 in
  cfg w1 = cfg w /\ disk w1 = disk w /\ notices w1 = notices w
  /\ history_hash_table w1 = history_hash_table w
  /\ (ce_varname ce <> Some "persist" -> persist (test w1) = persist (test w))
  /\ (ce_varname ce <> Some "db-secret" ->
      db_secret (test w1) = db_secret (test w))
  /\ (ce_varname ce = Some "db-secret" ->
      db_secret (test w1) = ce_vardata ce)
  /\ (ce_varname ce = Some "persist" -> is_Some (ce_vardata ce) ->
      persist (test w1) = config_checkval_yesno host (ce_vardata ce)).
Proof.
  unfold hbm_config_test. rewrite Z.eqb_refl. simpl.
  destruct (ce_varname ce) as [name|]; [|by repeat split].
  destruct (strcmp_eq name "persist") eqn:E1.
  { apply String.eqb_eq in E1. subst name.
    destruct (ce_vardata ce) eqn:Ed; simpl; repeat split; done. }
  apply String.eqb_neq in E1.
  destruct (strcmp_eq name "db-secret") eqn:E2.
  { apply String.eqb_eq in E2. subst name.
    destruct (unrealdb_test_secret host _); simpl; repeat split; done. }
  apply String.eqb_neq in E2.
  destruct (strcmp_eq name "directory") eqn:E3.
  { destruct (ce_vardata ce); simpl; repeat split; congruence. }
  simpl. repeat split; congruence.
Qed.

Lemma config_test_all_frame host es : forall w,
  let w' := config_test_all host es w in
  cfg w' = cfg w /\ disk w' = disk w /\ notices w' = notices w
  /\ history_hash_table w' = history_hash_table w.
Proof.
  induction es as [|ce es IH]; intros w; simpl; [done|].
  destruct (hbm_config_test_step host ce w) as (E1 & E2 & E3 & E4 & _).
  destruct (IH (hbm_config_test host (CONFIG_SET_HISTORY_CHANNEL host)
                  (Some ce) 0 w).2) as (F1 & F2 & F3 & F4).
  unfold config_test_all in *. repeat split; congruence.
Qed.

Lemma config_test_all_persist host es : forall w,
  Forall (fun ce => ce_varname ce <> Some "persist") es ->
  persist (test (config_test_all host es w)) = persist (test w).
Proof.
  induction es as [|ce es IH]; intros w Hall; simpl; [done|].
  inversion Hall as [|? ? Hce Hall']; subst.
  destruct (hbm_config_test_step host ce w) as (_ & _ & _ & _ & E & _).
  unfold config_test_all in *. rewrite IH by done. by apply E.
Qed.

Lemma config_test_all_no_secret host es : forall w,
  Forall (fun ce => ce_varname ce <> Some "db-secret") es ->
  db_secret (test (config_test_all host es w)) = db_secret (test w).
Proof.
  induction es as [|ce es IH]; intros w Hall; simpl; [done|].
  inversion Hall as [|? ? Hce Hall']; subst.
  destruct (hbm_config_test_step host ce w) as (_ & _ & _ & _ & _ & E & _).
  unfold config_test_all in *. rewrite IH by done. by apply E.
Qed.

Lemma config_test_all_secret host es : forall w,
  Forall (fun ce => ce_varname ce = Some "db-secret" ->
                    is_Some (ce_vardata ce)) es ->
  is_Some (db_secret (test w))
  \/ Exists (fun ce => ce_varname ce = Some "db-secret") es ->
  is_Some (db_secret (test (config_test_all host es w))).
Proof.
  induction es as [|ce es IH]; intros w Hall Hex; simpl.
  - destruct Hex as [|Hex]; [done|by inversion Hex].
  - inversion Hall as [|? ? Hce Hall']; subst.
    destruct (hbm_config_test_step host ce w)
      as (_ & _ & _ & _ & _ & Eno & Eyes & _).
    unfold config_test_all in *. apply IH; [done|].
    destruct (decide (ce_varname ce = Some "db-secret")) as [Hn|Hn].
    + left. rewrite (Eyes Hn). by apply Hce.
    + rewrite (Eno Hn).
      destruct Hex as [|Hex]; [by left|].
      inversion Hex; subst; [done|by right].
Qed.

Lemma config_test_all_yes host es : forall w,
  Forall (fun ce => ce_varname ce = Some "persist" ->
                    is_Some (ce_vardata ce)
                    /\ config_checkval_yesno host (ce_vardata ce) = true) es ->
  persist (test w) = true
  \/ Exists (fun ce => ce_varname ce = Some "persist") es ->
  persist (test (config_test_all host es w)) = true.
Proof.
  induction es as [|ce es IH]; intros w Hall Hex; simpl.
  - destruct Hex as [|Hex]; [done|by inversion Hex].
  - inversion Hall as [|? ? Hce Hall']; subst.
    destruct (hbm_config_test_step host ce w)
      as (_ & _ & _ & _ & Eno & _ & _ & Eyes).
    unfold config_test_all in *. apply IH; [done|].
    destruct (decide (ce_varname ce = Some "persist")) as [Hn|Hn].
    + left. destruct (Hce Hn) as (Hd & Hy). by rewrite (Eyes Hn Hd).
    + rewrite (Eno Hn).
      destruct Hex as [|Hex]; [by left|].
      inversion Hex; subst; [done|by right].
Qed.

(** X19.  A secret and [persist] go together.  After the entries of a
    block that gives a [db-secret] but never [persist] have been tested
    (from a state in which [persist] is off), whatever those tests
    returned, the test after the configuration fails with the message of
    that case; and so it does after a block that turns [persist] on but
    never gives a secret.  In both cases the disk is not touched. *)
Theorem config_secret_and_persist (host : config_host)
  (es : list ConfigEntry) (w : world) :
  (persist (test w) = false ->
   Forall (fun ce => ce_varname ce <> Some "persist") es ->
   Exists (fun ce => ce_varname ce = Some "db-secret") es ->
   Forall (fun ce => ce_varname ce = Some "db-secret" ->
                     is_Some (ce_vardata ce)) es ->
   exists w',
     hbm_config_posttest (config_test_all host es w) = Ok (-1, 1, w')
     /\ notices w' = notices w ++ [Error_secret_without_persist]
     /\ disk w' = disk w /\ cfg w' = cfg w)
  /\ (db_secret (test w) = None ->
      Forall (fun ce => ce_varname ce <> Some "db-secret") es ->
      Exists (fun ce => ce_varname ce = Some "persist") es ->
      Forall (fun ce => ce_varname ce = Some "persist" ->
                        is_Some (ce_vardata ce)
                        /\ config_checkval_yesno host (ce_vardata ce) = true)
        es ->
      exists w',
        hbm_config_posttest (config_test_all host es w) = Ok (-1, 1, w')
        /\ notices w' = notices w ++ [Error_persist_without_secret]
        /\ disk w' = disk w /\ cfg w' = cfg w).
Proof.
  destruct (config_test_all_frame host es w) as (Hc & Hd & Hn & _).
  split.
  - intros Hp Hnp Hex Hdata.
    pose proof (config_test_all_persist host es w Hnp) as Hp'.
    pose proof (config_test_all_secret host es w Hdata (or_intror Hex)) as Hs.
    rewrite Hp in Hp'. unfold hbm_config_posttest.
    rewrite Hp', bool_decide_eq_true_2 by done. simpl.
    eexists. split; [reflexivity|]. simpl. by rewrite Hn, Hd, Hc.
  - intros Hs Hns Hex Hyes.
    pose proof (config_test_all_no_secret host es w Hns) as Hs'.
    pose proof (config_test_all_yes host es w Hyes (or_intror Hex)) as Hp.
    rewrite Hs in Hs'. unfold hbm_config_posttest.
    rewrite Hs', Hp. simpl.
    eexists. split; [reflexivity|]. simpl. by rewrite Hn, Hd, Hc.
Qed.

Lemma hbm_config_run_step host type ce w :
  let w1 := (hbm_config_run host type ce w).2 in
  prehash (cfg w1) = prehash (cfg w) /\ posthash (cfg w1) = posthash (cfg w)
  /\ history_hash_table w1 = history_hash_table w /\ disk w1 = disk w
  /\ test w1 = test w /\ notices w1 = notices w.
Proof.
  unfold hbm_config_run. destruct (negb _); [done|].
  destruct ce as [ce|]; [|done].
  destruct (ce_varname ce) as [name|]; [|done].
  by destruct (strcmp_eq name "persist"), (strcmp_eq name "directory"),
             (strcmp_eq name "db-secret").
Qed.

Lemma config_run_all_salts host es : forall w,
  let w' := config_run_all host es w in
  prehash (cfg w') = prehash (cfg w) /\ posthash (cfg w') = posthash (cfg w)
  /\ history_hash_table w' = history_hash_table w /\ disk w' = disk w
  /\ test w' = test w /\ notices w' = notices w.
Proof.
  induction es as [|ce es IH]; intros w; simpl; [done|].
  destruct (hbm_config_run_step host (CONFIG_SET_HISTORY_CHANNEL host)
              (Some ce) w) as (E1 & E2 & E3 & E4 & E5 & E6).
  destruct (IH (hbm_config_run host (CONFIG_SET_HISTORY_CHANNEL host)
                  (Some ce) w).2) as (F1 & F2 & F3 & F4 & F5 & F6).
  unfold config_run_all in *. repeat split; congruence.
Qed.

(** X20.  [hbm_rehash] frees the secret and the two salts of the live
    configuration, and [hbm_config_run] sets the secret, the directory and
    [persist] but never the salts: after a rehash and the entries of the
    new configuration the salts are NULL, the logs and the disk are as
    before, and, until [hbm_read_masterdb] has read the master file again,
    [hbm_history_filename] ends in [abort()] and so does [hbm_write_db]
    for a channel that exists and is [+P]. *)
Theorem rehash_clears_salts (host : config_host) (es : list ConfigEntry)
  (w : world) :
  let w' := config_run_all host es (hbm_rehash w).2 in
  prehash (cfg w') = None /\ posthash (cfg w') = None
  /\ history_hash_table w' = history_hash_table w /\ disk w' = disk w
  /\ (forall h, hbm_history_filename h w' = Fault Aborted)
  /\ (forall h, find_channel (h_name h) = true ->
                has_channel_mode_P (h_name h) = true ->
                hbm_write_db h w' = Fault Aborted)
  /\ (es = [] ->
      persist (cfg w') = persist (cfg w) /\ db_secret (cfg w') = None
      /\ directory (cfg w') = Some (convert_to_absolute_path "history")).
Proof.
  intros w'.
  destruct (config_run_all_salts host es (hbm_rehash w).2)
    as (Hpre & Hpost & Ht & Hd & _).
  fold w' in Hpre, Hpost, Ht, Hd. simpl in Hpre, Hpost, Ht, Hd.
  assert (forall h, hbm_history_filename h w' = Fault Aborted) as Hfn.
  { intros h. unfold hbm_history_filename. by rewrite Hpre. }
  split; [done|]. split; [done|]. split; [done|]. split; [done|].
  split; [exact Hfn|]. split.
  - intros h Hc Hm. unfold hbm_write_db. rewrite Hc, Hm, Hfn. simpl.
    by destruct (db_secret (cfg w')).
  - intros ->. by unfold w'.
Qed.


(** ** Loading: what a read can do *)

Lemma same_control_refl w : same_control w w.
Proof. by repeat split. Qed.

Lemma same_control_trans w1 w2 w3 :
  same_control w1 w2 -> same_control w2 w3 -> same_control w1 w3.
Proof. intros (?&?&?&?&?) (?&?&?&?&?). repeat split; congruence. Qed.

Lemma hbm_history_add_control tv object mtags line w r w' :
  hbm_history_add tv object mtags line w = Ok (r, w') ->
  same_control w w' /\ disk w' = disk w.
Proof.
  unfold hbm_history_add.
  destruct (hbm_find_or_add_object _ _) as [[p h] tbl].
  destruct (max_lines h =? 0); [destruct DEBUGMODE; [done|]|];
    cbn [mbind outcome_bind];
    (destruct (_ >=? _); [destruct (h_lines _); [done|]|]);
    cbn [mbind outcome_bind]; intros [= _ <-]; by repeat split.
Qed.

Lemma read_entries_loop_result tv fname object p w0 : forall fuel w db,
  same_control w0 w -> disk w = disk w0 ->
  read_result w0 fname (read_entries_loop fuel tv fname object p w db).
Proof.
  induction fuel as [|fuel IH]; intros w db Hw Hd;
    cbn [read_entries_loop]; [done|].
  assert (forall n, warns_about fname n ->
                    read_result w0 fname (Ok (0, notify n w))) as Hnote.
  { intros n Hn r w' [= <- <-]. split; [exact Hw|]. left.
    split; [done|]. split; [done|]. exists n. split; [apply last_snoc|done]. }
  apply R_SAFE_post; [by apply Hnote|]. intros magic db1 _.
  destruct (magic =? HISTORYDB_MAGIC_FILE_END).
  { destruct (deref _ _); [|done]. intros r w' [= <- <-].
    split; [exact Hw|]. right. split; [done|by left]. }
  destruct (negb _); [by apply Hnote|].
  apply R_SAFE_post; [by apply Hnote|]. intros ts db2 _.
  apply read_mtags_loop_post; [by apply Hnote|done|]. intros m db3.
  apply R_SAFE_post; [by apply Hnote|]. intros line db4 _.
  apply R_SAFE_post; [by apply Hnote|]. intros magic2 db5 _.
  destruct (negb _); [by apply Hnote|].
  destruct (to_mtags m) as [mtags|]; [|by destruct line].
  destruct line as [line|]; [|done].
  destruct (hbm_history_add tv object mtags line w) as [[r1 w1]|] eqn:Ea;
    [|done].
  destruct (hbm_history_add_control _ _ _ _ _ _ _ Ea) as (Hc & Hd1).
  apply IH; [by eapply same_control_trans|congruence].
Qed.

Lemma hbm_read_db_result tv fname w :
  read_result w fname (hbm_read_db tv fname w).
Proof.
  unfold hbm_read_db.
  assert (forall n, warns_about fname n ->
                    read_result w fname (Ok (0, notify n w))) as Hnote.
  { intros n Hn r w' [= <- <-]. split; [by repeat split|]. left.
    split; [done|]. split; [done|]. exists n. split; [apply last_snoc|done]. }
  destruct (unrealdb_open_read _ _ _) as [db|e]; [|by apply Hnote].
  apply R_SAFE_post; [by apply Hnote|]. intros magic db1 _.
  destruct (negb _); [by apply Hnote|].
  apply R_SAFE_post; [by apply Hnote|]. intros version db2 _.
  destruct (version <? 4999); [by apply Hnote|].
  destruct (version >? 5000); [by apply Hnote|].
  apply R_SAFE_post; [by apply Hnote|]. intros pre db3 _.
  apply R_SAFE_post; [by apply Hnote|]. intros post db4 _.
  destruct pre as [pre|]; [|by apply Hnote].
  destruct post as [post|]; [|by apply Hnote].
  destruct (prehash (cfg w)) as [cpre|]; [|done].
  destruct (negb _); [by apply Hnote|].
  destruct (posthash (cfg w)) as [cpost|]; [|done].
  destruct (negb _); [by apply Hnote|].
  apply R_SAFE_post; [by apply Hnote|]. intros object db5 _.
  apply R_SAFE_post; [by apply Hnote|]. intros ml db6 _.
  apply R_SAFE_post; [by apply Hnote|]. intros mt db7 _.
  destruct object as [object|]; [|done].
  destruct (hbm_find_object _ _) as [[p h]|].
  - apply read_entries_loop_result; [apply same_control_refl|done].
  - intros r w' [= <- <-]. split; [by repeat split|]. right.
    split; [done|]. right. by split.
Qed.

(** X21.  The checks on the head of a file.  A file that is missing or
    does not open with the secret, a first word that is not the file magic,
    a version below 4999 or above 5000: each makes [hbm_read_db] return 0
    with the warning of its case, and nothing else changes. *)
Theorem read_db_header_checks (tv : timeval) (fname : string) (w : world) :
  (fs_files (disk w) !! fname = None ->
   hbm_read_db tv fname w = Ok (0, notify (Warn_open_failed fname) w))
  /\ (forall f,
        fs_files (disk w) !! fname = Some f ->
        (db_key f <> db_secret (cfg w) ->
         hbm_read_db tv fname w = Ok (0, notify (Warn_open_failed fname) w))
        /\ (forall magic rest,
              db_key f = db_secret (cfg w) ->
              db_items f = DbInt32 magic :: rest ->
              magic <> HISTORYDB_MAGIC_FILE_START ->
              hbm_read_db tv fname w
              = Ok (0, notify (Warn_wrong_magic fname magic
                                 HISTORYDB_MAGIC_FILE_START) w))
        /\ (forall version rest,
              db_key f = db_secret (cfg w) ->
              db_items f = DbInt32 HISTORYDB_MAGIC_FILE_START
                           :: DbInt32 version :: rest ->
              (version < 4999 ->
               hbm_read_db tv fname w
               = Ok (0, notify (Warn_old_format fname version) w))
              /\ (version > 5000 ->
                  hbm_read_db tv fname w
                  = Ok (0, notify (Warn_new_format fname version) w)))).
Proof.
  split.
  { intros Hf. unfold hbm_read_db, unrealdb_open_read. by rewrite Hf. }
  intros f Hf. split; [|split].
  - intros Hk. unfold hbm_read_db, unrealdb_open_read.
    by rewrite Hf, decide_False.
  - intros magic rest Hk Hi Hm. unfold hbm_read_db, unrealdb_open_read.
    rewrite Hf, decide_True by done.
    unfold R_SAFE, unrealdb_read_int32. simpl. rewrite Hi.
    assert ((magic =? HISTORYDB_MAGIC_FILE_START) = false) as -> by lia.
    done.
  - intros version rest Hk Hi.
    assert (forall k,
              hbm_read_db tv fname w
              = (if version <? 4999 then
                   Ok (0, notify (Warn_old_format fname version) w)
                 else if version >? 5000 then
                   Ok (0, notify (Warn_new_format fname version) w)
                 else k) \/ 4999 <= version <= 5000) as Hv.
    { intros k. unfold hbm_read_db, unrealdb_open_read.
      rewrite Hf, decide_True by done.
      unfold R_SAFE, unrealdb_read_int32. simpl. rewrite Hi. simpl.
      destruct (version <? 4999) eqn:E1; [by left|].
      destruct (version >? 5000) eqn:E2; [by left|]. right. lia. }
    split; intros Hlt;
      (destruct (Hv (Fault Aborted)) as [-> |?]; [|lia]).
    + by assert ((version <? 4999) = true) as -> by lia.
    + assert ((version <? 4999) = false) as -> by lia.
      by assert ((version >? 5000) = true) as -> by lia.
Qed.

(** X22.  A file for a name that has no log (the channel is not [+H]
    any more): [hbm_read_db] says so, removes the file, changes no log and
    returns 1. *)
Theorem read_db_unknown_object (tv : timeval) (fname : string) (w : world)
  (f : dbfile) (version max_lines_ max_time_ : Z) (pre post object : string)
  (rest : list dbitem) :
  fs_files (disk w) !! fname = Some f ->
  db_key f = db_secret (cfg w) ->
  db_items f = DbInt32 HISTORYDB_MAGIC_FILE_START :: DbInt32 version
               :: DbStr (Some pre) :: DbStr (Some post)
               :: DbStr (Some object) :: DbInt64 max_lines_
               :: DbInt64 max_time_ :: rest ->
  4999 <= version <= 5000 ->
  prehash (cfg w) = Some pre ->
  posthash (cfg w) = Some post ->
  hbm_find_object (history_hash_table w) object = None ->
  exists w',
    hbm_read_db tv fname w = Ok (1, w')
    /\ notices w' = notices w ++ [Warn_no_channel object]
    /\ fs_files (disk w') !! fname = None
    /\ (forall q, q <> fname ->
          fs_files (disk w') !! q = fs_files (disk w) !! q)
    /\ history_hash_table w' = history_hash_table w.
Proof.
  intros Hf Hk Hi Hv Hpre Hpost Hnone.
  unfold hbm_read_db, unrealdb_open_read. rewrite Hf.
  rewrite decide_True by done.
  unfold R_SAFE, unrealdb_read_int32, unrealdb_read_str, unrealdb_read_int64.
  simpl. rewrite Hi. simpl.
  assert ((version <? 4999) = false) as -> by lia.
  assert ((version >? 5000) = false) as -> by lia.
  rewrite Hpre, Hpost. unfold strcmp_eq. rewrite !String.eqb_refl. simpl.
  rewrite Hnone. eexists. split; [reflexivity|]. simpl.
  split; [done|]. split; [apply lookup_delete_eq|]. split; [|done].
  intros q Hq. by apply lookup_delete_ne.
Qed.

Lemma read_dbs_entry_control tv g w w' :
  read_dbs_entry tv g w = Ok w' -> same_control w w'.
Proof.
  unfold read_dbs_entry. destruct (_ && _); [|by intros [= <-]].
  destruct (hbm_read_db tv _ w) as [[r w1]|] eqn:E; [|done].
  destruct (hbm_read_db_result _ _ _ _ _ E) as (Hc & _).
  cbn [mbind outcome_bind].
  destruct (r =? 0); [|by intros [= <-]].
  destruct (rename _ _ _); by intros [= <-].
Qed.

Lemma read_dbs_loop_control tv : forall entries w w',
  read_dbs_loop tv entries w = Ok w' -> same_control w w'.
Proof.
  induction entries as [|g entries IH]; intros w w'; simpl.
  - intros [= <-]. apply same_control_refl.
  - destruct (read_dbs_entry tv g w) as [w1|] eqn:E; [|done].
    cbn [mbind outcome_bind]. intros H.
    eapply same_control_trans; [by eapply read_dbs_entry_control|by apply IH].
Qed.

(** X24.  The loader runs once.  A call of [history_mem_init] that
    returns leaves [already_loaded] set and the configuration as it was,
    and every later call changes nothing; a call with [already_loaded] set
    does nothing, and with [persist] off the first call only sets the
    flag. *)
Theorem init_runs_once (tv : timeval) (w w' : world) :
  history_mem_init tv w = Ok w' ->
  already_loaded w' = true
  /\ cfg w' = cfg w
  /\ (forall tv', history_mem_init tv' w' = Ok w')
  /\ (already_loaded w = true -> w' = w)
  /\ (already_loaded w = false -> persist (cfg w) = false ->
      w' = set_already_loaded true w).
Proof.
  unfold history_mem_init.
  destruct (already_loaded w) eqn:Hl; simpl.
  { intros [= <-]. rewrite Hl. by repeat split. }
  assert (already_loaded w' = true /\ cfg w' = cfg w ->
          already_loaded w' = true /\ cfg w' = cfg w
          /\ (forall tv',
                (if negb (already_loaded w')
                 then if persist (cfg w')
                      then hbm_read_dbs tv' (set_already_loaded true w')
                      else Ok (set_already_loaded true w')
                 else Ok w') = Ok w')) as Hfin.
  { intros (Ha & Hc). rewrite Ha. by repeat split. }
  destruct (persist (cfg w)) eqn:Hp.
  - intros H.
    assert (same_control (set_already_loaded true w) w') as (Hc & _ & _ & Ha & _).
    { unfold hbm_read_dbs in H. simpl in H.
      destruct (directory (cfg w)); [|injection H as <-; apply same_control_refl].
      destruct (decide _);
        [|injection H as <-; apply same_control_refl].
      by eapply read_dbs_loop_control. }
    simpl in Hc, Ha. destruct (Hfin (conj Ha Hc)) as (? & ? & ?).
    by repeat split.
  - intros [= <-]. simpl. by repeat split.
Qed.

Lemma read_dbs_entry_passed_by tv g w :
  passed_by g -> read_dbs_entry tv g w = Ok w.
Proof. unfold passed_by, read_dbs_entry. by intros ->. Qed.

Lemma read_dbs_loop_keeps tv q : forall entries w w',
  (forall g, g ∈ entries ->
     passed_by g \/ (q <> db_path w g /\ q <> bad_path w g)) ->
  read_dbs_loop tv entries w = Ok w' ->
  fs_files (disk w') !! q = fs_files (disk w) !! q.
Proof.
  induction entries as [|g entries IH]; intros w w' Hq; simpl.
  - by intros [= <-].
  - destruct (read_dbs_entry tv g w) as [w1|] eqn:E; [|done].
    cbn [mbind outcome_bind]. intros H.
    assert (cfg w1 = cfg w
            /\ fs_files (disk w1) !! q = fs_files (disk w) !! q)
      as (Hc & Hf).
    { destruct (Hq g) as [Hpass|(H1 & H2)]; [by left| |].
      - rewrite read_dbs_entry_passed_by in E by done. by injection E as <-.
      - destruct (read_dbs_entry_frame tv g w w1 E) as ((Hc & _) & Hfr & _).
        split; [done|by apply Hfr]. }
    rewrite <- Hf. apply IH; [|done].
    intros g' Hg'. destruct (db_path_cfg w w1 g' Hc) as (-> & -> & _).
    apply Hq. by right.
Qed.

(** X25.  The scan of the directory touches only files named [*.db]
    other than [master.db]: the master file, and every file without that
    suffix, is after [hbm_read_dbs] what it was before. *)
Theorem scan_touches_only_db_files (tv : timeval) (w w' : world)
  (dir name : string) :
  directory (cfg w) = Some dir ->
  (forall g, g ∈ readdir dir (disk w) ->
     (String.length (dir +:+ "/bad/" +:+ g) < 512)%nat) ->
  hbm_read_dbs tv w = Ok w' ->
  has_slash name = false ->
  name = "master.db" \/ filename_has_suffix name ".db" = false ->
  fs_files (disk w') !! (dir +:+ "/" +:+ name)
  = fs_files (disk w) !! (dir +:+ "/" +:+ name).
Proof.
  intros Hdir Hlen H Hslash Hname. unfold hbm_read_dbs in H.
  rewrite Hdir in H. destruct (decide _); [|by injection H as <-].
  apply (read_dbs_loop_keeps tv (dir +:+ "/" +:+ name)) in H; [done|].
  intros g Hg.
  destruct (decide (g = name)) as [->|Hne].
  - left. unfold passed_by. destruct Hname as [-> | ->]; [|done].
    by rewrite andb_false_r.
  - right. apply elem_of_readdir in Hg as Hg'. destruct Hg' as (Hsg & _).
    by destruct (entries_apart w dir name g Hdir (Hlen g Hg) Hslash Hsg Hne).
Qed.


(** ** Adding and asking *)

Lemma find_others_after_insert {A} (P : A -> Prop)
  `{!forall x, Decision (P x)} (l : list A) : forall k x y,
  l !! k = Some x -> ~ P x -> ~ P y ->
  snd <$> list_find P (<[k:=y]> l) = snd <$> list_find P l.
Proof.
  induction l as [|z l IH]; intros [|k] x y Hk Hx Hy; simpl in *; try done.
  - injection Hk as ->. rewrite !decide_False by done. done.
  - destruct (decide (P z)); [done|].
    specialize (IH k x y Hk Hx Hy).
    destruct (list_find P (<[k:=y]> l)) as [[]|],
             (list_find P l) as [[]|]; simpl in *; congruence.
Qed.

Lemma hbm_find_object_hstore_other tbl object object' p h h' :
  hbm_find_object tbl object = Some (p, h) ->
  h_name h' = h_name h ->
  strcasecmp_eq object' object = false ->
  snd <$> hbm_find_object (hstore tbl p h') object'
  = snd <$> hbm_find_object tbl object'.
Proof.
  intros Hf Hn Hne.
  destruct (hbm_find_object_Some _ _ _ _ Hf) as (Hp & Hd & Hsame).
  assert (forall x, h_name x = h_name h -> ~ same_object object' x) as Hnot.
  { intros x Hx Hs. apply same_object_lower in Hs, Hsame.
    unfold strcasecmp_eq in Hne. apply String.eqb_neq in Hne. congruence. }
  unfold hbm_find_object, hstore.
  destruct (decide (p.1 = hbm_hash object')) as [Heq|Hneq].
  - rewrite <- Heq. rewrite chain_of_insert_eq by (by eapply chain_of_index).
    pose proof (find_others_after_insert (same_object object')
                  (chain_of tbl p.1) p.2 h h' Hd (Hnot h eq_refl) (Hnot h' Hn))
      as Hfo.
    destruct (list_find (same_object object') (<[p.2:=h']> (chain_of tbl p.1)))
      as [[j y]|];
    destruct (list_find (same_object object') (chain_of tbl p.1))
      as [[j' y']|]; simpl in *; congruence.
  - by rewrite chain_of_insert_ne.
Qed.

Lemma age_window_snoc redline ls l :
  redline <= hl_t l ->
  age_window redline (ls ++ [l]) = age_window redline ls ++ [l].
Proof.
  intros Hl. unfold age_window. rewrite List.filter_app. simpl.
  by assert ((hl_t l >=? redline) = true) as -> by lia.
Qed.

(** What [hbm_history_add] does to a log whose limits are set. *)
Lemma hbm_history_add_found tv object mtags line w p h :
  table_sized (history_hash_table w) ->
  hbm_find_object (history_hash_table w) object = Some (p, h) ->
  counted h ->
  1 <= max_lines h ->
  exists h',
    hbm_history_add tv object mtags line w
    = Ok (0, set_table (hstore (history_hash_table w) p h') w)
    /\ hbm_find_object (hstore (history_hash_table w) p h') object
       = Some (p, h')
    /\ h' = hbm_history_add_line tv
              (if num_lines h >=? max_lines h
               then hbm_history_del_line h 0 else h) mtags line
    /\ h_lines h' = (if num_lines h >=? max_lines h
                     then tail (h_lines h) else h_lines h)
                    ++ [new_log_line tv mtags line]
    /\ counted h'
    /\ max_lines h' = max_lines h /\ max_time h' = max_time h
    /\ h_name h' = h_name h.
Proof.
  intros Hs Hf Hc Hm.
  pose proof (hbm_find_or_add_object_found _ _ _ _ Hf) as Hfa.
  destruct (hbm_history_add_spec tv object mtags line w p h _ Hfa Hc)
    as (h' & Hadd & Hl & _ & Hml & Hmt & Hn & Hc'); [lia|right; lia|].
  assert ((max_lines h =? 0) = false) as E0 by lia.
  rewrite E0 in *.
  exists h'. split; [exact Hadd|].
  split; [by apply (hbm_find_object_hstore _ _ _ h)|].
  split; [|done].
  unfold hbm_history_add in Hadd. rewrite Hfa, E0 in Hadd.
  cbn [mbind outcome_bind] in Hadd.
  destruct (num_lines h >=? max_lines h) eqn:Ev.
  - destruct (h_lines h) eqn:El.
    { unfold counted in Hc. rewrite El in Hc. simpl in Hc. lia. }
    cbn [mbind outcome_bind] in Hadd. injection Hadd as Hadd.
    apply (f_equal (fun t => deref t p)) in Hadd.
    destruct (hbm_find_object_Some _ _ _ _ Hf) as (_ & Hd & _).
    rewrite !deref_hstore in Hadd
      by (by eapply chain_of_index || by eexists).
    by injection Hadd as <-.
  - cbn [mbind outcome_bind] in Hadd. injection Hadd as Hadd.
    apply (f_equal (fun t => deref t p)) in Hadd.
    destruct (hbm_find_object_Some _ _ _ _ Hf) as (_ & Hd & _).
    rewrite !deref_hstore in Hadd
      by (by eapply chain_of_index || by eexists).
    by injection Hadd as <-.
Qed.

(** X26.  [hbm_history_add] on a log whose limits are set returns 0 and
    appends the line as the new tail; when the log is full, the head (the
    oldest line) is dropped first.  The count follows, the log is marked
    dirty, its limits and name stay, and nothing else changes: not the
    logs of other names, not the disk, not the notices. *)
Theorem add_appends_and_evicts (tv : timeval) (object : string)
  (mtags : list MessageTag) (line : string) (w : world) (p : hptr)
  (h : HistoryLogObject) :
  table_sized (history_hash_table w) ->
  hbm_find_object (history_hash_table w) object = Some (p, h) ->
  counted h ->
  1 <= max_lines h ->
  exists w' h',
    hbm_history_add tv object mtags line w = Ok (0, w')
    /\ hbm_find_object (history_hash_table w') object = Some (p, h')
    /\ h_lines h' = (if num_lines h >=? max_lines h
                     then tail (h_lines h) else h_lines h)
                    ++ [new_log_line tv mtags line]
    /\ num_lines h' = Z.of_nat (length (h_lines h'))
    /\ dirty h' = true
    /\ max_lines h' = max_lines h /\ max_time h' = max_time h
    /\ h_name h' = h_name h
    /\ notices w' = notices w /\ disk w' = disk w
    /\ (forall object',
          strcasecmp_eq object' object = false ->
          snd <$> hbm_find_object (history_hash_table w') object'
          = snd <$> hbm_find_object (history_hash_table w) object').
Proof.
  intros Hs Hf Hc Hm.
  destruct (hbm_history_add_found tv object mtags line w p h Hs Hf Hc Hm)
    as (h' & Hadd & Hf' & Heq & Hl & Hc' & Hml & Hmt & Hn).
  eexists _, h'. split; [exact Hadd|]. simpl.
  split; [exact Hf'|]. split; [exact Hl|]. split; [exact Hc'|].
  split.
  { rewrite Heq.
    by destruct (hbm_history_add_line_spec tv
                   (if num_lines h >=? max_lines h
                    then hbm_history_del_line h 0 else h) mtags line)
      as (_ & _ & _ & _ & _ & ?). }
  do 5 (split; [done|]).
  intros object' Hne. by apply (hbm_find_object_hstore_other _ object _ _ h).
Qed.

(** X27.  Add, then ask: after [hbm_history_add] on a log whose limits
    are set, a request for the same name whose red line is not above the
    time of the new line, and which asks for at least one line (or has no
    filter), returns a list whose last entry is that line. *)
Theorem add_then_request (tv : timeval) (object : string)
  (mtags : list MessageTag) (line : string) (w : world) (p : hptr)
  (h : HistoryLogObject) (now : Z) (tv' : timeval)
  (filter : option HistoryFilter) :
  table_sized (history_hash_table w) ->
  hbm_find_object (history_hash_table w) object = Some (p, h) ->
  counted h ->
  lines_timed h ->
  1 <= max_lines h ->
  request_redline now h filter <= hl_t (new_log_line tv mtags line) ->
  match filter with
  | Some f => 1 <= last_lines f
  | None => True
  end ->
  exists w' r,
    hbm_history_add tv object mtags line w = Ok (0, w')
    /\ hbm_history_request now tv' object filter w' = Some r
    /\ hr_object r = object
    /\ last (hr_log r) = Some (new_log_line tv mtags line).
Proof.
  intros Hs Hf Hc Ht Hm Hred Hk.
  destruct (hbm_history_add_found tv object mtags line w p h Hs Hf Hc Hm)
    as (h' & Hadd & Hf' & _ & Hl & Hc' & Hml & Hmt & Hn).
  set (l := new_log_line tv mtags line) in *.
  assert (lines_timed h') as Ht'.
  { unfold lines_timed in *. rewrite Hl. apply Forall_app.
    split; [|repeat constructor; apply new_log_line_timed].
    destruct (_ >=? _); [|done].
    destruct (h_lines h); [done|]. by inversion Ht. }
  assert (request_redline now h' filter = request_redline now h filter) as Hr.
  { unfold request_redline. by rewrite Hmt. }
  eexists _, _. split; [exact Hadd|].
  split.
  { apply (hbm_history_request_found _ now tv' object filter p h');
      [exact Hf'|exact Ht'|].
    unfold skip_fits. destruct filter as [f|]; [|done]. intros; lia. }
  split; [done|]. cbn [hr_log].
  rewrite Hr, Hl, age_window_snoc by done.
  set (W := age_window _ _).
  rewrite length_app. simpl length.
  rewrite drop_app_le.
  - apply last_snoc.
  - destruct filter as [f|]; lia.
Qed.


(** X28.  The line [hbm_history_add] stores: its text is the text given;
    its tags are copies of the tags given, in their order, with a ["time"]
    tag holding the current time put in front when the message had none;
    and its time is what [server_time_to_unix_time] makes of the first
    ["time"] tag. *)
Theorem add_stamps_time (tv : timeval) (object : string)
  (mtags : list MessageTag) (line : string) (w : world) (p : hptr)
  (h : HistoryLogObject) :
  table_sized (history_hash_table w) ->
  hbm_find_object (history_hash_table w) object = Some (p, h) ->
  counted h ->
  1 <= max_lines h ->
  exists w' h' l,
    hbm_history_add tv object mtags line w = Ok (0, w')
    /\ hbm_find_object (history_hash_table w') object = Some (p, h')
    /\ last (h_lines h') = Some l
    /\ hl_line l = line
    /\ match find_mtag mtags "time" with
       | Some n =>
           hl_mtags l = mtags
           /\ hl_t l = server_time_to_unix_time (mt_value n)
       | None =>
           hl_mtags l
           = {| mt_name := "time"; mt_value := Some (server_time_now tv) |}
               :: mtags
           /\ hl_t l = server_time_to_unix_time (Some (server_time_now tv))
       end.
Proof.
  intros Hs Hf Hc Hm.
  destruct (hbm_history_add_found tv object mtags line w p h Hs Hf Hc Hm)
    as (h' & Hadd & Hf' & _ & Hl & _).
  eexists _, h', (new_log_line tv mtags line).
  split; [exact Hadd|]. split; [exact Hf'|].
  split; [rewrite Hl; apply last_snoc|].
  unfold new_log_line, hbm_duplicate_mtags. rewrite map_duplicate_mtag.
  by destruct (find_mtag mtags "time").
Qed.

(** X29.  Whatever made [hbm_read_db] return 0 for a file [*.db] of the
    directory, the scan moves that file, as it is, to the [bad]
    subdirectory (replacing a file of that name there), when the rename is
    possible: the place in [bad] lies directly in it and is not taken by a
    directory, and [bad] is a directory or can be made one (nothing has its
    name, the directory it lies in exists and the host allows [mkdir]). *)
Theorem failed_load_is_quarantined (tv : timeval) (name : string)
  (w w1 : world) (f : dbfile) :
  filename_has_suffix name ".db" = true ->
  name <> "master.db" ->
  hbm_read_db tv (db_path w name) w = Ok (0, w1) ->
  fs_files (disk w) !! db_path w name = Some f ->
  db_path w name <> bad_path w name ->
  bad_path w name <> bad_dir w ->
  bad_path w name ∉ fs_dirs (disk w) ->
  dirname (bad_path w name) = Some (bad_dir w) ->
  bad_dir w ∈ fs_dirs (disk w)
  \/ (mkdir_allowed (bad_dir w) = true
      /\ parent_exists (bad_dir w) (disk w) = true
      /\ file_exists (bad_dir w) (disk w) = false) ->
  exists w',
    read_dbs_entry tv name w = Ok w'
    /\ fs_files (disk w') !! db_path w name = None
    /\ fs_files (disk w') !! bad_path w name = Some f
    /\ history_hash_table w' = history_hash_table w1
    /\ notices w' = notices w1.
Proof.
  intros Hsuf Hnm Hr Hf Hpb Hbd Hnd Hdn Hready.
  apply mkdir_ready in Hready.
  destruct (hbm_read_db_result tv _ w 0 w1 Hr) as (_ & [(_ & Hd & _)|(? & _)]);
    [|done].
  unfold read_dbs_entry.
  fold (db_path w name) (bad_path w name) (bad_dir w).
  rewrite Hsuf. unfold strcmp_eq.
  apply String.eqb_neq in Hnm. rewrite Hnm. simpl.
  rewrite Hr. cbn [mbind outcome_bind]. simpl.
  unfold rename. cbn [disk set_disk fs_files fs_dirs unlink]. rewrite Hd.
  assert (fs_files (mkdir (bad_dir w) (disk w)) = fs_files (disk w)) as Hf2.
  { unfold mkdir. by destruct (mkdir_allowed _ && _ && _). }
  assert (bad_path w name ∉ fs_dirs (mkdir (bad_dir w) (disk w))) as Hnd2.
  { unfold mkdir. destruct (mkdir_allowed _ && _ && _); simpl; [|done].
    rewrite elem_of_union, elem_of_singleton. by intros [?|?]. }
  rewrite lookup_delete_ne, Hf2, Hf by done.
  rewrite decide_False by done.
  rewrite (parent_exists_listed (bad_path w name) (bad_dir w)) by done.
  rewrite orb_true_r.
  eexists. split; [reflexivity|]. simpl.
  split; [by rewrite lookup_insert_ne, lookup_delete_eq|].
  split; [by rewrite lookup_insert_eq|done].
Qed.

End HistoryBackendMem.

(** * The model on the sample host *)

Local Abbreviation s_request :=
  (hbm_history_request sample_siphash sample_unix_time sample_gmtime).
Local Abbreviation s_find := (hbm_find_object sample_siphash).
Local Abbreviation s_run :=
  (run false false 30 32 sample_siphash sample_unix_time sample_gmtime
     sample_sha256 sample_channels sample_channels).
Local Abbreviation s_exec :=
  (exec false false 30 32 sample_siphash sample_unix_time sample_gmtime
     sample_sha256 sample_channels sample_channels).
Local Abbreviation s_add :=
  (hbm_history_add false 30 32 sample_siphash sample_unix_time sample_gmtime).
Local Abbreviation s_clean :=
  (history_mem_clean false false 30 32 sample_sha256 sample_channels
     sample_channels).
Local Abbreviation s_read_dbs :=
  (hbm_read_dbs false 30 32 sample_siphash sample_unix_time sample_gmtime
     sample_mkdir).
Local Abbreviation s_read_db :=
  (hbm_read_db false 30 32 sample_siphash sample_unix_time sample_gmtime).
Local Abbreviation s_write_db :=
  (hbm_write_db false 30 32 sample_sha256 sample_channels sample_channels).
Local Abbreviation s_posttest :=
  (hbm_config_posttest sample_test_db sample_mkdir sample_random
     sample_abspath).
Local Abbreviation s_initial := (initial_world sample_abspath).

Lemma sample_siphash_nocase : nocase_hash sample_siphash.
Proof. intros a b H. unfold sample_siphash. by rewrite H. Qed.

Lemma request_lines_and_seconds_witness :
  exists r,
    s_request 1000 sample_tv "#a"
      (Some {| last_lines := 2; last_seconds := 8 |}) sample_world = Some r
    /\ Z.of_nat (length (hr_log r)) <= 2
    /\ (forall l, l ∈ hr_log r -> hl_t l >= 1000 - Z.min 8 3600).
Proof.
  destruct (request_lines_and_seconds sample_siphash sample_unix_time
              sample_gmtime sample_world 1000 sample_tv "#a" 2 8
              (132%nat, 0%nat) sample_log)
    as (r & Hr & Hlen & Hage & _).
  - vm_compute. reflexivity.
  - repeat constructor; eexists; (split; [reflexivity|]); reflexivity.
  - lia.
  - lia.
  - exists r. split; [exact Hr|]. split; [exact Hlen|exact Hage].
Defined.

(** C4, as it is stated, fails: a filter whose [last_lines] is 0 (and
    whose [last_seconds] is 0) on a log of three lines, all within the age
    window, returns none of them. *)
Lemma request_zero_last_lines_counterexample :
  ~ (forall r,
       s_request 1000 sample_tv "#a"
         (Some {| last_lines := 0; last_seconds := 0 |}) sample_world = Some r ->
       forall l, l ∈ h_lines sample_log -> hl_t l >= 1000 - 3600 ->
                 l ∈ hr_log r).
Proof.
  intros H.
  specialize (H {| hr_object := "#a"; hr_log := [] |}).
  assert (sample_line 999 "999" "c" ∈ []) as Hin.
  { apply H.
    - vm_compute. reflexivity.
    - vm_compute. do 2 right. left.
    - vm_compute. discriminate. }
  by apply not_elem_of_nil in Hin.
Qed.

(** With [last_lines = INT_MIN] the difference [lines_sendable -
    last_lines] does not fit an [int]: it wraps around to a negative number
    and nothing is skipped. *)
Lemma request_int_min_wraps :
  s_request 1000 sample_tv "#a"
    (Some {| last_lines := - 2 ^ 31; last_seconds := 0 |}) sample_world
  = Some {| hr_object := "#a"; hr_log := h_lines sample_log |}.
Proof. vm_compute. reflexivity. Qed.

Lemma request_count_limit_witness :
  s_request 1000 sample_tv "#a" None sample_world
  = Some {| hr_object := "#a"; hr_log := h_lines sample_log |}
  /\ s_request 1000 sample_tv "#a"
       (Some {| last_lines := 0; last_seconds := 0 |}) sample_world
     = Some {| hr_object := "#a"; hr_log := [] |}.
Proof.
  destruct (request_count_limit sample_siphash sample_unix_time sample_gmtime
              sample_world 1000 sample_tv "#a" (132%nat, 0%nat) sample_log)
    as (H1 & _ & H3).
  - vm_compute. reflexivity.
  - repeat constructor; eexists; (split; [reflexivity|]); reflexivity.
  - split; [exact H1|]. apply H3. reflexivity.
Defined.

Lemma sample_world_hashed :
  hashed_in_place sample_siphash (history_hash_table sample_world).
Proof.
  intros i chain h Hi Hin. unfold sample_world, empty_table in Hi.
  cbn [history_hash_table] in Hi.
  destruct (decide (i = 132%nat)) as [->|Hne].
  - rewrite list_lookup_insert_eq in Hi
      by (rewrite length_replicate; vm_compute; lia).
    injection Hi as <-. apply list_elem_of_singleton in Hin as ->.
    vm_compute. reflexivity.
  - rewrite list_lookup_insert_ne in Hi by done.
    apply lookup_replicate in Hi as [-> _].
    by apply not_elem_of_nil in Hin.
Qed.

Lemma request_null_iff_no_log_witness :
  s_request 1000 sample_tv "#A" (Some {| last_lines := 5; last_seconds := 0 |})
    sample_world <> None
  /\ exists r,
       s_request 2000 sample_tv "#A"
         (Some {| last_lines := 5; last_seconds := 1 |}) sample_world = Some r
       /\ hr_object r = "#A" /\ hr_log r = [].
Proof.
  split.
  - destruct (request_null_iff_no_log sample_siphash sample_unix_time
                sample_gmtime sample_world 1000 sample_tv "#A"
                (Some {| last_lines := 5; last_seconds := 0 |})
                sample_siphash_nocase sample_world_hashed) as (Hiff & _).
    intros Hnone. apply Hiff in Hnone. apply Hnone.
    exists 132%nat, [sample_log], sample_log.
    split; [vm_compute; reflexivity|]. split; [by left|reflexivity].
  - destruct (request_null_iff_no_log sample_siphash sample_unix_time
                sample_gmtime sample_world 2000 sample_tv "#A"
                (Some {| last_lines := 5; last_seconds := 1 |})
                sample_siphash_nocase sample_world_hashed) as (_ & Hsome).
    destruct (Hsome (132%nat, 0%nat) sample_log) as (r & Hr & Ho & Hl).
    + vm_compute. reflexivity.
    + exists r. split; [exact Hr|]. split; [exact Ho|].
      apply Hl. vm_compute. reflexivity.
Defined.

Lemma add_without_limit_witness :
  exists w' h',
    s_add sample_tv "#new" [] "hello" s_initial = Ok (0, w')
    /\ notices w' = [Realops_add_no_limit "#new"]
    /\ s_find (history_hash_table w') "#new" = Some ((365%nat, 0%nat), h')
    /\ max_lines h' = 50 /\ max_time h' = 86400.
Proof.
  destruct (add_without_limit false 30 32 sample_siphash sample_unix_time
              sample_gmtime s_initial sample_tv "#new" [] "hello"
              (365%nat, 0%nat) (new_object 30 32 "#new")
              (<[365%nat := [new_object 30 32 "#new"]]> empty_table))
    as (w' & h' & Hadd & Hn & Hd & Hml & Hmt & _).
  - vm_compute. reflexivity.
  - vm_compute. reflexivity.
  - reflexivity.
  - reflexivity.
  - exists w', h'. split; [exact Hadd|]. split; [exact Hn|].
    split; [|by split].
    vm_compute in Hadd. injection Hadd as <-.
    vm_compute in Hd. injection Hd as <-.
    vm_compute. reflexivity.
Defined.

Ltac adm_step :=
  constructor;
  [ first [ exact I
          | simpl; lia
          | do 2 eexists; split; [vm_compute; reflexivity|simpl; lia] ]
  | let s := fresh "s" in
    let w := fresh "w" in
    let H := fresh "H" in
    intros s w H; vm_compute in H; injection H as <- <- ].

Lemma lines_counted_and_limited_witness :
  exists s w',
    s_run (eviction_ops ++ [OpTick 5000]) s_initial = Ok (s, w')
    /\ all_logs (fun L => num_lines L = Z.of_nat (length (h_lines L))
                          /\ num_lines L <= max_lines L)
         (history_hash_table w').
Proof.
  apply (lines_counted_and_limited false false 30 32 sample_siphash
           sample_unix_time sample_gmtime sample_sha256 sample_channels
           sample_channels).
  - apply world_ok_initial.
  - unfold eviction_ops. simpl app. do 5 adm_step. constructor.
Defined.

Lemma sweep_covers_table_witness :
  exists s w',
    s_clean 0 s_initial = Ok (s, w')
    /\ length s = 17%nat
    /\ hashnum w' = 17.
Proof.
  destruct (sweep_covers_table false false 30 32 sample_siphash
              sample_unix_time sample_gmtime sample_sha256 sample_channels
              sample_channels s_initial eq_refl
              (world_ok_initial sample_unix_time sample_abspath))
    as (_ & Htick & _).
  destruct (Htick 0) as (s & w' & Hc & Hlen & _ & Hn).
  exists s, w'. split; [exact Hc|]. split; [exact Hlen|exact Hn].
Defined.

(** C7 (the code departs from the claim).  A log limited to two lines
    receives lines with times 100, 101 and 102: the third [add] evicts the
    head and leaves [oldest_t = 100], which is neither 0 nor the smallest
    time (101) of the lines that remain. *)
Theorem eviction_leaves_stale_oldest_t :
  exists s w' p h,
    s_run eviction_ops s_initial = Ok (s, w')
    /\ s_find (history_hash_table w') "#a" = Some (p, h)
    /\ hl_t <$> h_lines h = [101; 102]
    /\ oldest_t h = 100.
Proof.
  do 4 eexists. split; [vm_compute; reflexivity|].
  split; [vm_compute; reflexivity|]. split; reflexivity.
Qed.

(** C5 (the code departs from the claim).  On boot with [persist] on, a
    master file that opens and reads but whose version field is 1: the
    post-configuration test returns 1 with no error, and takes the salts
    from the file. *)
Theorem old_master_version_accepted :
  exists w',
    s_posttest old_master_world = Ok (1, 0, w')
    /\ prehash (cfg w') = Some "PRE"
    /\ posthash (cfg w') = Some "POST"
    /\ notices w' = [].
Proof.
  eexists. split; [vm_compute; reflexivity|]. by repeat split.
Qed.

(** C6, as it is stated, fails: after the scan of a directory that holds
    one file written under another master file, the file is no longer at
    its path; it is in [bad/]. *)
Lemma foreign_file_counterexample :
  ~ (forall w',
       s_read_dbs sample_tv foreign_world = Ok w' ->
       is_Some (fs_files (disk w') !! "/data/history/abc.db")
       /\ fs_files (disk w') !! "/data/history/bad/abc.db" = None).
Proof.
  intros H.
  destruct (s_read_dbs sample_tv foreign_world) as [w'|] eqn:E;
    [|by vm_compute in E].
  destruct (H w' eq_refl) as [[f Hf] _].
  vm_compute in E. injection E as <-.
  vm_compute in Hf. discriminate Hf.
Qed.

(** Where [<directory>/bad] is missing and cannot be made, the rename
    fails (its result is ignored) and the file stays where it is. *)
Lemma foreign_file_stays_without_bad :
  exists w',
    hbm_read_dbs false 30 32 sample_siphash sample_unix_time sample_gmtime
      (fun _ => false) sample_tv foreign_world = Ok w'
    /\ fs_files (disk w') !! "/data/history/abc.db" = Some foreign_file
    /\ fs_files (disk w') !! "/data/history/bad/abc.db" = None.
Proof.
  eexists. split; [vm_compute; reflexivity|].
  split; vm_compute; reflexivity.
Qed.

Lemma foreign_file_quarantined_witness :
  exists w',
    s_read_dbs sample_tv foreign_world = Ok w'
    /\ Warn_not_ours "/data/history/abc.db" ∈ notices w'
    /\ fs_files (disk w') !! "/data/history/abc.db" = None
    /\ fs_files (disk w') !! "/data/history/bad/abc.db" = Some foreign_file.
Proof.
  destruct (foreign_file_quarantined false 30 32 sample_siphash
              sample_unix_time sample_gmtime sample_sha256 sample_channels
              sample_channels sample_mkdir sample_random sample_abspath
              sample_tv foreign_world "/data/history" "abc.db" foreign_file
              5000 (Some "OLDPRE") (Some "OLDPOST")
              [DbStr (Some "#a"); DbInt64 10; DbInt64 3600;
               DbInt32 HISTORYDB_MAGIC_FILE_END] "PRE" "POST")
    as (_ & _ & Hscan).
  - reflexivity.
  - simpl. by apply elem_of_singleton.
  - intros g Hg. vm_compute in Hg.
    apply list_elem_of_singleton in Hg as ->. vm_compute. lia.
  - reflexivity.
  - discriminate.
  - reflexivity.
  - vm_compute. reflexivity.
  - reflexivity.
  - reflexivity.
  - lia.
  - reflexivity.
  - reflexivity.
  - left. discriminate.
  - simpl. rewrite elem_of_singleton. discriminate.
  - right. split; [reflexivity|vm_compute; reflexivity].
  - destruct (s_read_dbs sample_tv foreign_world) as [w'|] eqn:E;
      [|by vm_compute in E].
    exists w'. split; [reflexivity|exact (Hscan w' eq_refl)].
Defined.

Lemma write_then_read_roundtrip_witness :
  exists w1 w3 h3,
    s_write_db sample_log sample_world = Ok (1, set_dirty false sample_log, w1)
    /\ s_read_db sample_tv "/data/history/PRE #a POST.db"
         (set_disk (disk w1) restart_world) = Ok (1, w3)
    /\ deref (history_hash_table w3) (132%nat, 0%nat) = Some h3
    /\ h_name h3 = "#a" /\ max_lines h3 = 10 /\ max_time h3 = 3600
    /\ h_lines h3 = h_lines sample_log.
Proof.
  destruct (write_then_read_roundtrip false false 30 32 sample_siphash
              sample_unix_time sample_gmtime sample_sha256 sample_channels
              sample_channels sample_tv sample_world sample_log "secret"
              "/data/history/PRE #a POST.db")
    as (w1 & Hw & Hread).
  - reflexivity.
  - reflexivity.
  - reflexivity.
  - vm_compute. reflexivity.
  - vm_compute. discriminate.
  - simpl. rewrite elem_of_singleton. vm_compute. discriminate.
  - simpl. rewrite elem_of_singleton. discriminate.
  - split; [reflexivity|]. split; [unfold within_limit; simpl; lia|].
    repeat constructor; eexists; (split; [reflexivity|]); reflexivity.
  - destruct (Hread (set_disk (disk w1) restart_world) (132%nat, 0%nat)
                (set_num_lines 0 (set_lines [] (set_dirty false sample_log))))
      as (w3 & h3 & Hr & Hd & Hn & Hml & Hmt & Hl & _).
    + reflexivity.
    + reflexivity.
    + vm_compute. reflexivity.
    + vm_compute. reflexivity.
    + reflexivity.
    + reflexivity.
    + reflexivity.
    + reflexivity.
    + reflexivity.
    + exists w1, w3, h3. repeat split; assumption.
Defined.

(** ** The further properties on the sample host *)

Local Abbreviation s_find_or_add :=
  (hbm_find_or_add_object 30 32 sample_siphash).
Local Abbreviation s_destroy :=
  (hbm_history_destroy false 30 32 sample_siphash sample_sha256).
Local Abbreviation s_set_limit := (hbm_history_set_limit 30 32 sample_siphash).
Local Abbreviation s_modechar_del :=
  (hbm_modechar_del false 30 32 sample_siphash sample_sha256).
Local Abbreviation s_init :=
  (history_mem_init false 30 32 sample_siphash sample_unix_time sample_gmtime
     sample_mkdir).
Local Abbreviation s_read_dbs_entry :=
  (read_dbs_entry false 30 32 sample_siphash sample_unix_time sample_gmtime
     sample_mkdir).

Lemma all_logs_empty (P : HistoryLogObject -> Prop) : all_logs P empty_table.
Proof.
  apply Forall_forall. intros chain Hc.
  apply elem_of_replicate in Hc as [-> _]. constructor.
Qed.

Lemma all_logs_single (P : HistoryLogObject -> Prop) (i : nat)
  (h : HistoryLogObject) :
  P h -> all_logs P (<[i := [h]]> empty_table).
Proof.
  intros Hh. apply Forall_insert; [apply all_logs_empty|].
  by repeat constructor.
Qed.

Lemma sample_log_timed : lines_timed sample_unix_time sample_log.
Proof. repeat constructor; eexists; (split; [reflexivity|]); reflexivity. Qed.

Lemma sample_log_low : oldest_low sample_log.
Proof.
  split; [simpl; lia|]. split; [discriminate|].
  repeat constructor; simpl; lia.
Qed.

Lemma sample_world_ok (n : Z) :
  0 <= n < HISTORY_BACKEND_MEM_HASH_TABLE_SIZE ->
  world_ok sample_unix_time (set_hashnum n sample_world).
Proof.
  intros Hn. split; [vm_compute; reflexivity|]. split.
  - apply all_logs_single. split; [reflexivity|].
    split; [unfold within_limit; simpl; lia|apply sample_log_timed].
  - split; [|exact Hn]. intros _. by repeat split.
Qed.

Lemma find_or_add_then_find_witness :
  exists p h tbl',
    s_find_or_add empty_table "#new" = (p, h, tbl')
    /\ s_find tbl' "#new" = Some (p, h)
    /\ p = (365%nat, 0%nat) /\ h_name h = "#new" /\ h_lines h = [].
Proof.
  destruct (s_find_or_add empty_table "#new") as [[p h] tbl'] eqn:E.
  destruct (find_or_add_then_find 30 32 sample_siphash empty_table "#new"
              p h tbl') as (Hf & _ & Hnew).
  - vm_compute. reflexivity.
  - vm_compute. lia.
  - exact E.
  - destruct Hnew as (Hp & Hn & Hl & _); [vm_compute; reflexivity|].
    exists p, h, tbl'. split; [reflexivity|]. split; [exact Hf|].
    split; [rewrite Hp; vm_compute; reflexivity|]. by split.
Defined.

Lemma find_or_add_keeps_others_witness :
  snd <$> s_find (s_find_or_add (history_hash_table two_log_world) "#new").2
            "#b"
  = Some sample_log_b.
Proof.
  destruct (s_find_or_add (history_hash_table two_log_world) "#new")
    as [[p h] tbl'] eqn:E.
  etrans.
  - apply (find_or_add_keeps_others 30 32 sample_siphash
             (history_hash_table two_log_world) "#new" "#b" p h tbl').
    + vm_compute. reflexivity.
    + vm_compute. lia.
    + exact E.
    + reflexivity.
  - vm_compute. reflexivity.
Defined.

Lemma names_stay_distinct_witness :
  exists s w',
    s_run (eviction_ops ++ [OpDestroy "#a"]) s_initial = Ok (s, w')
    /\ hashed_in_place sample_siphash (history_hash_table w')
    /\ distinct_names (history_hash_table w').
Proof.
  apply (names_stay_distinct false false 30 32 sample_siphash
           sample_unix_time sample_gmtime sample_sha256 sample_channels
           sample_channels).
  - apply world_ok_initial.
  - unfold eviction_ops. simpl app. do 5 adm_step. constructor.
  - unfold eviction_ops. simpl app.
    repeat (apply Forall_cons; split; [vm_compute; lia|]). constructor.
  - apply hashed_in_place_initial.
  - apply distinct_names_initial.
Defined.

Lemma sample_world_distinct :
  distinct_names (history_hash_table sample_world).
Proof.
  intros i chain Hi. unfold sample_world, empty_table in Hi.
  cbn [history_hash_table] in Hi.
  destruct (decide (i = 132%nat)) as [->|Hne].
  - rewrite list_lookup_insert_eq in Hi
      by (rewrite length_replicate; vm_compute; lia).
    injection Hi as <-. simpl. apply NoDup_singleton.
  - rewrite list_lookup_insert_ne in Hi by done.
    apply lookup_replicate in Hi as [-> _]. constructor.
Qed.

Lemma destroy_removes_log_witness :
  exists w',
    s_destroy "#a" sample_world = Ok (1, w')
    /\ s_find (history_hash_table w') "#a" = None
    /\ s_request 1000 sample_tv "#a" None w' = None.
Proof.
  destruct (s_destroy "#a" sample_world) as [[r w']|] eqn:E;
    [|by vm_compute in E].
  destruct (destroy_removes_log false 30 32 sample_siphash sample_unix_time
              sample_gmtime sample_sha256 "#a" sample_world r w'
              sample_world_distinct E)
    as (Hf & Hr & [(-> & _)|(_ & Hn & _)]).
  - exists w'. split; [reflexivity|]. split; [exact Hf|apply Hr].
  - by vm_compute in Hn.
Defined.

Lemma destroy_keeps_others_witness :
  exists w',
    s_destroy "#a" two_log_world = Ok (1, w')
    /\ snd <$> s_find (history_hash_table w') "#b" = Some sample_log_b.
Proof.
  destruct (s_destroy "#a" two_log_world) as [[r w']|] eqn:E;
    [|by vm_compute in E].
  pose proof (destroy_keeps_others false 30 32 sample_siphash sample_sha256
                "#a" "#b" two_log_world r w' E eq_refl) as H.
  vm_compute in E. injection E as <- _.
  exists w'. split; [reflexivity|]. rewrite H. vm_compute. reflexivity.
Defined.

Lemma cleanup_keeps_newest_witness :
  h_lines (hbm_history_cleanup 4592 sample_log)
  = [sample_line 995 "995" "b"; sample_line 999 "999" "c"]
  /\ num_lines (hbm_history_cleanup 4592 sample_log) = 2.
Proof.
  pose proof (cleanup_keeps_newest 4592 sample_log eq_refl sample_log_low)
    as H.
  cbv zeta in H. destruct H as (Hl & Hn & _).
  split; [rewrite Hl; reflexivity|rewrite Hn, Hl; reflexivity].
Defined.


Lemma oldest_t_is_lower_bound_witness :
  exists s w',
    s_run (eviction_ops ++ [OpTick 5000]) s_initial = Ok (s, w')
    /\ all_logs (fun h =>
                   0 <= oldest_t h
                   /\ (oldest_t h = 0 -> h_lines h = [])
                   /\ (forall l, l ∈ h_lines h -> oldest_t h <= hl_t l))
         (history_hash_table w').
Proof.
  apply (oldest_t_is_lower_bound false false 30 32 sample_siphash
           sample_unix_time sample_gmtime sample_sha256 sample_channels
           sample_channels).
  - apply world_ok_initial.
  - unfold eviction_ops. simpl app. do 5 adm_step. constructor.
  - unfold eviction_ops. simpl app.
    repeat (apply Forall_cons; split;
            [vm_compute; first [exact I|reflexivity]|]).
    constructor.
  - apply all_logs_empty.
Defined.

Lemma tick_expires_old_lines_witness :
  exists s w',
    s_clean 4592 (set_hashnum 130 sample_world) = Ok (s, w')
    /\ all_logs oldest_low (history_hash_table w')
    /\ (forall b h l,
          b ∈ s ->
          h ∈ chain_of (history_hash_table w') (Z.to_nat b) ->
          l ∈ h_lines h ->
          4592 - max_time h <= hl_t l).
Proof.
  apply (tick_expires_old_lines false false 30 32 sample_unix_time
           sample_sha256 sample_channels sample_channels).
  - apply sample_world_ok. vm_compute. by split.
  - apply all_logs_single. apply sample_log_low.
Defined.

Lemma debug_tick_sweeps_all_witness :
  exists s w',
    history_mem_clean true false 30 32 sample_sha256 sample_channels
      sample_channels 0 s_initial = Ok (s, w')
    /\ length s = 1020%nat
    /\ (forall b, 0 <= b < 1019 -> b ∈ s)
    /\ hashnum w' = 1.
Proof.
  destruct (debug_tick_sweeps_all true false 30 32 sample_unix_time
              sample_sha256 sample_channels sample_channels 0 s_initial
              eq_refl (world_ok_initial sample_unix_time sample_abspath))
    as (s & w' & Hc & Hl & Hall & Hn).
  exists s, w'. split; [exact Hc|]. split; [exact Hl|].
  split; [exact Hall|]. rewrite Hn. reflexivity.
Defined.

Lemma tick_without_P_leaves_disk_witness :
  exists s w',
    history_mem_clean false false 30 32 sample_sha256 (fun _ => false)
      sample_channels 4592 (set_hashnum 130 sample_world) = Ok (s, w')
    /\ disk w' = disk sample_world /\ notices w' = [].
Proof.
  apply (tick_without_P_leaves_disk false false 30 32 sample_unix_time
           sample_sha256 (fun _ => false) sample_channels 4592
           (set_hashnum 130 sample_world)).
  - apply sample_world_ok. vm_compute. by split.
  - right. apply all_logs_single. reflexivity.
Defined.




Lemma masterdb_created_then_read_witness :
  exists w1 pre post,
    hbm_read_masterdb sample_random first_boot_world = Ok (1, w1)
    /\ prehash (cfg w1) = Some pre /\ posthash (cfg w1) = Some post
    /\ fs_files (disk w1) !! "/data/history/master.db"
       = Some (master_file (Some "secret") (Some pre) (Some post))
    /\ exists w3,
         hbm_read_masterdb sample_random (set_disk (disk w1) first_boot_world)
         = Ok (1, w3)
         /\ prehash (cfg w3) = Some pre /\ posthash (cfg w3) = Some post.
Proof.
  destruct (masterdb_created_then_read sample_random first_boot_world
              "secret" "/data/history/master.db")
    as (w1 & pre & post & Hr & Hp & Hq & _ & _ & _ & Hf & Hagain).
  - reflexivity.
  - reflexivity.
  - vm_compute. reflexivity.
  - simpl. rewrite elem_of_singleton. discriminate.
  - exists w1, pre, post. split; [exact Hr|]. split; [exact Hp|].
    split; [exact Hq|]. split; [exact Hf|].
    destruct (Hagain (set_disk (disk w1) first_boot_world))
      as (w3 & Hr3 & Hp3 & Hq3 & _); [reflexivity|reflexivity|].
    exists w3. split; [exact Hr3|]. by split.
Defined.

Lemma posttest_result_witness :
  exists w',
    s_posttest old_master_world = Ok (1, 0, w')
    /\ test w' = setcfg sample_abspath (freecfg (test old_master_world))
    /\ history_hash_table w' = history_hash_table old_master_world
    /\ persist (cfg w') = persist (cfg old_master_world).
Proof.
  destruct (s_posttest old_master_world) as [[[r errs] w']|] eqn:E;
    [|by vm_compute in E].
  destruct (posttest_result sample_test_db sample_mkdir sample_random
              sample_abspath old_master_world r errs w' E)
    as (_ & Ht & Htb & _ & _ & Hp & _).
  vm_compute in E. injection E as <- <- _.
  exists w'. split; [reflexivity|]. split; [exact Ht|]. by split.
Defined.

Lemma config_secret_and_persist_witness :
  exists w',
    s_posttest (config_test_all sample_config_host secret_only_block s_initial)
    = Ok (-1, 1, w')
    /\ notices w' = [Error_secret_without_persist]
    /\ disk w' = disk s_initial.
Proof.
  destruct (config_secret_and_persist sample_test_db sample_mkdir
              sample_random sample_abspath sample_config_host
              secret_only_block s_initial) as (H & _).
  destruct H as (w' & Hp & Hn & Hd & _).
  - reflexivity.
  - repeat constructor. discriminate.
  - left. reflexivity.
  - repeat constructor. intros _. by eexists.
  - exists w'. split; [exact Hp|]. split; [exact Hn|exact Hd].
Defined.

Lemma read_db_unknown_object_witness :
  exists w',
    s_read_db sample_tv "/data/history/abc.db" orphan_world = Ok (1, w')
    /\ notices w' = [Warn_no_channel "#gone"]
    /\ fs_files (disk w') !! "/data/history/abc.db" = None
    /\ history_hash_table w' = history_hash_table orphan_world.
Proof.
  destruct (read_db_unknown_object false 30 32 sample_siphash
              sample_unix_time sample_gmtime sample_tv "/data/history/abc.db"
              orphan_world orphan_file 5000 10 3600 "PRE" "POST" "#gone"
              [DbInt32 HISTORYDB_MAGIC_FILE_END])
    as (w' & Hr & Hn & Hf & _ & Ht).
  - vm_compute. reflexivity.
  - reflexivity.
  - reflexivity.
  - lia.
  - reflexivity.
  - reflexivity.
  - vm_compute. reflexivity.
  - exists w'. split; [exact Hr|]. split; [exact Hn|]. by split.
Defined.

Lemma init_runs_once_witness :
  exists w',
    s_init sample_tv foreign_world = Ok w'
    /\ already_loaded w' = true
    /\ cfg w' = cfg foreign_world
    /\ s_init sample_tv w' = Ok w'.
Proof.
  destruct (s_init sample_tv foreign_world) as [w'|] eqn:E;
    [|by vm_compute in E].
  destruct (init_runs_once false 30 32 sample_siphash sample_unix_time
              sample_gmtime sample_mkdir sample_tv foreign_world w' E)
    as (Ha & Hc & Hi & _).
  exists w'. split; [reflexivity|]. split; [exact Ha|].
  split; [exact Hc|apply Hi].
Defined.

Lemma scan_touches_only_db_files_witness :
  exists w',
    s_read_dbs sample_tv scan_world = Ok w'
    /\ fs_files (disk w') !! "/data/history/master.db" = Some old_master_file.
Proof.
  destruct (s_read_dbs sample_tv scan_world) as [w'|] eqn:E;
    [|by vm_compute in E].
  exists w'. split; [reflexivity|].
  etrans.
  - apply (scan_touches_only_db_files false 30 32 sample_siphash
             sample_unix_time sample_gmtime sample_sha256 sample_channels
             sample_channels sample_mkdir sample_random sample_abspath
             sample_tv scan_world w' "/data/history" "master.db").
    + reflexivity.
    + intros g Hg.
      assert (readdir "/data/history" (disk scan_world)
              = ["master.db"; "abc.db"]) as Hrd by (vm_compute; reflexivity).
      rewrite Hrd in Hg.
      apply elem_of_cons in Hg as [->|Hg]; [vm_compute; lia|].
      apply list_elem_of_singleton in Hg as ->. vm_compute. lia.
    + exact E.
    + reflexivity.
    + by left.
  - vm_compute. reflexivity.
Defined.

Lemma add_appends_and_evicts_witness :
  exists w' h',
    s_add sample_tv "#a" [time_tag "1000"] "d" two_log_world = Ok (0, w')
    /\ s_find (history_hash_table w') "#a" = Some ((132%nat, 0%nat), h')
    /\ h_lines h' = h_lines sample_log ++ [sample_line 1000 "1000" "d"]
    /\ num_lines h' = 4
    /\ snd <$> s_find (history_hash_table w') "#b" = Some sample_log_b.
Proof.
  destruct (add_appends_and_evicts false 30 32 sample_siphash
              sample_unix_time sample_gmtime sample_tv "#a"
              [time_tag "1000"] "d" two_log_world (132%nat, 0%nat)
              sample_log)
    as (w' & h' & Ha & Hf & Hl & Hn & _ & _ & _ & _ & _ & _ & Ho).
  - vm_compute. reflexivity.
  - vm_compute. reflexivity.
  - reflexivity.
  - simpl. lia.
  - exists w', h'. split; [exact Ha|]. split; [exact Hf|].
    split; [rewrite Hl; vm_compute; reflexivity|].
    split; [rewrite Hn, Hl; vm_compute; reflexivity|].
    rewrite Ho by reflexivity. vm_compute. reflexivity.
Defined.

Lemma add_then_request_witness :
  exists w' r,
    s_add sample_tv "#a" [time_tag "1000"] "d" sample_world = Ok (0, w')
    /\ s_request 1001 sample_tv "#a" None w' = Some r
    /\ hr_object r = "#a"
    /\ last (hr_log r) = Some (sample_line 1000 "1000" "d").
Proof.
  destruct (add_then_request false 30 32 sample_siphash sample_unix_time
              sample_gmtime sample_tv "#a" [time_tag "1000"] "d"
              sample_world (132%nat, 0%nat) sample_log 1001 sample_tv None)
    as (w' & r & Ha & Hr & Ho & Hl).
  - vm_compute. reflexivity.
  - vm_compute. reflexivity.
  - reflexivity.
  - apply sample_log_timed.
  - simpl. lia.
  - vm_compute. discriminate.
  - exact I.
  - exists w', r. split; [exact Ha|]. split; [exact Hr|].
    split; [exact Ho|exact Hl].
Defined.

Lemma add_stamps_time_witness :
  exists w' h' l,
    s_add sample_tv "#a" [] "d" sample_world = Ok (0, w')
    /\ s_find (history_hash_table w') "#a" = Some ((132%nat, 0%nat), h')
    /\ last (h_lines h') = Some l
    /\ hl_line l = "d"
    /\ hl_mtags l
       = [{| mt_name := "time";
             mt_value := Some (server_time_now sample_gmtime sample_tv) |}].
Proof.
  destruct (add_stamps_time false 30 32 sample_siphash sample_unix_time
              sample_gmtime sample_tv "#a" [] "d" sample_world
              (132%nat, 0%nat) sample_log)
    as (w' & h' & l & Ha & Hf & Hl & Ht & Hm).
  - vm_compute. reflexivity.
  - vm_compute. reflexivity.
  - reflexivity.
  - simpl. lia.
  - hnf in Hm. destruct Hm as (Hm & _).
    exists w', h', l. split; [exact Ha|]. split; [exact Hf|].
    split; [exact Hl|]. split; [exact Ht|exact Hm].
Defined.

Lemma failed_load_is_quarantined_witness :
  exists w',
    s_read_dbs_entry sample_tv "abc.db" foreign_world = Ok w'
    /\ fs_files (disk w') !! "/data/history/abc.db" = None
    /\ fs_files (disk w') !! "/data/history/bad/abc.db" = Some foreign_file.
Proof.
  destruct (s_read_db sample_tv "/data/history/abc.db" foreign_world)
    as [[r w1]|] eqn:E; [|by vm_compute in E].
  assert (r = 0) as ->.
  { pose proof E as E'. vm_compute in E'. by injection E' as <- _. }
  destruct (failed_load_is_quarantined false 30 32 sample_siphash
              sample_unix_time sample_gmtime sample_mkdir sample_tv "abc.db"
              foreign_world w1 foreign_file)
    as (w' & He & Hg & Hb & _).
  - reflexivity.
  - discriminate.
  - exact E.
  - vm_compute. reflexivity.
  - vm_compute. discriminate.
  - vm_compute. discriminate.
  - simpl. rewrite elem_of_singleton. vm_compute. discriminate.
  - vm_compute. reflexivity.
  - right. split; [reflexivity|]. split; vm_compute; reflexivity.
  - exists w'. split; [exact He|]. split; [exact Hg|exact Hb].
Defined.
